(** * ADXL345_spi.py: a shallow embedding of the MicroPython driver

    The driver class [ADXL345] of [ADXL345_spi.py] talks to an ADXL345
    accelerometer over SPI.  This development embeds its methods in Rocq:

    - Python integers are [Z]; a [bytearray] is a [list Z] of values in
      [0, 256); a Python number that may be a float (a sampling rate, a
      duration) is given by its value, a rational [Qc];
    - what depends on the interpreter and on the port is left to the
      [World]: the rounding of float arithmetic, what [bytearray] does with
      an item that is not a byte, what the bus does with a transfer of no
      bytes;
    - the dictionaries of legal values are [gmap]s;
    - a Python call either returns, raises, or (for the busy-wait loops)
      may never finish: see [outcome];
    - the chip, the bus and the clock are an abstract [World]; the driver
      object carries it together with its attributes and the trace of the
      calls made on [machine.SPI], [machine.Pin], [time] and [print]. *)

From Stdlib Require Import Ascii String QArith Qcanon Qround.
From stdpp Require Import base numbers list strings gmap.

Local Open Scope Z_scope.

(** ** Outcomes of a Python call *)

(** The built-in exceptions the driver can meet. *)
Inductive exn : Set :=
  | KeyError | AttributeError | ValueError | IndexError
  | ZeroDivisionError | OverflowError | OSError.

(** [Ret a]: the call returned [a]; [Raise e]: it raised [e]; [Spin]: the
    bound on loop iterations given to the model was reached while a
    [while] loop was still polling (the Python code would go on). *)
Inductive outcome (A : Type) : Type :=
  | Ret (a : A)
  | Raise (e : exn)
  | Spin.
Arguments Ret {A} a.
Arguments Raise {A} e.
Arguments Spin {A}.

(** Sequencing of pure code that may raise. *)
Definition obind {A B} (m : outcome A) (f : A → outcome B) : outcome B :=
  match m with
  | Ret a => f a
  | Raise e => Raise e
  | Spin => Spin
  end.

Declare Scope out_scope.
Delimit Scope out_scope with out.
Notation "x <- m ;; k" := (obind m (fun x => k))
  (at level 100, m at next level, right associativity) : out_scope.

(** ** Python built-ins used by the driver *)

(** [range(n)] *)
Definition range (n : Z) : list Z := Z.of_nat <$> seq 0 (Z.to_nat n).

(** [l[i:j]] for [0 <= i]: both ends are clipped to the length. *)
Definition slice {A} (l : list A) (i j : Z) : list A :=
  take (Z.to_nat (j - i)) (drop (Z.to_nat i) l).

(** [enumerate(l)], counting from [start] *)
Fixpoint enumerate_from {A} (start : Z) (l : list A) : list (Z * A) :=
  match l with
  | [] => []
  | x :: l' => (start, x) :: enumerate_from (start + 1) l'
  end.
Definition enumerate {A} (l : list A) : list (Z * A) := enumerate_from 0 l.

(** A list comprehension whose body may raise. *)
Fixpoint comprehension {A B} (f : A → outcome B) (l : list A) : outcome (list B) :=
  match l with
  | [] => Ret []
  | x :: l' => (y <- f x ;; ys <- comprehension f l' ;; Ret (y :: ys))%out
  end.

(** [ustruct.unpack('<HHH', b)]: three little-endian unsigned 16-bit words;
    a buffer of the wrong size is an error. *)
Definition unpack_HHH (b : list Z) : outcome (Z * Z * Z) :=
  match b with
  | [x0; x1; y0; y1; z0; z1] =>
      Ret (x0 + 256 * x1, y0 + 256 * y1, z0 + 256 * z1)
  | _ => Raise ValueError
  end.

(** [a, b, c = zip] of the starred rows: with no row, [zip()] yields
    nothing and the unpacking into three names raises. *)
Definition zip_star (rows : list (Z * Z * Z)) : outcome (list Z * list Z * list Z) :=
  match rows with
  | [] => Raise ValueError
  | _ => Ret ((λ r, r.1.1) <$> rows, (λ r, r.1.2) <$> rows, (λ r, r.2) <$> rows)
  end.

(** ** Constants of [__init__] *)

Definition read_mask : Z := 0x80.
Definition multibyte_mask : Z := 0x40.
Definition nmaxvalues_infifo : Z := 32.
Definition bytes_per_3axes : Z := 6.
Definition device_id : Z := 0xE5.

Definition regaddr_devid : Z := 0x00.
Definition regaddr_acc : Z := 0x32.
Definition regaddr_freq : Z := 0x2C.
Definition regaddr_pwr : Z := 0x2D.
Definition regaddr_intsource : Z := 0x30.
Definition regaddr_grange : Z := 0x31.
Definition regaddr_fifoctl : Z := 0x38.
Definition regaddr_fifostatus : Z := 0x39.

(** ** Conversions: [xyzbytes2g] *)

(** The "negative values rule" of [xyzbytes2g]:
    [x if x <= 32767 else x - 65536]. *)
Definition negative_values_rule (x : Z) : Z :=
  if bool_decide (x ≤ 32767) then x else x - 65536.

(** [xyzbytes2g(buf)].  [n_act_meas] is
    [int(len(buf)/self.bytes_per_3axes)], the quotient of two non-negative
    integers, truncated; the two calls of [gc.collect()] do not bear on
    the result. *)
Definition xyzbytes2g (buf : list Z) : outcome (list Z * list Z * list Z) :=
  let n_act_meas := Z.of_nat (length buf) `div` bytes_per_3axes in
  (rows <- comprehension
             (λ i, unpack_HHH (slice buf i (i + bytes_per_3axes)))
             (filter (λ i, i `mod` bytes_per_3axes = 0) (range n_act_meas)) ;;
   cols <- zip_star rows ;;
   let '(acc_x, acc_y, acc_z) := cols in
   Ret (negative_values_rule <$> acc_x,
        negative_values_rule <$> acc_y,
        negative_values_rule <$> acc_z))%out.

(** The encoder of the round-trip property: the two bytes, low one first,
    of [v mod 65536].  It is not part of the driver (the chip does it);
    it is the inverse the decoder is checked against. *)
Definition encode_le16 (v : Z) : list Z :=
  let w := v `mod` 65536 in [w `mod` 256; w `div` 256].

(** ** Frame stripping *)

(** [remove_first_bytes_from_bytearray_of_many_transactions]:
    [bytearray([b for i, b in enumerate(buf) if i % (bytes_per_3axes + 1) != 0])] *)
Definition remove_first_bytes_from_bytearray_of_many_transactions
    (buf : list Z) : list Z :=
  (filter (λ ib, ib.1 `mod` (bytes_per_3axes + 1) ≠ 0) (enumerate buf)).*2.

(** ** More built-ins: indexing, [bytearray], true division, strings *)

(** [l[i]], with Python's negative indices *)
Definition getitem {A} (l : list A) (i : Z) : outcome A :=
  let j := if bool_decide (i < 0) then Z.of_nat (length l) + i else i in
  if bool_decide (0 ≤ j) then
    match l !! Z.to_nat j with
    | Some x => Ret x
    | None => Raise IndexError
    end
  else Raise IndexError.

(** [l[i] = x] *)
Definition setitem {A} (l : list A) (i : Z) (x : A) : outcome (list A) :=
  let j := if bool_decide (i < 0) then Z.of_nat (length l) + i else i in
  if bool_decide (0 ≤ j < Z.of_nat (length l)) then Ret (<[Z.to_nat j := x]> l)
  else Raise IndexError.

(** [d[k]] on a dictionary *)
Definition getitem_dict `{Countable K} {V} (d : gmap K V) (k : K) : outcome V :=
  match d !! k with
  | Some v => Ret v
  | None => Raise KeyError
  end.

(** [bytearray(n)]: [n] zero bytes; a negative size is an error. *)
Definition bytearray_zeros (n : Z) : outcome (list Z) :=
  if bool_decide (n < 0) then Raise ValueError else Ret (replicate (Z.to_nat n) 0).

(** [bytearray(items)].  Items in [range(256)] are stored as they are.
    What happens to an item outside of it is the interpreter's business
    (CPython raises [ValueError], MicroPython's [bytearray] does not check
    and keeps the low bits): [overflow items] is its answer, the bytes
    stored or the error raised. *)
Definition bytearray_of (overflow : list Z → list Z + exn) (items : list Z)
    : outcome (list Z) :=
  if bool_decide (Forall (λ b, 0 ≤ b < 256) items) then Ret items
  else match overflow items with
       | inl bytes => Ret bytes
       | inr e => Raise e
       end.

(** [int(q)] for a number of value [q]: truncation towards zero. *)
Definition int_of_Qc (q : Qc) : Z := Qnum q `quot` Z.pos (Qden q).

(** [int(n * 1.5)] for an integer [n] *)
Definition int_times_1_5 (n : Z) : Z := (3 * n) `quot` 2.

(** [a / b] on numbers, as far as raising goes: the quotient is the exact
    one, and the driver only prints it. *)
Definition truediv (a b : Qc) : outcome Qc :=
  if bool_decide (b = 0%Qc) then Raise ZeroDivisionError else Ret (a / b)%Qc.

(** [bin(n)] *)
Fixpoint bin_digits (p : positive) (acc : string) : string :=
  match p with
  | xH => String "1"%char acc
  | xO p' => bin_digits p' (String "0"%char acc)
  | xI p' => bin_digits p' (String "1"%char acc)
  end.
Definition bin (n : Z) : string :=
  match n with
  | Z0 => "0b0"%string
  | Zpos p => ("0b" +:+ bin_digits p "")%string
  | Zneg p => ("-0b" +:+ bin_digits p "")%string
  end.

(** [s.split(sep)] for a one-character separator *)
Fixpoint split (sep : ascii) (s : string) : list string :=
  match s with
  | EmptyString => [EmptyString]
  | String c s' =>
      if Ascii.eqb c sep then EmptyString :: split sep s'
      else match split sep s' with
           | [] => [String c EmptyString]
           | hd :: tl => String c hd :: tl
           end
  end.

(** ['{:>5}'.format(s)]: right-aligned in a field of five, padded with
    blanks; a longer string is left as it is. *)
Definition format_right5 (s : string) : string :=
  string_of_list_ascii (replicate (5 - String.length s) " "%char) +:+ s.

(** [s.replace(' ', '0')] *)
Fixpoint replace_blank_by_0 (s : string) : string :=
  match s with
  | EmptyString => EmptyString
  | String c s' => String (if Ascii.eqb c " "%char then "0"%char else c) (replace_blank_by_0 s')
  end.

(** [int(s, 2)] on an unsigned literal: an optional ["0b"] prefix, then at
    least one binary digit; anything else is an error. *)
Fixpoint binary_value (s : string) (acc : Z) : outcome Z :=
  match s with
  | EmptyString => Ret acc
  | String "0"%char s' => binary_value s' (2 * acc)
  | String "1"%char s' => binary_value s' (2 * acc + 1)
  | String _ _ => Raise ValueError
  end.
Definition int_base2 (s : string) : outcome Z :=
  let digits := match s with String "0"%char (String "b"%char ds) => ds | _ => s end in
  match digits with
  | EmptyString => Raise ValueError
  | _ => binary_value digits 0
  end.

(** ** Allowed values (the dictionaries of [__init__]) *)

Definition power_modes : gmap string Z :=
  list_to_map [("standby"%string, 0x00); ("measure"%string, 0x08)].

Definition g_ranges : gmap Z Z :=
  list_to_map [(2, 0x00); (4, 0x01); (8, 0x10); (16, 0x11)].

Definition device_sampling_rates : gmap Qc Z :=
  list_to_map
    [(Q2Qc (156 # 100), 0x04); (Q2Qc (313 # 100), 0x05); (Q2Qc (625 # 100), 0x06);
     (Q2Qc (125 # 10), 0x07); (Qc_of_Z 25, 0x08); (Qc_of_Z 50, 0x09);
     (Qc_of_Z 100, 0x0a); (Qc_of_Z 200, 0x0b); (Qc_of_Z 400, 0x0c);
     (Qc_of_Z 800, 0x0d); (Qc_of_Z 1600, 0x0e); (Qc_of_Z 3200, 0x0f)].

(** ** The world outside the driver *)

(** The chip on its bus, the clock, and the interpreter.  [xfer w d] clocks
    one byte: [w] goes out on MOSI and a byte comes in on MISO; [None] means
    that the [machine.SPI] call raises instead.  [cs_set v d] is
    [cs.value(v)] and [ticks d] is [time.ticks_us()].

    The other fields are the answers of the interpreter and of its port
    where these differ from one to the next:
    - [int_of_product a b] is [int(a * b)] for two numbers of values [a]
      and [b]: exact when both are integers, the truncation of a rounded
      product when one is a float (doubles on CPython, single precision on
      most MicroPython boards); [None] when the product is not finite and
      [int] raises [OverflowError];
    - [quotient i b] is [i / b], a float, for an integer [i] and [b]
      other than zero;
    - [bytearray_overflow items] is what [bytearray(items)] does when an
      item is not in [range(256)]: the bytes it stores or the error it
      raises, see [bytearray_of];
    - [empty_transfer_ok] tells whether [machine.SPI] accepts a transfer of
      no bytes (it then does nothing) or raises [ValueError], as the
      hardware SPI of the ESP32 port does ("buffer too short"). *)
Record World : Type := {
  dev : Type;
  xfer : Z → dev → option (Z * dev);
  cs_set : Z → dev → dev;
  ticks : dev → Z * dev;
  int_of_product : Qc → Qc → option Z;
  quotient : Z → Qc → Qc;
  bytearray_overflow : list Z → list Z + exn;
  empty_transfer_ok : bool;
}.

(** The calls the driver makes on the outside, newest first in a trace. *)
Inductive event : Type :=
  | CsValue (v : Z)
  | SpiWrite (bytes : list Z)
  | SpiRead (nbytes : Z) (write : Z)
  | SpiReadinto (nbytes : nat) (write : Z)
  | TicksUs
  | Print
  | GcCollect.

(** The bus write transactions of a trace *)
Definition bus_writes (tr : list event) : list (list Z) :=
  omap (λ e, match e with SpiWrite bs => Some bs | _ => None end) tr.

(** ** The driver object *)

(** An [ADXL345] object after [init_spi()].  The attributes that the
    setters create are absent ([None]) until first assigned; [chip] is the
    state of the outside world, of type [D], and [trace] the calls made so
    far.  For a world [W], [ADXL345 W] is the object on the states of
    [W]. *)
Record ADXL345 (D : Type) : Type := {
  power_mode : option string;
  g_range : option Z;
  sampling_rate : option Qc;
  fifo_mode : option string;
  watermark_level : option Z;
  chip : D;
  trace : list event;
}.
Arguments power_mode {D} _.
Arguments g_range {D} _.
Arguments sampling_rate {D} _.
Arguments fifo_mode {D} _.
Arguments watermark_level {D} _.
Arguments chip {D} _.
Arguments trace {D} _.
Coercion dev : World >-> Sortclass.

Section Driver.
Context {W : World}.

Definition with_power_mode (v : string) (s : ADXL345 W) : ADXL345 W :=
  {| power_mode := Some v; g_range := g_range s; sampling_rate := sampling_rate s;
     fifo_mode := fifo_mode s; watermark_level := watermark_level s;
     chip := chip s; trace := trace s |}.
Definition with_sampling_rate (v : Qc) (s : ADXL345 W) : ADXL345 W :=
  {| power_mode := power_mode s; g_range := g_range s; sampling_rate := Some v;
     fifo_mode := fifo_mode s; watermark_level := watermark_level s;
     chip := chip s; trace := trace s |}.
Definition with_fifo_mode (v : string) (s : ADXL345 W) : ADXL345 W :=
  {| power_mode := power_mode s; g_range := g_range s; sampling_rate := sampling_rate s;
     fifo_mode := Some v; watermark_level := watermark_level s;
     chip := chip s; trace := trace s |}.
Definition with_watermark_level (v : Z) (s : ADXL345 W) : ADXL345 W :=
  {| power_mode := power_mode s; g_range := g_range s; sampling_rate := sampling_rate s;
     fifo_mode := fifo_mode s; watermark_level := Some v;
     chip := chip s; trace := trace s |}.
Definition with_chip (d : dev W) (s : ADXL345 W) : ADXL345 W :=
  {| power_mode := power_mode s; g_range := g_range s; sampling_rate := sampling_rate s;
     fifo_mode := fifo_mode s; watermark_level := watermark_level s;
     chip := d; trace := trace s |}.
Definition with_event (e : event) (s : ADXL345 W) : ADXL345 W :=
  {| power_mode := power_mode s; g_range := g_range s; sampling_rate := sampling_rate s;
     fifo_mode := fifo_mode s; watermark_level := watermark_level s;
     chip := chip s; trace := e :: trace s |}.

(** A method body: from the object before the call to the outcome and the
    object after it.  When a call raises, what it did before stays done. *)
Definition M (A : Type) : Type := ADXL345 W → outcome A * ADXL345 W.

Definition ret {A} (a : A) : M A := λ s, (Ret a, s).
Definition raise {A} (e : exn) : M A := λ s, (Raise e, s).
Definition spin {A} : M A := λ s, (Spin, s).
Definition lift {A} (o : outcome A) : M A := λ s, (o, s).
Definition bind {A B} (m : M A) (f : A → M B) : M B := λ s,
  match m s with
  | (Ret a, s') => f a s'
  | (Raise e, s') => (Raise e, s')
  | (Spin, s') => (Spin, s')
  end.

Declare Scope drv_scope.
Delimit Scope drv_scope with drv.
Notation "x <- m ;; k" := (bind m (fun x => k))
  (at level 100, m at next level, right associativity) : drv_scope.
Notation "m ;; k" := (bind m (fun _ => k))
  (at level 100, right associativity) : drv_scope.
Local Open Scope drv_scope.

(** [self.attr], for an attribute that may not exist yet *)
Definition getattr {A} (field : ADXL345 W → option A) : M A := λ s,
  match field s with
  | Some v => (Ret v, s)
  | None => (Raise AttributeError, s)
  end.
Definition setattr (update : ADXL345 W → ADXL345 W) : M unit := λ s, (Ret tt, update s).

Definition emit (e : event) : M unit := setattr (with_event e).

(** *** Calls on the outside world *)

(** Clock the bytes [out], one after the other, collecting what comes in. *)
Fixpoint clock_bytes (out : list Z) (d : dev W) : outcome (list Z) * dev W :=
  match out with
  | [] => (Ret [], d)
  | w :: out' =>
      match xfer W w d with
      | None => (Raise OSError, d)
      | Some (b, d') =>
          match clock_bytes out' d' with
          | (Ret bs, d'') => (Ret (b :: bs), d'')
          | r => r
          end
      end
  end.
Definition on_chip {A} (f : dev W → outcome A * dev W) : M A := λ s,
  let '(r, d) := f (chip s) in (r, with_chip d s).
(** One transfer on the bus: the bytes [out] go out and as many come in.
    The port decides what a transfer of no bytes does. *)
Definition transfer (out : list Z) : M (list Z) :=
  match out with
  | [] => if empty_transfer_ok W then ret [] else raise ValueError
  | _ :: _ => on_chip (clock_bytes out)
  end.

(** *** The interpreter's arithmetic *)

(** [int(a * b)] *)
Definition int_mul (a b : Qc) : outcome Z :=
  match int_of_product W a b with
  | Some n => Ret n
  | None => Raise OverflowError
  end.
(** [i / b] for an integer [i] *)
Definition int_truediv (i : Z) (b : Qc) : outcome Qc :=
  if bool_decide (b = 0%Qc) then Raise ZeroDivisionError else Ret (quotient W i b).

(** [print(...)]: the text is not modelled, the call is. *)
Definition print_ : M unit := emit Print.
Definition gc_collect : M unit := emit GcCollect.
(** [self.cs.value(v)] *)
Definition cs_value (v : Z) : M unit :=
  emit (CsValue v) ;; on_chip (λ d, (Ret tt, cs_set W v d)).
(** [time.ticks_us()] *)
Definition ticks_us : M Z :=
  emit TicksUs ;; on_chip (λ d, let '(t, d') := ticks W d in (Ret t, d')).
(** [self.spi.write(bytes)] *)
Definition spi_write (bytes : list Z) : M unit :=
  emit (SpiWrite bytes) ;; _ <- transfer bytes ;; ret tt.
(** [self.spi.read(nbytes, write)]: [write] is sent for every byte read. *)
Definition spi_read (nbytes : Z) (write : Z) : M (list Z) :=
  emit (SpiRead nbytes write) ;; transfer (replicate (Z.to_nat nbytes) write).
(** [self.spi.readinto(m[a:b], write)] where [m = memoryview(buf)]: the
    slice is clipped to the buffer, as many bytes as it has are read and
    they land in [buf] itself. *)
Definition spi_readinto (buf : list Z) (a b : Z) (write : Z) : M (list Z) :=
  let view := slice buf a b in
  emit (SpiReadinto (length view) write) ;;
  bs <- transfer (replicate (length view) write) ;;
  ret (take (Z.to_nat a) buf ++ bs ++ drop (Z.to_nat a + length view) buf).

(** *** General purpose *)

(** [write(regaddr, the_byte)] *)
Definition write (regaddr the_byte : Z) : M unit :=
  cs_value 0 ;;
  bytes <- lift (bytearray_of (bytearray_overflow W) [regaddr; the_byte]) ;;
  spi_write bytes ;;
  cs_value 1.

(** [read(regaddr, nbytes)] *)
Definition read (regaddr nbytes : Z) : M (list Z) :=
  let wbyte := Z.lor regaddr read_mask in
  let wbyte := if bool_decide (nbytes > 1) then Z.lor wbyte multibyte_mask else wbyte in
  cs_value 0 ;;
  r <- spi_read (nbytes + 1) wbyte ;;
  let value := drop 1 r in
  cs_value 1 ;;
  ret value.

(** *** Settings *)

Definition set_power_mode (mode : string) : M unit :=
  print_ ;;
  v <- lift (getitem_dict power_modes mode) ;;
  write regaddr_pwr v ;;
  setattr (with_power_mode mode).

Definition set_sampling_rate (sr : Qc) : M unit :=
  print_ ;;
  v <- lift (getitem_dict device_sampling_rates sr) ;;
  write regaddr_freq v ;;
  setattr (with_sampling_rate sr).

(** The control byte of stream mode, as [set_fifo_mode] and
    [set_watermark_level] both build it: the text ['100'] followed by the
    binary digits of the level, right-aligned in five columns. *)
Definition stream_control_byte (watermark_level : Z) : outcome Z :=
  let stream_bstr := "100"%string in
  (wm_bstr <- getitem (split "b"%char (bin watermark_level)) 1 ;;
   let bstr := ("0b" +:+ stream_bstr +:+ replace_blank_by_0 (format_right5 wm_bstr))%string in
   int_base2 bstr)%out.

(** [set_fifo_mode(mode, watermark_level)]; callers that leave the level
    out pass the default, 16. *)
Definition set_fifo_mode (mode : string) (watermark_level : Z) : M unit :=
  setattr (with_fifo_mode mode) ;;
  setattr (with_watermark_level watermark_level) ;;
  b <- (if bool_decide (mode = "bypass"%string) then
          print_ ;; ret 0x00
        else
          b <- lift (stream_control_byte watermark_level) ;;
          print_ ;; ret b) ;;
  write regaddr_fifoctl b.

Definition set_watermark_level (nrows : Z) : M unit :=
  print_ ;;
  setattr (with_fifo_mode "stream"%string) ;;
  setattr (with_watermark_level nrows) ;;
  b <- lift (stream_control_byte nrows) ;;
  write regaddr_fifoctl b.

(** *** Readings *)

Definition clear_fifo : M unit :=
  set_fifo_mode "bypass"%string 16 ;;
  set_fifo_mode "stream"%string 16.

Definition clear_isdataready : M unit :=
  _ <- read regaddr_acc 6 ;; ret tt.

Definition get_nvalues_in_fifo : M Z :=
  r <- read regaddr_fifostatus 1 ;;
  b <- lift (getitem r 0) ;;
  ret (Z.land b 0x3f).

(** *** Acquisition loops

    A [while] loop of the source takes a bound [fuel] on its number of
    iterations: when the bound is reached with the condition still true,
    the outcome is [Spin]. *)

(** [(t_stop - t_start) / 1000000] *)
Definition seconds (us : Z) : Qc := (Qc_of_Z us / Qc_of_Z 1000000)%Qc.

(** The polling loop of [read_many_xyz] and of [read_continuos_xyz] (the
    same statements in both): [while n_act_meas < n: ...] over the locals
    [n_act_meas], [buf] (seen through the memoryview [m]) and [T]. *)
Fixpoint polled_while (fuel : nat) (n : Z) (st : Z * list Z * list Z)
    : M (Z * list Z * list Z) :=
  let '(n_act_meas, buf, T) := st in
  if bool_decide (n_act_meas < n) then
    match fuel with
    | O => spin
    | S fuel' =>
        let start_index := n_act_meas * (bytes_per_3axes + 1) in
        let stop_index := n_act_meas * (bytes_per_3axes + 1) + (bytes_per_3axes + 1) in
        cs_value 0 ;;
        r <- spi_read 2 (Z.lor regaddr_intsource read_mask) ;;
        b <- lift (getitem r 1) ;;
        let is_data_ready := Z.land (Z.shiftr b 7) 1 in
        cs_value 1 ;;
        if bool_decide (is_data_ready = 0) then
          polled_while fuel' n (n_act_meas, buf, T)
        else
          cs_value 0 ;;
          buf <- spi_readinto buf start_index stop_index
                   (Z.lor (Z.lor regaddr_acc read_mask) multibyte_mask) ;;
          cs_value 1 ;;
          t <- ticks_us ;;
          T <- lift (setitem T n_act_meas t) ;;
          polled_while fuel' n (n_act_meas + 1, buf, T)
    end
  else ret st.

(** [read_many_xyz(n)] *)
Definition read_many_xyz (fuel : nat) (n : Z) : M (list Z * list Z) :=
  let n_exp_bytes := (bytes_per_3axes + 1) * n in
  let T := replicate (Z.to_nat (int_times_1_5 n)) 0 in
  buf <- lift (bytearray_zeros n_exp_bytes) ;;
  clear_isdataready ;;
  t_start <- ticks_us ;;
  st <- polled_while fuel n (0, buf, T) ;;
  let '(n_act_meas, buf, T) := st in
  t_stop <- ticks_us ;;
  let buf := remove_first_bytes_from_bytearray_of_many_transactions buf in
  let T := slice T 0 n in
  let actual_acq_time := seconds (t_stop - t_start) in
  sr <- getattr sampling_rate ;;
  _ <- lift (truediv (Qc_of_Z n) sr) ;;
  print_ ;;
  _ <- lift (truediv (Qc_of_Z n_act_meas) actual_acq_time) ;;
  print_ ;;
  ret (buf, T).

(** [read_continuos_xyz(acquisition_time)].  The target [n_exp_meas] is
    the interpreter's [int(acquisition_time * self.sampling_rate)]. *)
Definition read_continuos_xyz (fuel : nat) (acquisition_time : Qc)
    : M (list Z * list Z) :=
  sr <- getattr sampling_rate ;;
  _ <- getattr g_range ;;
  print_ ;;
  n_exp_meas <- lift (int_mul acquisition_time sr) ;;
  let n_exp_bytes := (bytes_per_3axes + 1) * n_exp_meas in
  let T := replicate (Z.to_nat (int_times_1_5 n_exp_meas)) 0 in
  buf <- lift (bytearray_zeros (int_times_1_5 n_exp_bytes)) ;;
  set_fifo_mode "bypass"%string 16 ;;
  gc_collect ;;
  set_power_mode "measure"%string ;;
  st <- polled_while fuel n_exp_meas (0, buf, T) ;;
  let '(n_act_meas, buf, T) := st in
  set_power_mode "standby"%string ;;
  let buf := remove_first_bytes_from_bytearray_of_many_transactions buf in
  let buf := slice buf 0 (n_exp_meas * bytes_per_3axes) in
  let T := slice T 0 n_act_meas in
  t_last <- lift (getitem T (-1)) ;;
  t_first <- lift (getitem T 0) ;;
  let actual_acq_time := seconds (t_last - t_first) in
  print_ ;;
  _ <- lift (truediv (Qc_of_Z n_act_meas) actual_acq_time) ;;
  print_ ;;
  gc_collect ;;
  ret (buf, T).

(** The batch drain of [read_continuos_xyz_fromfifo]:
    [for _ in range(nvalues_infifo): ...] over [n_act_meas] and [buf]. *)
Fixpoint fromfifo_for (k : nat) (st : Z * list Z) : M (Z * list Z) :=
  match k with
  | O => ret st
  | S k' =>
      let '(n_act_meas, buf) := st in
      cs_value 0 ;;
      buf <- spi_readinto buf
               (n_act_meas * (bytes_per_3axes + 1))
               (n_act_meas * (bytes_per_3axes + 1) + (bytes_per_3axes + 1))
               (Z.lor (Z.lor regaddr_acc read_mask) multibyte_mask) ;;
      cs_value 1 ;;
      fromfifo_for k' (n_act_meas + 1, buf)
  end.

(** One poll of the FIFO followed by its batch drain: the body of the
    [while] loop of [read_continuos_xyz_fromfifo]. *)
Definition fromfifo_poll (st : Z * list Z) : M (Z * list Z) :=
  nvalues_infifo <- get_nvalues_in_fifo ;;
  fromfifo_for (Z.to_nat nvalues_infifo) st.

(** [while n_act_meas < n_exp_meas: ...] of [read_continuos_xyz_fromfifo] *)
Fixpoint fromfifo_while (fuel : nat) (n_exp_meas : Z) (st : Z * list Z)
    : M (Z * list Z) :=
  if bool_decide (st.1 < n_exp_meas) then
    match fuel with
    | O => spin
    | S fuel' =>
        st' <- fromfifo_poll st ;;
        fromfifo_while fuel' n_exp_meas st'
    end
  else ret st.

(** [read_continuos_xyz_fromfifo(acquisition_time)].  The target is the
    interpreter's [int(acquisition_time * self.sampling_rate)] and the
    entries of the time grid are its quotients [i / self.sampling_rate];
    no statement in between assigns [self.sampling_rate], it is the value
    read at the top. *)
Definition read_continuos_xyz_fromfifo (fuel : nat) (acquisition_time : Qc)
    : M (list Z * list Qc) :=
  sr <- getattr sampling_rate ;;
  _ <- getattr g_range ;;
  print_ ;;
  n_exp_meas <- lift (int_mul acquisition_time sr) ;;
  let n_exp_bytes := (bytes_per_3axes + 1) * n_exp_meas in
  buf <- lift (bytearray_zeros (int_times_1_5 n_exp_bytes)) ;;
  set_fifo_mode "stream"%string 16 ;;
  gc_collect ;;
  set_power_mode "measure"%string ;;
  clear_fifo ;;
  t_start <- ticks_us ;;
  st <- fromfifo_while fuel n_exp_meas (0, buf) ;;
  let '(n_act_meas, buf) := st in
  t_stop <- ticks_us ;;
  set_power_mode "standby"%string ;;
  let buf := remove_first_bytes_from_bytearray_of_many_transactions buf in
  let buf := slice buf 0 (n_exp_meas * bytes_per_3axes) in
  T <- lift (comprehension (λ i, int_truediv i sr) (range n_exp_meas)) ;;
  let actual_acq_time := seconds (t_stop - t_start) in
  print_ ;;
  _ <- lift (truediv (Qc_of_Z n_act_meas) actual_acq_time) ;;
  print_ ;;
  gc_collect ;;
  ret (buf, T).

(** *** The methods that the acquisitions above do not call *)

Definition with_g_range (v : Z) (s : ADXL345 W) : ADXL345 W :=
  {| power_mode := power_mode s; g_range := Some v; sampling_rate := sampling_rate s;
     fifo_mode := fifo_mode s; watermark_level := watermark_level s;
     chip := chip s; trace := trace s |}.

(** [set_g_range(grange)] *)
Definition set_g_range (grange : Z) : M unit :=
  print_ ;;
  v <- lift (getitem_dict g_ranges grange) ;;
  write regaddr_grange v ;;
  setattr (with_g_range grange).

(** [read_into(buf, regaddr)]: [spi.readinto] fills the whole of [buf]. *)
Definition read_into (buf : list Z) (regaddr : Z) : M (list Z) :=
  let wbyte := Z.lor (Z.lor regaddr read_mask) multibyte_mask in
  cs_value 0 ;;
  buf <- spi_readinto buf 0 (Z.of_nat (length buf)) wbyte ;;
  cs_value 1 ;;
  ret buf.

(** [is_spi_communcation_working()]: on a wrong identity the register is
    read a second time, for the message. *)
Definition is_spi_communcation_working : M bool :=
  r <- read regaddr_devid 1 ;;
  b <- lift (getitem r 0) ;;
  if bool_decide (b = device_id) then ret true
  else
    _ <- read regaddr_devid 1 ;;
    print_ ;;
    ret false.

(** [is_watermark_reached()]: the second bit of the interrupt source *)
Definition is_watermark_reached : M Z :=
  r <- read regaddr_intsource 1 ;;
  b <- lift (getitem r 0) ;;
  ret (Z.land (Z.shiftr b 1) 1).

(** [is_data_ready()]: the eighth bit of the interrupt source *)
Definition is_data_ready : M Z :=
  r <- read regaddr_intsource 1 ;;
  b <- lift (getitem r 0) ;;
  ret (Z.land (Z.shiftr b 7) 1).

(** [while n_act_meas < n: ...] of [read_many_xyz_fromfifo]: one fetch per
    iteration, no poll. *)
Fixpoint read_many_xyz_fromfifo_while (fuel : nat) (n : Z) (st : Z * list Z)
    : M (Z * list Z) :=
  let '(n_act_meas, buf) := st in
  if bool_decide (n_act_meas < n) then
    match fuel with
    | O => spin
    | S fuel' =>
        cs_value 0 ;;
        buf <- spi_readinto buf
                 (n_act_meas * (bytes_per_3axes + 1))
                 (n_act_meas * (bytes_per_3axes + 1) + (bytes_per_3axes + 1))
                 (Z.lor (Z.lor regaddr_acc read_mask) multibyte_mask) ;;
        cs_value 1 ;;
        read_many_xyz_fromfifo_while fuel' n (n_act_meas + 1, buf)
    end
  else ret st.

(** [read_many_xyz_fromfifo(n)] *)
Definition read_many_xyz_fromfifo (fuel : nat) (n : Z) : M (list Z) :=
  buf <- lift (bytearray_zeros ((bytes_per_3axes + 1) * n)) ;;
  t_start <- ticks_us ;;
  st <- read_many_xyz_fromfifo_while fuel n (0, buf) ;;
  let '(n_act_meas, buf) := st in
  t_stop <- ticks_us ;;
  let buf := remove_first_bytes_from_bytearray_of_many_transactions buf in
  let actual_acq_time := seconds (t_stop - t_start) in
  sr <- getattr sampling_rate ;;
  _ <- lift (truediv (Qc_of_Z n) sr) ;;
  print_ ;;
  _ <- lift (truediv (Qc_of_Z n_act_meas) actual_acq_time) ;;
  print_ ;;
  ret buf.

End Driver.

Arguments M W A : clear implicits.

(** ** Observations on objects and traces *)

(** The value of the newest write transaction to register [reg] *)
Fixpoint last_write_to (reg : Z) (tr : list event) : option Z :=
  match tr with
  | [] => None
  | SpiWrite [a; v] :: tr' =>
      if bool_decide (a = reg) then Some v else last_write_to reg tr'
  | _ :: tr' => last_write_to reg tr'
  end.

(** The level that the newest [cs.value(v)] call left on the chip-select
    line *)
Fixpoint cs_level (tr : list event) : option Z :=
  match tr with
  | [] => None
  | CsValue v :: _ => Some v
  | _ :: tr' => cs_level tr'
  end.

(** The bus reads of a trace: the [spi.read] and [spi.readinto] calls *)
Definition bus_reads (tr : list event) : list event :=
  omap (λ e, match e with
             | SpiRead _ _ | SpiReadinto _ _ => Some e
             | _ => None
             end) tr.

(** The tracked configuration of an object *)
Definition config {W} (s : ADXL345 W)
    : option string * option Z * option Qc * option string * option Z :=
  (power_mode s, g_range s, sampling_rate s, fifo_mode s, watermark_level s).

(** A new object on the world [d], with the sampling rate and the range
    already assigned (as [set_sampling_rate] and [set_g_range] leave them). *)
Definition configured {W} (sr : Qc) (grange : Z) (d : dev W) : ADXL345 W :=
  {| power_mode := None; g_range := Some grange; sampling_rate := Some sr;
     fifo_mode := None; watermark_level := None; chip := d; trace := [] |}.

(** The outcomes of a fixed-duration acquisition that come after its
    polling loop: the return, and the two errors that only the diagnostics
    of the end can raise. *)
Definition after_loop {A} (r : outcome A) : Prop :=
  match r with
  | Ret _ | Raise IndexError | Raise ZeroDivisionError => True
  | _ => False
  end.

(** The frames that [k] fetches in a row bring in from the chip in state
    [d]: a fetch is one transaction at the data registers, chip select
    low, the command byte clocked seven times, chip select high.  [None]
    when the bus fails. *)
Fixpoint fetches {W : World} (k : nat) (d : dev W) : option (list (list Z) * dev W) :=
  match k with
  | O => Some ([], d)
  | S k' =>
      match clock_bytes (replicate 7 (Z.lor (Z.lor regaddr_acc read_mask) multibyte_mask))
              (cs_set W 0 d) with
      | (Ret frame, d1) =>
          match fetches k' (cs_set W 1 d1) with
          | Some (frames, d2) => Some (frame :: frames, d2)
          | None => None
          end
      | _ => None
      end
  end.

(** What the polling loop of the polled modes asks of the chip in state
    [d] to accept [k] samples, in at most [fuel] polls.  A poll is a
    transaction of two bytes at the interrupt source register; when the
    second byte shows data ready, one fetch follows, as in [fetches], and
    then a reading of the clock.  The result is the frames fetched, in
    order, and the state the chip is left in; [None] when the bus fails or
    the polls run out. *)
Fixpoint polled_fetches {W : World} (fuel : nat) (k : nat) (d : dev W) {struct fuel}
    : option (list (list Z) * dev W) :=
  match k with
  | O => Some ([], d)
  | S k' =>
      match fuel with
      | O => None
      | S fuel' =>
          match clock_bytes (replicate 2 (Z.lor regaddr_intsource read_mask))
                  (cs_set W 0 d) with
          | (Ret [_; b], d1) =>
              if bool_decide (Z.land (Z.shiftr b 7) 1 = 0) then
                polled_fetches fuel' k (cs_set W 1 d1)
              else
                match fetches 1 (cs_set W 1 d1) with
                | Some (frame, d2) =>
                    match polled_fetches fuel' k' (ticks W d2).2 with
                    | Some (frames, d3) => Some (frame ++ frames, d3)
                    | None => None
                    end
                | None => None
                end
          | _ => None
          end
      end
  end.

(** The state in which one write transaction of two bytes leaves the chip:
    chip select low, the two bytes clocked, chip select high.  [None] when
    the bus fails. *)
Definition written {W : World} (regaddr the_byte : Z) (d : dev W) : option (dev W) :=
  match clock_bytes [regaddr; the_byte] (cs_set W 0 d) with
  | (Ret _, d1) => Some (cs_set W 1 d1)
  | _ => None
  end.

(** The fetches of a trace: its [spi.readinto] calls, counted. *)
Fixpoint fetch_count (tr : list event) : Z :=
  match tr with
  | [] => 0
  | SpiReadinto _ _ :: tr' => 1 + fetch_count tr'
  | _ :: tr' => fetch_count tr'
  end.

(** The accepted count at each poll of the FIFO level, oldest poll first:
    for every read of the FIFO status register in the trace, the number of
    fetches made before it. *)
Fixpoint counts_at_polls (tr : list event) : list Z :=
  match tr with
  | [] => []
  | SpiRead _ w :: tr' =>
      if bool_decide (w = Z.lor regaddr_fifostatus read_mask)
      then counts_at_polls tr' ++ [fetch_count tr']
      else counts_at_polls tr'
  | _ :: tr' => counts_at_polls tr'
  end.

(** ** Assumptions on the world *)

(** A world that answers: the bus never raises; a poll of the data-ready
    flag that finds it clear, and a poll of the FIFO level that finds it
    zero, both bring the next sample closer ([wait] decreases); and the
    clock read by [ticks_us] moves forward. *)
Record responsive (W : World) (wait : dev W → nat) (clock : dev W → Z) : Prop := {
  bus_up : ∀ w d, is_Some (xfer W w d);
  ready_soon : ∀ d b0 d1 b1 d2,
    xfer W (Z.lor regaddr_intsource read_mask) (cs_set W 0 d) = Some (b0, d1) →
    xfer W (Z.lor regaddr_intsource read_mask) d1 = Some (b1, d2) →
    Z.land (Z.shiftr b1 7) 1 = 0 →
    (wait (cs_set W 1 d2) < wait d)%nat;
  fifo_soon : ∀ d b0 d1 b1 d2,
    xfer W (Z.lor regaddr_fifostatus read_mask) (cs_set W 0 d) = Some (b0, d1) →
    xfer W (Z.lor regaddr_fifostatus read_mask) d1 = Some (b1, d2) →
    Z.land b1 0x3f = 0 →
    (wait (cs_set W 1 d2) < wait d)%nat;
  clock_ticks : ∀ d, (ticks W d).1 = clock d ∧ clock d < clock (ticks W d).2;
  clock_xfer : ∀ w d b d', xfer W w d = Some (b, d') → clock d ≤ clock d';
  clock_cs : ∀ v d, clock d ≤ clock (cs_set W v d);
}.

(** ** Floats, for the worlds to run the driver in

    Round to nearest, ties to even, on rationals; the exponent range is
    not modelled (no overflow, no subnormal numbers). *)

(** [2 ^ e] for any integer [e] *)
Definition two_to (e : Z) : Qc := Q2Qc (Qpower (2 # 1) e).

(** The integer nearest to [q], the even one of two *)
Definition round_half_even (q : Qc) : Z :=
  let f := Qfloor q in
  match (q - Qc_of_Z f ?= Q2Qc (1 # 2))%Qc with
  | Lt => f
  | Gt => f + 1
  | Eq => if Z.even f then f else f + 1
  end.

(** The exponent of [q > 0]: the [e] with [2 ^ e <= q < 2 ^ (e + 1)] *)
Definition exponent (q : Qc) : Z :=
  let e := Z.log2 (Qnum q) - Z.log2 (Z.pos (Qden q)) in
  match (two_to e ?= q)%Qc with
  | Gt => e - 1
  | _ => e
  end.

(** The float nearest to [q] among those with [prec] bits of precision *)
Definition float_of (prec : Z) (q : Qc) : Qc :=
  if bool_decide (q = 0%Qc) then 0%Qc
  else
    let scale := two_to (prec - 1 - exponent (if bool_decide (q < 0)%Qc then - q else q)%Qc) in
    (Qc_of_Z (round_half_even (q * scale)) / scale)%Qc.

(** The arithmetic of CPython, on doubles: a number is read as the nearest
    double (itself, when it is an integer of a sensible size). *)
Definition binary64_int_of_product (a b : Qc) : option Z :=
  Some (int_of_Qc (float_of 53 (float_of 53 a * float_of 53 b))).
Definition binary64_quotient (i : Z) (b : Qc) : Qc :=
  float_of 53 (Qc_of_Z i / float_of 53 b).

(** [bytearray] without a range check: the low eight bits are kept. *)
Definition low_bits (items : list Z) : list Z + exn :=
  inl ((λ b, b `mod` 256) <$> items).

(** ** Worlds to run the driver in *)

(** A chip that always has data.  The first byte of a transaction is the
    command; the bytes that follow answer for the register it names: the
    interrupt source shows data ready and watermark, the FIFO status shows
    [level], the device id is the right one and the data registers follow
    the clock.  Clocking a byte takes two microseconds.  The interpreter
    computes on doubles, its [bytearray] keeps the low bits of an item that
    is too large, and the bus accepts a transfer of no bytes. *)
Record steady : Type := { steady_clock : Z; steady_command : option Z }.

Definition steady_register (level : Z) (addr : Z) (clock : Z) : Z :=
  if bool_decide (addr = regaddr_intsource) then 0x83
  else if bool_decide (addr = regaddr_fifostatus) then level
  else if bool_decide (addr = regaddr_devid) then device_id
  else clock `mod` 256.

Definition steady_chip (level : Z) : World := {|
  dev := steady;
  xfer w d :=
    Some (match steady_command d with
          | None => 0
          | Some c => steady_register level (Z.land c 0x3f) (steady_clock d)
          end,
          {| steady_clock := steady_clock d + 2;
             steady_command := Some (default w (steady_command d)) |});
  cs_set v d := {| steady_clock := steady_clock d; steady_command := None |};
  ticks d := (steady_clock d,
              {| steady_clock := steady_clock d + 1;
                 steady_command := steady_command d |});
  int_of_product := binary64_int_of_product;
  quotient := binary64_quotient;
  bytearray_overflow := low_bits;
  empty_transfer_ok := true;
|}.

Definition steady_start : steady := {| steady_clock := 0; steady_command := None |}.

(** The same chip and the same interpreter, on a port whose bus refuses a
    transfer of no bytes. *)
Definition strict_chip (level : Z) : World := {|
  dev := steady;
  xfer := xfer (steady_chip level);
  cs_set := cs_set (steady_chip level);
  ticks := ticks (steady_chip level);
  int_of_product := binary64_int_of_product;
  quotient := binary64_quotient;
  bytearray_overflow := low_bits;
  empty_transfer_ok := false;
|}.

(** A bus that carries the bytes of a tape and then fails: every
    [machine.SPI] call made when the tape is empty raises.  Here
    [bytearray] checks the range of its items. *)
Definition tape : World := {|
  dev := list Z;
  xfer w d := match d with [] => None | b :: d' => Some (b, d') end;
  cs_set v d := d;
  ticks d := (0, d);
  int_of_product := binary64_int_of_product;
  quotient := binary64_quotient;
  bytearray_overflow _ := inr ValueError;
  empty_transfer_ok := true;
|}.

(** * Properties *)

(** ** The decoder *)

Lemma range_length n : length (range n) = Z.to_nat n.
Proof. unfold range. by rewrite length_fmap, length_seq. Qed.

Lemma range_succ (n : nat) : range (Z.of_nat (S n)) = range (Z.of_nat n) ++ [Z.of_nat n].
Proof.
  unfold range. rewrite !Nat2Z.id, seq_S, fmap_app. reflexivity.
Qed.

Lemma range_bounds n i : i ∈ range n → 0 ≤ i < n.
Proof.
  unfold range. intros [j [-> Hj]]%list_elem_of_fmap.
  apply elem_of_seq in Hj. lia.
Qed.

(** The comprehension of [xyzbytes2g] keeps one index in six. *)
Lemma selected_indices_length (k : nat) :
  length (filter (λ i, i `mod` bytes_per_3axes = 0) (range (Z.of_nat k)))
  = Z.to_nat ((Z.of_nat k + 5) `div` 6).
Proof.
  unfold bytes_per_3axes. induction k as [|k IH].
  - reflexivity.
  - rewrite range_succ, filter_app, length_app, IH.
    rewrite filter_cons, filter_nil.
    destruct (decide (Z.of_nat k `mod` 6 = 0)) as [Hk|Hk]; simpl length.
    + replace ((Z.of_nat (S k) + 5) `div` 6) with ((Z.of_nat k + 5) `div` 6 + 1).
      * rewrite Z2Nat.inj_add by (try apply Z.div_pos; lia). simpl. lia.
      * rewrite Nat2Z.inj_succ. revert Hk. generalize (Z.of_nat k). intros z Hz.
        Z.div_mod_to_equations. lia.
    + replace ((Z.of_nat (S k) + 5) `div` 6) with ((Z.of_nat k + 5) `div` 6).
      * lia.
      * rewrite Nat2Z.inj_succ. revert Hk. generalize (Z.of_nat k). intros z Hz.
        Z.div_mod_to_equations. lia.
Qed.

Lemma comprehension_total {A B} (f : A → outcome B) (l : list A) :
  Forall (λ x, ∃ y, f x = Ret y) l →
  ∃ ys, comprehension f l = Ret ys ∧ length ys = length l.
Proof.
  induction 1 as [|x l [y Hy] _ [ys [Hys Hlen]]]; simpl.
  - by exists [].
  - exists (y :: ys). rewrite Hy; simpl. rewrite Hys; simpl. by rewrite Hlen.
Qed.

Lemma unpack_HHH_total (b : list Z) :
  length b = 6%nat → ∃ r, unpack_HHH b = Ret r.
Proof.
  intros Hb. do 7 (destruct b as [|? b]; try discriminate Hb). simpl. eauto.
Qed.

Lemma slice_length {A} (l : list A) (i j : Z) :
  length (slice l i j) = (Z.to_nat (j - i) `min` (length l - Z.to_nat i))%nat.
Proof. unfold slice. by rewrite length_take, length_drop. Qed.

(** What [xyzbytes2g] returns on a buffer of at least one sample: one
    decoded triple for every sixth index below [len(buf) / 6]. *)
Lemma xyzbytes2g_total (buf : list Z) :
  (6 ≤ length buf)%nat →
  ∃ xs ys zs, xyzbytes2g buf = Ret (xs, ys, zs)
    ∧ length xs = Z.to_nat ((Z.of_nat (length buf) `div` 6 + 5) `div` 6)
    ∧ length ys = length xs ∧ length zs = length xs.
Proof.
  intros Hlen. unfold xyzbytes2g.
  set (k := Z.of_nat (length buf) `div` bytes_per_3axes).
  assert (Hk : 1 ≤ k ≤ Z.of_nat (length buf) - 5).
  { unfold k, bytes_per_3axes. Z.div_mod_to_equations. lia. }
  destruct (comprehension_total
              (λ i, unpack_HHH (slice buf i (i + bytes_per_3axes)))
              (filter (λ i, i `mod` bytes_per_3axes = 0) (range k)))
    as [rows [Hrows Hn]].
  { apply Forall_forall. intros i [_ Hi%range_bounds]%list_elem_of_filter.
    apply unpack_HHH_total. rewrite slice_length. unfold bytes_per_3axes. lia. }
  rewrite Hrows. simpl.
  assert (Hcount : length rows = Z.to_nat ((k + 5) `div` 6)).
  { rewrite Hn. rewrite <- (Z2Nat.id k) by lia. rewrite selected_indices_length.
    by rewrite Z2Nat.id by lia. }
  destruct rows as [|r rows].
  { exfalso. simpl in Hcount.
    assert (1 ≤ (k + 5) `div` 6) by (Z.div_mod_to_equations; lia). lia. }
  cbn [zip_star obind]. eexists _, _, _. split; [reflexivity|].
  unfold k, bytes_per_3axes in Hcount.
  rewrite !length_fmap. lia.
Qed.

Lemma xyzbytes2g_short (buf : list Z) :
  (length buf < 6)%nat → xyzbytes2g buf = Raise ValueError.
Proof.
  intros Hlen. unfold xyzbytes2g.
  rewrite Z.div_small by (unfold bytes_per_3axes; lia). reflexivity.
Qed.

(** C1.  A buffer of two samples (12 bytes) decodes to sequences of one
    element each: only the first sample comes out, where the property asks
    for sequences of length two.  The comprehension ranges over
    [range(len(buf) / 6)] and keeps the indices divisible by six, so of k
    samples it decodes the first ceil(k / 6). *)
Lemma xyzbytes2g_two_samples :
  xyzbytes2g [1; 0; 2; 0; 3; 0; 4; 0; 5; 0; 6; 0] = Ret ([1], [2], [3]).
Proof. reflexivity. Qed.

(** C6, as stated, fails: a buffer of seven bytes, which is not a multiple
    of six, is decoded without error. *)
Lemma xyzbytes2g_accepts_seven_bytes :
  (length [1; 2; 3; 4; 5; 6; 7] `mod` 6 ≠ 0)%nat
  ∧ xyzbytes2g [1; 2; 3; 4; 5; 6; 7] = Ret ([513], [1027], [1541]).
Proof. split; [by compute | reflexivity]. Qed.

(** C6, amended.  The decoder has no check of the length: every buffer of
    at least six bytes is decoded, whatever its length, and a non-empty
    buffer shorter than one sample fails, with the [ValueError] of the
    unpacking of an empty [zip]. *)
Theorem xyzbytes2g_no_length_check (buf : list Z) :
  ((6 ≤ length buf)%nat → ∃ r, xyzbytes2g buf = Ret r)
  ∧ ((0 < length buf < 6)%nat → xyzbytes2g buf = Raise ValueError).
Proof.
  split.
  - intros H. destruct (xyzbytes2g_total buf H) as (xs & ys & zs & Heq & _). eauto.
  - intros [_ H]. by apply xyzbytes2g_short.
Qed.

Lemma xyzbytes2g_no_length_check_witness :
  (∃ r, xyzbytes2g [1; 2; 3; 4; 5; 6; 7; 8] = Ret r)
  ∧ xyzbytes2g [1; 2; 3] = Raise ValueError.
Proof.
  split.
  - apply (xyzbytes2g_no_length_check [1; 2; 3; 4; 5; 6; 7; 8]). simpl. lia.
  - apply (xyzbytes2g_no_length_check [1; 2; 3]). simpl. lia.
Defined.

Lemma xyzbytes2g_one_sample (x0 x1 y0 y1 z0 z1 : Z) :
  xyzbytes2g [x0; x1; y0; y1; z0; z1]
  = Ret ([negative_values_rule (x0 + 256 * x1)],
         [negative_values_rule (y0 + 256 * y1)],
         [negative_values_rule (z0 + 256 * z1)]).
Proof. reflexivity. Qed.

Lemma negative_values_rule_encode (v : Z) :
  -32768 ≤ v ≤ 32767 →
  negative_values_rule
    ((v `mod` 65536) `mod` 256 + 256 * ((v `mod` 65536) `div` 256)) = v.
Proof.
  intros Hv. rewrite (Z.add_comm _ (256 * _)), <- Z.div_mod by lia.
  unfold negative_values_rule. case_bool_decide as Hw.
  - destruct (decide (0 ≤ v)) as [Hpos|Hneg].
    + apply Z.mod_small. lia.
    + exfalso. revert Hw. Z.div_mod_to_equations. lia.
  - destruct (decide (0 ≤ v)) as [Hpos|Hneg].
    + exfalso. rewrite Z.mod_small in Hw by lia. lia.
    + Z.div_mod_to_equations. lia.
Qed.

(** C8.  Two's-complement round trip: a sample whose three values are in
    the signed 16-bit range, each written as the two little-endian bytes
    of its value modulo 65536, decodes to these values.  In particular
    FF FF gives -1, 00 80 gives -32768, FF 7F gives 32767 and 00 00
    gives 0. *)
Theorem xyzbytes2g_round_trip :
  (∀ x y z : Z,
     -32768 ≤ x ≤ 32767 → -32768 ≤ y ≤ 32767 → -32768 ≤ z ≤ 32767 →
     xyzbytes2g (encode_le16 x ++ encode_le16 y ++ encode_le16 z)
     = Ret ([x], [y], [z]))
  ∧ xyzbytes2g [0xFF; 0xFF; 0x00; 0x80; 0xFF; 0x7F] = Ret ([-1], [-32768], [32767])
  ∧ xyzbytes2g [0x00; 0x00; 0x00; 0x00; 0x00; 0x00] = Ret ([0], [0], [0]).
Proof.
  split; [|split; reflexivity].
  intros x y z Hx Hy Hz. unfold encode_le16. cbn [app].
  rewrite xyzbytes2g_one_sample.
  by rewrite !negative_values_rule_encode.
Qed.

Lemma xyzbytes2g_round_trip_witness :
  xyzbytes2g (encode_le16 (-1) ++ encode_le16 (-32768) ++ encode_le16 32767)
  = Ret ([-1], [-32768], [32767]).
Proof. apply (proj1 xyzbytes2g_round_trip (-1) (-32768) 32767); lia. Defined.

(** ** Frame stripping *)

Lemma strip_one_frame (o : Z) (f rest : list Z) :
  o `mod` 7 = 0 → length f = 7%nat →
  (filter (λ ib : Z * Z, ib.1 `mod` (bytes_per_3axes + 1) ≠ 0)
     (enumerate_from o (f ++ rest))).*2
  = drop 1 f
    ++ (filter (λ ib : Z * Z, ib.1 `mod` (bytes_per_3axes + 1) ≠ 0)
          (enumerate_from (o + 7) rest)).*2.
Proof.
  intros Ho Hf. unfold bytes_per_3axes.
  do 8 (destruct f as [|? f]; try discriminate Hf).
  cbn [app enumerate_from drop].
  rewrite filter_cons_False by (cbn [fst]; intros H; by apply H).
  do 6 (rewrite filter_cons_True by (cbn [fst]; Z.div_mod_to_equations; lia)).
  rewrite !fmap_cons. cbn [snd].
  replace (o + 1 + 1 + 1 + 1 + 1 + 1 + 1) with (o + 7) by lia.
  reflexivity.
Qed.

Lemma strip_from_frames (o : Z) (frames : list (list Z)) :
  o `mod` 7 = 0 →
  Forall (λ f, length f = 7%nat) frames →
  (filter (λ ib : Z * Z, ib.1 `mod` (bytes_per_3axes + 1) ≠ 0)
     (enumerate_from o (concat frames))).*2
  = concat (drop 1 <$> frames).
Proof.
  intros Ho Hframes. revert o Ho.
  induction Hframes as [|f frames Hf _ IH]; intros o Ho.
  - reflexivity.
  - cbn [concat fmap list_fmap]. rewrite strip_one_frame by done.
    f_equal. apply IH. revert Ho. Z.div_mod_to_equations. lia.
Qed.

Lemma payload_length (frames : list (list Z)) :
  Forall (λ f, length f = 7%nat) frames →
  length (concat (drop 1 <$> frames)) = (6 * length frames)%nat.
Proof.
  induction 1 as [|f frames Hf _ IH]; [reflexivity|].
  cbn [concat fmap list_fmap]. rewrite length_app, length_drop, Hf.
  cbn [length]. change (list_fmap _ _ (drop 1) frames) with (drop 1 <$> frames).
  lia.
Qed.

(** C9.  Frame stripping: of a buffer made of m frames of seven bytes,
    [remove_first_bytes_from_bytearray_of_many_transactions] returns the
    last six bytes of every frame, in order: 6m bytes. *)
Theorem strip_frames (frames : list (list Z)) :
  Forall (λ f, length f = 7%nat) frames →
  remove_first_bytes_from_bytearray_of_many_transactions (concat frames)
  = concat (drop 1 <$> frames)
  ∧ length (remove_first_bytes_from_bytearray_of_many_transactions (concat frames))
    = (6 * length frames)%nat.
Proof.
  intros Hframes.
  assert (Heq : remove_first_bytes_from_bytearray_of_many_transactions (concat frames)
                = concat (drop 1 <$> frames)).
  { unfold remove_first_bytes_from_bytearray_of_many_transactions, enumerate.
    by apply strip_from_frames. }
  split; [exact Heq|]. rewrite Heq. by apply payload_length.
Qed.

Lemma strip_frames_witness :
  remove_first_bytes_from_bytearray_of_many_transactions
    (concat [[255; 1; 2; 3; 4; 5; 6]; [254; 11; 12; 13; 14; 15; 16]])
  = concat (drop 1 <$> [[255; 1; 2; 3; 4; 5; 6]; [254; 11; 12; 13; 14; 15; 16]])
  ∧ length (remove_first_bytes_from_bytearray_of_many_transactions
              (concat [[255; 1; 2; 3; 4; 5; 6]; [254; 11; 12; 13; 14; 15; 16]]))
    = (6 * 2)%nat.
Proof.
  apply (strip_frames [[255; 1; 2; 3; 4; 5; 6]; [254; 11; 12; 13; 14; 15; 16]]).
  repeat constructor.
Defined.

(** ** Settings *)

(** Symbolic execution of a method body: [run] unfolds the sequencing and
    the calls that only update the object, [case_xfer] splits on the next
    byte that the bus clocks. *)
Ltac run_core :=
  cbv beta iota zeta delta
    [bind ret raise spin lift emit setattr getattr on_chip print_ gc_collect
     cs_value ticks_us spi_write spi_readinto write read
     clear_isdataready get_nvalues_in_fifo config];
  cbn [chip trace power_mode g_range sampling_rate fifo_mode watermark_level
       with_power_mode with_sampling_rate with_fifo_mode with_watermark_level
       with_chip with_event
       fst snd replicate clock_bytes bus_writes omap list_omap last_write_to].
Tactic Notation "run_core" "in" hyp(H) :=
  cbv beta iota zeta delta
    [bind ret raise spin lift emit setattr getattr on_chip print_ gc_collect
     cs_value ticks_us spi_write spi_readinto write read
     clear_isdataready get_nvalues_in_fifo config] in H;
  cbn [chip trace power_mode g_range sampling_rate fifo_mode watermark_level
       with_power_mode with_sampling_rate with_fifo_mode with_watermark_level
       with_chip with_event
       fst snd replicate clock_bytes bus_writes omap list_omap last_write_to] in H.

(** A transfer of at least one byte clocks its bytes. *)
Lemma transfer_cons {W : World} (w : Z) (out : list Z) :
  transfer (W:=W) (w :: out) = on_chip (clock_bytes (w :: out)).
Proof. reflexivity. Qed.

Lemma transfer_replicate {W : World} (n : nat) (w : Z) :
  n ≠ 0%nat → transfer (W:=W) (replicate n w) = on_chip (clock_bytes (replicate n w)).
Proof. by destruct n. Qed.

(** A read of two bytes, as the status polls make it. *)
Lemma spi_read_2 {W : World} (w : Z) (s : ADXL345 W) :
  spi_read 2 w s =
  match xfer W w (chip s) with
  | None => (Raise OSError, with_chip (chip s) (with_event (SpiRead 2 w) s))
  | Some (b0, d1) =>
      match xfer W w d1 with
      | None => (Raise OSError, with_chip d1 (with_event (SpiRead 2 w) s))
      | Some (b1, d2) => (Ret [b0; b1], with_chip d2 (with_event (SpiRead 2 w) s))
      end
  end.
Proof.
  unfold spi_read. change (Z.to_nat 2) with 2%nat.
  rewrite transfer_replicate by done. run_core.
  destruct (xfer W w (chip s)) as [[b0 d1]|]; [|reflexivity].
  destruct (xfer W w d1) as [[b1 d2]|]; reflexivity.
Qed.

Lemma spi_read_1_1 {W : World} (w : Z) (s : ADXL345 W) :
  spi_read (1 + 1) w s =
  match xfer W w (chip s) with
  | None => (Raise OSError, with_chip (chip s) (with_event (SpiRead (1 + 1) w) s))
  | Some (b0, d1) =>
      match xfer W w d1 with
      | None => (Raise OSError, with_chip d1 (with_event (SpiRead (1 + 1) w) s))
      | Some (b1, d2) =>
          (Ret [b0; b1], with_chip d2 (with_event (SpiRead (1 + 1) w) s))
      end
  end.
Proof. apply (spi_read_2 w s). Qed.

Ltac run := run_core; rewrite ?spi_read_2, ?spi_read_1_1, ?transfer_cons; run_core.
Tactic Notation "run" "in" hyp(H) :=
  run_core in H; rewrite ?spi_read_2, ?spi_read_1_1, ?transfer_cons in H; run_core in H.

Ltac case_xfer :=
  match goal with
  | |- context [xfer ?W ?w ?d] =>
      let b := fresh "b" in let d' := fresh "d" in let E := fresh "Exfer" in
      destruct (xfer W w d) as [[b d']|] eqn:E
  | H : context [xfer ?W ?w ?d] |- _ =>
      lazymatch type of H with
      | xfer _ _ _ = _ => fail
      | _ =>
          let b := fresh "b" in let d' := fresh "d" in let E := fresh "Exfer" in
          destruct (xfer W w d) as [[b d']|] eqn:E
      end
  end.

(** C3.  A sampling rate that is not a key of [device_sampling_rates]
    (500, say) is rejected: the lookup raises ([KeyError] is the error of
    an invalid configuration value here) before [write] is called, so no
    bus transaction is issued, the chip is not touched and the tracked
    configuration stays as it was. *)
Theorem set_sampling_rate_rejects (W : World) (sr : Qc) (s : ADXL345 W) :
  device_sampling_rates !! sr = None →
  ∃ s', set_sampling_rate sr s = (Raise KeyError, s')
    ∧ bus_writes (trace s') = bus_writes (trace s)
    ∧ chip s' = chip s
    ∧ config s' = config s.
Proof.
  intros Hsr. exists (with_event Print s). split; [|done].
  unfold set_sampling_rate, bind, lift, getitem_dict, print_, emit, setattr.
  by rewrite Hsr.
Qed.

Lemma set_sampling_rate_rejects_witness :
  ∃ s', set_sampling_rate (Qc_of_Z 500) (configured (W:=tape) (Qc_of_Z 100) 2 [1; 2; 3])
        = (Raise KeyError, s')
    ∧ bus_writes (trace s') = []
    ∧ chip s' = [1; 2; 3]
    ∧ config s' = (None, Some 2, Some (Qc_of_Z 100), None, None).
Proof.
  apply (set_sampling_rate_rejects tape (Qc_of_Z 500)
           (configured (W:=tape) (Qc_of_Z 100) 2 [1; 2; 3])).
  vm_compute. reflexivity.
Defined.

(** [write] issues exactly one bus write, of the two bytes given, whether
    or not the bus then carries them. *)
Lemma write_bus_writes (W : World) (regaddr the_byte : Z) (s : ADXL345 W) :
  0 ≤ regaddr < 256 → 0 ≤ the_byte < 256 →
  bus_writes (trace (write regaddr the_byte s).2)
  = [regaddr; the_byte] :: bus_writes (trace s).
Proof.
  intros Ha Hb. unfold write, lift, bytearray_of.
  rewrite bool_decide_true by (repeat constructor; lia).
  run. case_xfer; [|reflexivity]. case_xfer; reflexivity.
Qed.

Lemma set_fifo_mode_bypass (W : World) (w : Z) (s : ADXL345 W) :
  set_fifo_mode "bypass" w s
  = write regaddr_fifoctl 0x00
      (with_event Print (with_watermark_level w (with_fifo_mode "bypass" s))).
Proof. reflexivity. Qed.

Lemma set_fifo_mode_stream (W : World) (w b : Z) (s : ADXL345 W) :
  stream_control_byte w = Ret b →
  set_fifo_mode "stream" w s
  = write regaddr_fifoctl b
      (with_event Print (with_watermark_level w (with_fifo_mode "stream" s))).
Proof.
  intros Hb. unfold set_fifo_mode.
  rewrite bool_decide_false by discriminate.
  unfold bind at 1 2 3 4 5, setattr, lift, print_, emit, ret. by rewrite Hb.
Qed.

Lemma stream_control_byte_encoding (w : Z) :
  0 ≤ w ≤ 31 → stream_control_byte w = Ret (Z.lor (Z.shiftl 4 5) w).
Proof.
  intros Hw. rewrite <- (Z2Nat.id w) by lia.
  assert (Hn : (Z.to_nat w < 32)%nat) by lia. revert Hn.
  generalize (Z.to_nat w). intros n Hn.
  do 32 (destruct n as [|n]; [vm_compute; reflexivity|]). lia.
Qed.

(** C7.  The FIFO control byte is the three bits [100] of stream mode
    followed by the five bits of the watermark level:
    [set_fifo_mode('stream', 16)] writes [0x90] to the FIFO control
    register, stream mode with a level w in 0..31 writes [0b100 << 5 | w],
    and [set_fifo_mode('bypass', w)] writes [0x00] whatever w is. *)
Theorem set_fifo_mode_control_byte (W : World) (s : ADXL345 W) :
  bus_writes (trace (set_fifo_mode "stream" 16 s).2)
  = [regaddr_fifoctl; 0x90] :: bus_writes (trace s)
  ∧ (∀ w : Z,
       bus_writes (trace (set_fifo_mode "bypass" w s).2)
       = [regaddr_fifoctl; 0x00] :: bus_writes (trace s))
  ∧ (∀ w : Z, 0 ≤ w ≤ 31 →
       bus_writes (trace (set_fifo_mode "stream" w s).2)
       = [regaddr_fifoctl; Z.lor (Z.shiftl 4 5) w] :: bus_writes (trace s)).
Proof.
  assert (Hstream : ∀ w : Z, 0 ≤ w ≤ 31 →
            bus_writes (trace (set_fifo_mode "stream" w s).2)
            = [regaddr_fifoctl; Z.lor (Z.shiftl 4 5) w] :: bus_writes (trace s)).
  { intros w Hw. rewrite (set_fifo_mode_stream W w _ s (stream_control_byte_encoding w Hw)).
    rewrite write_bus_writes; [reflexivity|by compute|].
    change (Z.shiftl 4 5) with 128. rewrite <- Z.add_nocarry_lor.
    - lia.
    - apply Z.bits_inj'. intros i Hi. rewrite Z.land_spec, Z.bits_0.
      destruct (decide (i < 5)).
      + change 128 with (Z.shiftl 1 7). rewrite Z.shiftl_spec_low by lia.
        reflexivity.
      + replace (Z.testbit w i) with false; [by rewrite andb_false_r|].
        symmetry. apply (Z.bits_above_log2 w i); [lia|].
        destruct (decide (w = 0)) as [->|]; [simpl; lia|].
        assert (Z.log2 w < 5) by (apply Z.log2_lt_pow2; lia). lia. }
  split; [exact (Hstream 16 ltac:(lia))|]. split; [|exact Hstream].
  intros w. rewrite set_fifo_mode_bypass.
  by rewrite write_bus_writes by (by compute).
Qed.

Lemma set_fifo_mode_control_byte_witness :
  bus_writes (trace (set_fifo_mode "stream" 31
                       (configured (W:=steady_chip 0) (Qc_of_Z 100) 2 steady_start)).2)
  = [[0x38; 0x9F]].
Proof.
  assert (H31 : 0 ≤ 31 ≤ 31) by lia.
  exact (proj2 (proj2 (set_fifo_mode_control_byte (steady_chip 0)
           (configured (W:=steady_chip 0) (Qc_of_Z 100) 2 steady_start))) 31 H31).
Defined.

(** ** Acquisition *)

Lemma getitem_0 {A} (x : A) (l : list A) : getitem (x :: l) 0 = Ret x.
Proof. reflexivity. Qed.

Lemma getitem_1 {A} (x y : A) (l : list A) : getitem (x :: y :: l) 1 = Ret y.
Proof. reflexivity. Qed.

Lemma setitem_in_range {A} (l : list A) (i : Z) (x : A) :
  0 ≤ i < Z.of_nat (length l) → setitem l i x = Ret (<[Z.to_nat i := x]> l).
Proof.
  intros Hi. unfold setitem.
  rewrite (bool_decide_false (i < 0)) by lia. by rewrite bool_decide_true.
Qed.

Lemma readinto_length {A} (buf bs : list A) (a b : Z) :
  length bs = length (slice buf a b) →
  length (take (Z.to_nat a) buf ++ bs ++ drop (Z.to_nat a + length (slice buf a b)) buf)
  = length buf.
Proof.
  intros Hbs. rewrite !length_app, length_take, length_drop, Hbs, slice_length. lia.
Qed.

Lemma int_times_1_5_ge (n : Z) : 0 ≤ n → n ≤ int_times_1_5 n.
Proof.
  intros Hn. unfold int_times_1_5. rewrite Z.quot_div_nonneg by lia.
  Z.div_mod_to_equations. lia.
Qed.

(** What stripping leaves of a buffer that holds at least [m] frames. *)
Lemma strip_length_from (m : nat) (o : Z) (buf : list Z) :
  o `mod` 7 = 0 → (7 * m ≤ length buf)%nat →
  let stripped := (filter (λ ib : Z * Z, ib.1 `mod` (bytes_per_3axes + 1) ≠ 0)
                     (enumerate_from o buf)).*2 in
  (6 * m ≤ length stripped)%nat
  ∧ (length buf = (7 * m)%nat → length stripped = (6 * m)%nat).
Proof.
  revert o buf. induction m as [|m IH]; intros o buf Ho Hlen; cbn zeta.
  - split; [lia|]. intros Hnil. by destruct buf.
  - rewrite <- (take_drop 7 buf).
    rewrite strip_one_frame by (rewrite ?length_take; lia).
    destruct (IH (o + 7) (drop 7 buf)) as [Hge Heq].
    { revert Ho. Z.div_mod_to_equations. lia. }
    { rewrite length_drop. lia. }
    cbn zeta in Hge, Heq.
    rewrite !length_app, !length_drop, length_take in *. split; [lia|].
    intros Hexact. rewrite Heq; lia.
Qed.

Lemma strip_length (m : nat) (buf : list Z) :
  (7 * m ≤ length buf)%nat →
  (6 * m ≤ length (remove_first_bytes_from_bytearray_of_many_transactions buf))%nat
  ∧ (length buf = (7 * m)%nat →
     length (remove_first_bytes_from_bytearray_of_many_transactions buf) = (6 * m)%nat).
Proof. intros H. by apply (strip_length_from m 0 buf). Qed.

Lemma frame_slice_length (buf : list Z) (k : Z) :
  0 ≤ k → 7 * (k + 1) ≤ Z.of_nat (length buf) →
  length (slice buf (k * (bytes_per_3axes + 1))
            (k * (bytes_per_3axes + 1) + (bytes_per_3axes + 1))) = 7%nat.
Proof. intros Hk Hlen. rewrite slice_length. unfold bytes_per_3axes. lia. Qed.

(** A fetch into a buffer that has room for the frame is a transfer of
    seven bytes. *)
Tactic Notation "whole_frame" "in" hyp(H) :=
  rewrite transfer_replicate in H by (rewrite frame_slice_length by lia; done).

(** After a case analysis, reduce what it has unblocked. *)
Tactic Notation "reduce" "in" hyp(H) :=
  cbv beta iota zeta in H;
  cbn [chip trace power_mode g_range sampling_rate fifo_mode watermark_level
       with_power_mode with_sampling_rate with_fifo_mode with_watermark_level
       with_chip with_event fst snd] in H.

(** One step of symbolic execution in a hypothesis: case analysis on an
    innermost scrutinee. *)
Ltac case_step H :=
  match type of H with
  | context [match ?x with _ => _ end] =>
      lazymatch x with
      | context [match _ with _ => _ end] => fail
      | _ => destruct x eqn:?
      end
  end.

Ltac case_clock :=
  match goal with
  | H : context [clock_bytes ?out ?d] |- _ =>
      lazymatch type of H with
      | clock_bytes _ _ = _ => fail
      | _ =>
          let bs := fresh "bs" in let e := fresh "e" in
          let d' := fresh "d" in let E := fresh "Eclock" in
          destruct (clock_bytes out d) as [[bs|e|] d'] eqn:E
      end
  end.

Ltac case_ticks :=
  match goal with
  | H : context [ticks ?W ?d] |- _ =>
      lazymatch type of H with
      | ticks _ _ = _ => fail
      | _ =>
          let t := fresh "t" in let d' := fresh "d" in let E := fresh "Eticks" in
          destruct (ticks W d) as [t d'] eqn:E
      end
  end.

Lemma clock_bytes_inv {W : World} (out : list Z) (d : dev W) r d' :
  clock_bytes out d = (r, d') →
  match r with
  | Ret bs => length bs = length out
  | Raise e => e = OSError
  | Spin => False
  end.
Proof.
  revert d r d'. induction out as [|w out IH]; intros d r d' H; cbn in H.
  - by simplify_eq.
  - case_xfer; [|by simplify_eq].
    destruct (clock_bytes out d0) as [[bs|e|] d2] eqn:E;
      specialize (IH _ _ _ E); simplify_eq; simpl; auto.
Qed.

(** A transfer leaves the object as it is, but for the chip; it brings in
    as many bytes as it sends, or fails with the bus, or is one of no bytes
    on a port that refuses these. *)
Lemma transfer_inv {W : World} (out : list Z) (s : ADXL345 W) r s' :
  transfer out s = (r, s') →
  trace s' = trace s ∧ config s' = config s
  ∧ match r with
    | Ret bs => length bs = length out
    | Raise e =>
        e = OSError ∨ e = ValueError ∧ out = [] ∧ empty_transfer_ok W = false
    | Spin => False
    end.
Proof.
  intros H. destruct out as [|w out].
  - cbn [transfer] in H. destruct (empty_transfer_ok W); run in H;
      injection H as <- <-; do 2 (split; [done|]); auto.
  - rewrite transfer_cons in H. unfold on_chip in H.
    destruct (clock_bytes (w :: out) (chip s)) as [r1 d1] eqn:Eclock.
    apply clock_bytes_inv in Eclock. injection H as <- <-.
    do 2 (split; [done|]). destruct r1; auto.
Qed.

Ltac case_transfer :=
  match goal with
  | H : context [transfer ?out ?s] |- _ =>
      lazymatch type of H with
      | transfer _ _ = _ => fail
      | _ =>
          let bs := fresh "bs" in let e := fresh "e" in let s' := fresh "s" in
          destruct (transfer out s) as [[bs|e|] s'] eqn:Etransfer;
          apply transfer_inv in Etransfer as (Htrace & Hconfig & Etransfer);
          cbn [trace with_event with_chip] in Htrace
      end
  end.

Section Acquisition.
Context {W : World}.
Implicit Types (s : ADXL345 W) (d : dev W) (buf T : list Z).

(** The polling loop keeps the sizes of its buffer and of its timestamp
    list, stops at the target count, and fails only with the bus. *)
Lemma polled_while_inv (fuel : nat) (n n_act : Z) buf T s r s' :
  polled_while fuel n (n_act, buf, T) s = (r, s') →
  n ≤ Z.of_nat (length T) → 0 ≤ n_act → 7 * n ≤ Z.of_nat (length buf) →
  match r with
  | Ret (n_act', buf', T') =>
      n_act' = Z.max n_act n ∧ length buf' = length buf ∧ length T' = length T
  | Raise e => e = OSError
  | Spin => True
  end.
Proof.
  revert n_act buf T s r s'.
  induction fuel as [|fuel IH]; intros n_act buf T s r s' H HT Hn Hbuf;
    cbn [polled_while] in H; case_bool_decide as Hlt.
  - run in H. by simplify_eq.
  - run in H. simplify_eq. split; [lia|done].
  - run in H. case_xfer; [|by simplify_eq]. run in H.
    case_xfer; [|by simplify_eq]. run in H.
    rewrite getitem_1 in H. run in H.
    case_bool_decide as Hready; [by eapply IH|].
    run in H. whole_frame in H. run in H.
    case_clock; run in H; apply clock_bytes_inv in Eclock;
      cbn beta iota in Eclock; [|by simplify_eq|done].
    rewrite length_replicate in Eclock. case_ticks. run in H.
    rewrite setitem_in_range in H by lia. run in H.
    apply IH in H; [|rewrite length_insert; lia|lia|by rewrite readinto_length].
    destruct r as [[[n_act' buf'] T']|e|]; [|done..].
    rewrite length_insert, readinto_length in H by done.
    destruct H as (-> & -> & ->). split; [lia|done].
  - run in H. simplify_eq. split; [lia|done].
Qed.

Lemma read_many_xyz_returns (fuel : nat) (n : Z) s buf T s' :
  0 ≤ n →
  read_many_xyz fuel n s = (Ret (buf, T), s') →
  length buf = Z.to_nat (6 * n) ∧ length T = Z.to_nat n.
Proof.
  intros Hn H. unfold read_many_xyz, bytearray_zeros in H.
  rewrite bool_decide_false in H by (unfold bytes_per_3axes; lia).
  run in H.
  repeat (case_step H; run in H; try (by simplify_eq)).
  match goal with
  | E : polled_while _ _ _ _ = _ |- _ =>
      apply polled_while_inv in E as (_ & Hbuf & HT);
        [|rewrite length_replicate; pose proof (int_times_1_5_ge n); lia|lia
         |rewrite length_replicate; unfold bytes_per_3axes; lia]
  end.
  rewrite length_replicate in Hbuf, HT. simplify_eq. split.
  - destruct (strip_length (Z.to_nat n) l0) as [_ Hexact];
      [unfold bytes_per_3axes in Hbuf; lia|].
    rewrite Hexact; [lia|]. unfold bytes_per_3axes in Hbuf. lia.
  - rewrite slice_length, HT. pose proof (int_times_1_5_ge n). lia.
Qed.

Lemma land_0x3f_bounds (b : Z) : 0 ≤ Z.land b 0x3f ≤ 63.
Proof.
  replace (Z.land b 0x3f) with (b `mod` 64).
  - pose proof (Z.mod_pos_bound b 64). lia.
  - symmetry. apply (Z.land_ones b 6). lia.
Qed.

Lemma get_nvalues_in_fifo_inv s r s' :
  get_nvalues_in_fifo s = (r, s') →
  match r with
  | Ret k => 0 ≤ k ≤ 63
  | Raise e => e = OSError
  | Spin => False
  end.
Proof.
  intros H. run in H.
  case_xfer; [|by simplify_eq]. run in H.
  case_xfer; [|by simplify_eq]. run in H.
  cbn [drop] in H. rewrite getitem_0 in H. run in H. simplify_eq.
  apply land_0x3f_bounds.
Qed.

(** The batch drain performs its [k] fetches, whatever the count was; it
    fails with the bus, or at a fetch past the end of the buffer on a port
    that refuses a transfer of no bytes. *)
Lemma fromfifo_for_inv (k : nat) (n_act : Z) buf s r s' :
  fromfifo_for k (n_act, buf) s = (r, s') →
  match r with
  | Ret (n_act', buf') => n_act' = n_act + Z.of_nat k ∧ length buf' = length buf
  | Raise e => e = OSError ∨ e = ValueError ∧ empty_transfer_ok W = false
  | Spin => False
  end.
Proof.
  revert n_act buf s r s'. induction k as [|k IH]; intros n_act buf s r s' H;
    cbn [fromfifo_for] in H.
  - run in H. simplify_eq. split; [lia|done].
  - run in H. case_transfer; run in H; [|simplify_eq; tauto|done].
    rewrite length_replicate in Etransfer.
    apply IH in H. destruct r as [[n_act' buf']|e'|]; [|done..].
    rewrite readinto_length in H by done. destruct H as [-> ->].
    split; [lia|done].
Qed.

Section Fifo_level.
(** [cap] bounds the level that a poll of the FIFO reports: 63 by the mask
    of [get_nvalues_in_fifo], 32 on a chip that keeps to its FIFO depth. *)
Context (cap : Z).
Context (Hcap : ∀ s k s', get_nvalues_in_fifo s = (Ret k, s') → k ≤ cap).

Lemma fromfifo_poll_inv (n_act : Z) buf s r s' :
  fromfifo_poll (n_act, buf) s = (r, s') →
  match r with
  | Ret (n_act', buf') =>
      n_act ≤ n_act' ≤ n_act + cap ∧ length buf' = length buf
  | Raise e => e = OSError ∨ e = ValueError ∧ empty_transfer_ok W = false
  | Spin => False
  end.
Proof.
  intros H. unfold fromfifo_poll, bind in H.
  destruct (get_nvalues_in_fifo s) as [[k|e|] s1] eqn:Epoll.
  - pose proof (get_nvalues_in_fifo_inv _ _ _ Epoll) as Hk. cbn beta iota in Hk.
    pose proof (Hcap _ _ _ Epoll) as Hk'.
    apply fromfifo_for_inv in H. destruct r as [[n_act' buf']|e|]; [|done..].
    destruct H as [-> ->]. split; [lia|done].
  - apply get_nvalues_in_fifo_inv in Epoll. simplify_eq. by left.
  - by apply get_nvalues_in_fifo_inv in Epoll.
Qed.

Lemma fromfifo_while_inv (fuel : nat) (n n_act : Z) buf s r s' :
  fromfifo_while fuel n (n_act, buf) s = (r, s') →
  match r with
  | Ret (n_act', buf') =>
      length buf' = length buf ∧ n_act ≤ n_act' ∧ n ≤ n_act'
      ∧ (n ≤ n_act → n_act' = n_act) ∧ (n_act < n → n_act' < n + cap)
  | Raise e => e = OSError ∨ e = ValueError ∧ empty_transfer_ok W = false
  | Spin => True
  end.
Proof.
  revert n_act buf s r s'.
  induction fuel as [|fuel IH]; intros n_act buf s r s' H;
    cbn [fromfifo_while fst] in H; case_bool_decide as Hlt.
  - run in H. by simplify_eq.
  - run in H. simplify_eq. repeat split; lia.
  - unfold bind in H.
    destruct (fromfifo_poll (n_act, buf) s) as [[[n_act1 buf1]|e|] s1] eqn:Epoll;
      apply fromfifo_poll_inv in Epoll.
    + apply IH in H. destruct r as [[n_act' buf']|e|]; [|done..].
      destruct Epoll as [Hn1 Hbuf1]. destruct H as (-> & Hge & Hn & Hstop & Hover).
      split; [done|]. repeat split; lia.
    + by simplify_eq.
    + done.
  - run in H. simplify_eq. repeat split; lia.
Qed.

End Fifo_level.

Lemma comprehension_length {A B} (f : A → outcome B) (l : list A) (ys : list B) :
  comprehension f l = Ret ys → length ys = length l.
Proof.
  revert ys. induction l as [|x l IH]; intros ys H; cbn in H.
  - by simplify_eq.
  - destruct (f x) as [y|e|]; cbn in H; [|done..].
    destruct (comprehension f l) as [ys'|e|]; cbn in H; [|done..].
    simplify_eq. cbn. f_equal. by apply IH.
Qed.

(** The settings that the acquisitions make have known values. *)
Lemma stream_is_not_bypass : bool_decide ("stream"%string = "bypass"%string) = false.
Proof. reflexivity. Qed.
Lemma bypass_is_bypass : bool_decide ("bypass"%string = "bypass"%string) = true.
Proof. reflexivity. Qed.
Lemma stream_control_byte_16 : stream_control_byte 16 = Ret 0x90.
Proof. reflexivity. Qed.
Lemma power_modes_measure : getitem_dict power_modes "measure"%string = Ret 0x08.
Proof. reflexivity. Qed.
Lemma power_modes_standby : getitem_dict power_modes "standby"%string = Ret 0x00.
Proof. reflexivity. Qed.
Lemma bytearray_of_bytes overflow (a b : Z) :
  0 ≤ a < 256 → 0 ≤ b < 256 → bytearray_of overflow [a; b] = Ret [a; b].
Proof.
  intros Ha Hb. unfold bytearray_of.
  rewrite bool_decide_true; [done|]. by repeat apply Forall_cons_2.
Qed.

Tactic Notation "run_settings" "in" hyp(H) :=
  unfold clear_fifo, set_fifo_mode, set_power_mode in H;
  rewrite ?stream_is_not_bypass, ?bypass_is_bypass, ?stream_control_byte_16,
    ?power_modes_measure, ?power_modes_standby in H;
  run in H;
  rewrite ?(bytearray_of_bytes _ regaddr_fifoctl 0x90),
    ?(bytearray_of_bytes _ regaddr_fifoctl 0x00),
    ?(bytearray_of_bytes _ regaddr_pwr 0x08),
    ?(bytearray_of_bytes _ regaddr_pwr 0x00) in H by (by compute);
  run in H.

Lemma int_times_1_5_frames (n : Z) :
  ¬ int_times_1_5 ((bytes_per_3axes + 1) * n) < 0 →
  0 ≤ n ∧ 7 * n ≤ int_times_1_5 ((bytes_per_3axes + 1) * n).
Proof.
  unfold int_times_1_5, bytes_per_3axes. intros H.
  Z.to_euclidean_division_equations. lia.
Qed.

(** Of a buffer with room for [n] frames, stripping and then cutting at
    [6n] leaves exactly [6n] bytes. *)
Lemma stripped_slice_length (n : Z) buf :
  0 ≤ n → 7 * n ≤ Z.of_nat (length buf) →
  length (slice (remove_first_bytes_from_bytearray_of_many_transactions buf)
            0 (n * bytes_per_3axes))
  = Z.to_nat (6 * n).
Proof.
  intros Hn Hlen. rewrite slice_length.
  destruct (strip_length (Z.to_nat n) buf) as [Hge _]; [lia|].
  unfold bytes_per_3axes. lia.
Qed.

Lemma read_continuos_xyz_fromfifo_returns (fuel : nat) (t : Qc) s buf
    (grid : list Qc) s' :
  read_continuos_xyz_fromfifo fuel t s = (Ret (buf, grid), s') →
  ∃ sr n, sampling_rate s = Some sr ∧ int_of_product W t sr = Some n
    ∧ 0 ≤ n
    ∧ length buf = Z.to_nat (6 * n)
    ∧ length grid = Z.to_nat n.
Proof.
  intros H. unfold read_continuos_xyz_fromfifo, bytearray_zeros, int_mul in H.
  run_settings in H.
  repeat (case_step H; reduce in H; try (by simplify_eq)).
  match goal with
  | Hneg : bool_decide (int_times_1_5 _ < 0) = false |- _ =>
      apply bool_decide_eq_false, int_times_1_5_frames in Hneg as [Hn Hframes]
  end.
  match goal with
  | E : fromfifo_while _ _ _ _ = _ |- _ =>
      apply (fromfifo_while_inv 63) in E as (Hlen & _)
  end.
  2:{ intros s0 k s1 Hk. apply get_nvalues_in_fifo_inv in Hk. cbn in Hk. lia. }
  match goal with
  | E : comprehension _ _ = Ret _ |- _ =>
      apply comprehension_length in E as Hgrid
  end.
  rewrite length_replicate in Hlen. rewrite range_length in Hgrid.
  simplify_eq. eexists _, _. split; [reflexivity|]. split; [eassumption|].
  split; [done|]. split; [|done]. apply stripped_slice_length; [done|lia].
Qed.

(** *** The power mode at the end of a fixed-duration acquisition *)

Lemma read_continuos_xyz_standby (fuel : nat) (t : Qc) s r s' :
  read_continuos_xyz fuel t s = (r, s') → after_loop r →
  power_mode s' = Some "standby"%string
  ∧ last_write_to regaddr_pwr (trace s') = Some 0x00.
Proof.
  intros H Hafter. unfold read_continuos_xyz, bytearray_zeros, int_mul in H.
  run_settings in H.
  repeat (case_step H; reduce in H; try (simplify_eq; by cbn in Hafter)).
  all: try (simplify_eq; split; reflexivity).
  match goal with
  | Hneg : bool_decide (int_times_1_5 _ < 0) = false |- _ =>
      apply bool_decide_eq_false, int_times_1_5_frames in Hneg as [Hn Hframes]
  end.
  match goal with
  | E : polled_while _ _ _ _ = (Raise _, _) |- _ =>
      apply polled_while_inv in E;
        [|rewrite length_replicate; pose proof (int_times_1_5_ge _ Hn); lia|lia
         |rewrite length_replicate; lia]
  end.
  simplify_eq. by cbn in Hafter.
Qed.

Lemma read_continuos_xyz_fromfifo_standby (fuel : nat) (t : Qc) s
    (r : outcome (list Z * list Qc)) s' :
  read_continuos_xyz_fromfifo fuel t s = (r, s') → after_loop r →
  power_mode s' = Some "standby"%string
  ∧ last_write_to regaddr_pwr (trace s') = Some 0x00.
Proof.
  intros H Hafter. unfold read_continuos_xyz_fromfifo, bytearray_zeros, int_mul in H.
  run_settings in H.
  repeat (case_step H; reduce in H; try (simplify_eq; by cbn in Hafter)).
  all: try (simplify_eq; split; reflexivity).
  match goal with
  | E : fromfifo_while _ _ _ _ = (Raise _, _) |- _ =>
      apply (fromfifo_while_inv 63) in E;
        [destruct E as [->|[-> _]]; simplify_eq; by cbn in Hafter|]
  end.
  intros s0 k s1 Hk. apply get_nvalues_in_fifo_inv in Hk. cbn in Hk. lia.
Qed.

(** *** The polls and the fetches of the FIFO-drain loop, in the trace *)

Lemma fetch_count_app (a b : list event) :
  fetch_count (a ++ b) = fetch_count a + fetch_count b.
Proof. induction a as [|[] a IH]; cbn [app fetch_count]; lia. Qed.

Lemma fetch_count_nonneg (tr : list event) : 0 ≤ fetch_count tr.
Proof. induction tr as [|[] tr IH]; cbn [fetch_count]; lia. Qed.

Lemma counts_at_polls_app (a b : list event) :
  counts_at_polls (a ++ b)
  = counts_at_polls b ++ ((λ c, c + fetch_count b) <$> counts_at_polls a).
Proof.
  induction a as [|e a IH]; cbn [app].
  - by rewrite app_nil_r.
  - destruct e; cbn [counts_at_polls]; try done.
    case_bool_decide; [|done].
    by rewrite IH, fmap_app, app_assoc, fetch_count_app.
Qed.

(** Events that are neither polls nor fetches do not count. *)
Lemma counts_at_polls_app_quiet (a b : list event) :
  counts_at_polls b = [] → fetch_count b = 0 →
  counts_at_polls (a ++ b) = counts_at_polls a.
Proof.
  intros Hb Hf. rewrite counts_at_polls_app, Hb, Hf. cbn [app].
  induction (counts_at_polls a) as [|c l IH]; [done|].
  cbn [fmap list_fmap]. f_equal; [lia|done].
Qed.

Lemma counts_at_polls_bounds (tr : list event) :
  Forall (λ c, 0 ≤ c ≤ fetch_count tr) (counts_at_polls tr).
Proof.
  induction tr as [|e tr IH]; [constructor|].
  assert (Hweak : ∀ m, fetch_count tr ≤ m →
            Forall (λ c, 0 ≤ c ≤ m) (counts_at_polls tr)).
  { intros m Hm. eapply Forall_impl; [exact IH|]. cbn beta. intros c Hc. lia. }
  pose proof (fetch_count_nonneg tr).
  destruct e; cbn [counts_at_polls fetch_count]; try (apply Hweak; lia).
  case_bool_decide; [|apply Hweak; lia].
  apply Forall_app. split; [apply Hweak; lia|]. apply Forall_singleton. lia.
Qed.

(** The accepted count never goes down from one poll to the next. *)
Lemma counts_at_polls_sorted (tr : list event) (i j : nat) (a b : Z) :
  (i ≤ j)%nat →
  counts_at_polls tr !! i = Some a → counts_at_polls tr !! j = Some b → a ≤ b.
Proof.
  revert i j a b. induction tr as [|e tr IH]; intros i j a b Hij Ha Hb; [done|].
  destruct e; cbn [counts_at_polls] in Ha, Hb; try (by eapply IH).
  case_bool_decide; [|by eapply IH].
  pose proof (counts_at_polls_bounds tr) as Hbounds.
  destruct (decide (j < length (counts_at_polls tr))%nat) as [Hj|Hj].
  - rewrite lookup_app_l in Ha, Hb by lia. exact (IH i j a b Hij Ha Hb).
  - rewrite lookup_app_r in Hb by lia.
    apply list_lookup_singleton_Some in Hb as [_ <-].
    destruct (decide (i < length (counts_at_polls tr))%nat) as [Hi|Hi].
    + rewrite lookup_app_l in Ha by lia.
      eapply Forall_lookup_1 in Hbounds; [|exact Ha]. cbn beta in Hbounds. lia.
    + rewrite lookup_app_r in Ha by lia.
      apply list_lookup_singleton_Some in Ha as [_ <-]. lia.
Qed.

(** What a call added to the trace, event by event. *)
Lemma since_nil (old : list event) (P : list event → Prop) :
  P [] → ∃ evs, old = evs ++ old ∧ P evs.
Proof. by exists []. Qed.
Lemma since_cons (e : event) (tr old : list event) (P : list event → Prop) :
  (∃ evs, tr = evs ++ old ∧ P (e :: evs)) → ∃ evs, e :: tr = evs ++ old ∧ P evs.
Proof. intros (evs & -> & HP). by exists (e :: evs). Qed.
Lemma since_app (evs0 tr old : list event) (P : list event → Prop) :
  (∃ evs, tr = evs ++ old ∧ P (evs0 ++ evs)) → ∃ evs, evs0 ++ tr = evs ++ old ∧ P evs.
Proof. intros (evs & -> & HP). exists (evs0 ++ evs). by rewrite app_assoc. Qed.

(** A poll of the FIFO level is one poll in the trace, whether or not the
    bus carries it. *)
Lemma get_nvalues_in_fifo_events s r s' :
  get_nvalues_in_fifo s = (r, s') →
  ∃ evs, trace s' = evs ++ trace s
    ∧ counts_at_polls evs = [0] ∧ fetch_count evs = 0.
Proof.
  intros H. run in H.
  case_xfer; [|injection H as <- <-; by eexists [_; _]]. run in H.
  case_xfer; [|injection H as <- <-; by eexists [_; _]]. run in H.
  cbn [drop] in H. rewrite getitem_0 in H. run in H.
  injection H as <- <-. by eexists [_; _; _].
Qed.

(** The batch drain makes its [k] fetches and no poll. *)
Lemma fromfifo_for_events (k : nat) (n_act : Z) buf s r s' :
  fromfifo_for k (n_act, buf) s = (r, s') →
  ∃ evs, trace s' = evs ++ trace s
    ∧ counts_at_polls evs = []
    ∧ 0 ≤ fetch_count evs ≤ Z.of_nat k
    ∧ (∀ st, r = Ret st → fetch_count evs = Z.of_nat k).
Proof.
  revert n_act buf s r s'. induction k as [|k IH]; intros n_act buf s r s' H;
    cbn [fromfifo_for] in H.
  - run in H. injection H as <- <-. exists []. by repeat split.
  - run in H. case_transfer; run in H.
    + apply IH in H as (evs & Htr & Hpolls & Hle & Hret).
      cbn [trace with_event with_chip] in Htr. rewrite Htrace in Htr.
      exists (evs ++ [CsValue 1;
                      SpiReadinto
                        (length (slice buf (n_act * (bytes_per_3axes + 1))
                                   (n_act * (bytes_per_3axes + 1) + (bytes_per_3axes + 1))))
                        (Z.lor (Z.lor regaddr_acc read_mask) multibyte_mask);
                      CsValue 0]).
      rewrite <- app_assoc. split; [exact Htr|].
      rewrite counts_at_polls_app, Hpolls, fetch_count_app.
      cbn [fetch_count]. split; [done|]. split; [lia|].
      intros st Hst. rewrite (Hret st Hst). lia.
    + injection H as <- <-. eexists [_; _]. split; [exact Htrace|].
      cbn [counts_at_polls fetch_count]. split; [done|]. split; [lia|done].
    + done.
Qed.

(** One iteration of the [while] loop of the FIFO-drain mode: one poll, at
    its head, and [n_act_meas] goes up by the number of fetches made. *)
Lemma fromfifo_poll_events (n_act : Z) buf s r s' :
  fromfifo_poll (n_act, buf) s = (r, s') →
  ∃ evs, trace s' = evs ++ trace s
    ∧ counts_at_polls evs = [0]
    ∧ (∀ n_act' buf', r = Ret (n_act', buf') → n_act' = n_act + fetch_count evs).
Proof.
  intros H. unfold fromfifo_poll, bind in H.
  destruct (get_nvalues_in_fifo s) as [[k|e|] s1] eqn:Epoll;
    pose proof (get_nvalues_in_fifo_inv _ _ _ Epoll) as Hk; cbn beta iota in Hk;
    apply get_nvalues_in_fifo_events in Epoll as (evs1 & Htr1 & Hpolls1 & Hf1).
  - pose proof (fromfifo_for_inv _ _ _ _ _ _ H) as Hfor.
    apply fromfifo_for_events in H as (evs2 & Htr2 & Hpolls2 & Hle2 & Hf2).
    exists (evs2 ++ evs1). split; [by rewrite Htr2, Htr1, <- app_assoc|]. split.
    + by rewrite counts_at_polls_app, Hpolls1, Hpolls2.
    + intros n_act' buf' ->. destruct Hfor as [-> _].
      rewrite fetch_count_app, (Hf2 _ eq_refl), Hf1. lia.
  - injection H as <- <-. exists evs1. by split.
  - done.
Qed.

(** The [while] loop of the FIFO-drain mode: it polls only while the
    accepted count is below the target, and the count it ends with is the
    number of fetches it has made. *)
Lemma fromfifo_while_events (fuel : nat) (n n_act : Z) buf s r s' :
  fromfifo_while fuel n (n_act, buf) s = (r, s') →
  ∃ evs, trace s' = evs ++ trace s
    ∧ Forall (λ c, n_act + c < n) (counts_at_polls evs)
    ∧ (∀ n_act' buf', r = Ret (n_act', buf') → n_act' = n_act + fetch_count evs).
Proof.
  revert n_act buf s r s'.
  induction fuel as [|fuel IH]; intros n_act buf s r s' H;
    cbn [fromfifo_while fst] in H; case_bool_decide as Hlt.
  1,2,4: run in H; injection H as <- <-; exists [];
    (split; [done|]); (split; [constructor|]);
    intros n_act' buf' Hr; try done; injection Hr as <- <-; cbn; lia.
  unfold bind at 1 in H. unfold fromfifo_poll, bind at 1 in H.
  destruct (get_nvalues_in_fifo s) as [[k|e|] s1] eqn:Epoll;
    pose proof (get_nvalues_in_fifo_inv _ _ _ Epoll) as Hk; cbn beta iota in Hk;
    apply get_nvalues_in_fifo_events in Epoll as (evs1 & Htr1 & Hpolls1 & Hf1).
  - destruct (fromfifo_for (Z.to_nat k) (n_act, buf) s1) as [[[n1 buf1]|e|] s2] eqn:Efor;
      pose proof (fromfifo_for_inv _ _ _ _ _ _ Efor) as Hfor; cbn beta iota in Hfor;
      apply fromfifo_for_events in Efor as (evs2 & Htr2 & Hpolls2 & Hle2 & Hf2).
    + destruct Hfor as [-> _]. specialize (Hf2 _ eq_refl).
      apply IH in H as (evs3 & Htr3 & Hpolls3 & Hret3).
      exists (evs3 ++ evs2 ++ evs1).
      split; [by rewrite Htr3, Htr2, Htr1, <- !app_assoc|]. split.
      * rewrite !counts_at_polls_app, Hpolls1, Hpolls2, fetch_count_app, Hf1, Hf2.
        cbn [fmap list_fmap app]. constructor; [lia|].
        apply Forall_fmap. eapply Forall_impl; [exact Hpolls3|].
        cbn. intros c Hc. lia.
      * intros n_act' buf' Hr. rewrite (Hret3 _ _ Hr), !fetch_count_app. lia.
    + injection H as <- <-. exists (evs2 ++ evs1).
      split; [by rewrite Htr2, Htr1, <- app_assoc|]. split; [|done].
      rewrite counts_at_polls_app, Hpolls1, Hpolls2. cbn [fmap list_fmap app].
      constructor; [lia|constructor].
    + done.
  - injection H as <- <-. exists evs1. split; [done|]. split; [|done].
    rewrite Hpolls1. constructor; [lia|constructor].
  - done.
Qed.

(** The whole call, in the trace: every poll of the FIFO level is made
    while the fetches so far are fewer than the target, and on return the
    fetches are at least the target; [cap] bounds the level that a poll
    reports. *)
Lemma read_continuos_xyz_fromfifo_events (cap : Z) (fuel : nat) (t : Qc) s
    (r : outcome (list Z * list Qc)) s' :
  (∀ s0 k s1, get_nvalues_in_fifo s0 = (Ret k, s1) → k ≤ cap) →
  read_continuos_xyz_fromfifo fuel t s = (r, s') →
  ∃ evs, trace s' = evs ++ trace s
    ∧ (∀ sr n, sampling_rate s = Some sr → int_of_product W t sr = Some n →
         Forall (λ c, c < n) (counts_at_polls evs))
    ∧ (∀ res, r = Ret res →
         ∃ sr n, sampling_rate s = Some sr ∧ int_of_product W t sr = Some n
           ∧ n ≤ fetch_count evs
           ∧ (fetch_count evs = 0 ∨ fetch_count evs < n + cap)).
Proof.
  intros Hcap H.
  unfold read_continuos_xyz_fromfifo, bytearray_zeros, int_mul in H.
  run_settings in H.
  repeat (case_step H; reduce in H).
  all: injection H as <- <-.
  all: cbn [trace with_event with_chip with_power_mode with_fifo_mode
            with_watermark_level].
  all: try match goal with
    | E : fromfifo_while _ _ _ _ = _ |- _ =>
        pose proof (fromfifo_while_inv cap Hcap _ _ _ _ _ _ _ E) as Hinv;
        cbn beta iota in Hinv;
        apply fromfifo_while_events in E as (evs0 & Htr & Hpolls & Hcount);
        cbn [trace with_event with_chip with_power_mode with_fifo_mode
               with_watermark_level] in Htr;
        rewrite Htr
    end.
  all: repeat first [apply since_nil | apply since_cons | apply since_app].
  all: cbn [counts_at_polls fetch_count];
    rewrite ?counts_at_polls_app_quiet, ?fetch_count_app by reflexivity;
    cbn [counts_at_polls fetch_count].
  all: split; [intros sr n Hsr Hn|intros res Hres]; simplify_eq.
  all: try (by constructor).
  all: try (eapply Forall_impl; [exact Hpolls|]; cbn beta; intros c Hc; lia).
  specialize (Hcount _ _ eq_refl). pose proof (fetch_count_nonneg evs0).
  eexists _, _. split; [reflexivity|]. split; [eassumption|]. lia.
Qed.

(** *** On a world that answers, the calls return *)

Section Responsive.
Context (wait : dev W → nat) (clock : dev W → Z).
Context (Hresp : responsive W wait clock).

Lemma clock_bytes_up (out : list Z) d :
  ∃ bs d', clock_bytes out d = (Ret bs, d')
    ∧ length bs = length out ∧ clock d ≤ clock d'.
Proof.
  revert d. induction out as [|w out IH]; intros d.
  - exists [], d. by cbn.
  - destruct (bus_up _ _ _ Hresp w d) as [[b d1] E1].
    destruct (IH d1) as (bs & d2 & E2 & Hlen & Hclock).
    exists (b :: bs), d2. cbn [clock_bytes]. rewrite E1, E2. cbn [length].
    pose proof (clock_xfer _ _ _ Hresp _ _ _ _ E1). split; [done|]. split; lia.
Qed.

Lemma ticks_us_total s :
  ∃ s', ticks_us s = (Ret (clock (chip s)), s')
    ∧ config s' = config s ∧ clock (chip s) < clock (chip s').
Proof.
  destruct (clock_ticks _ _ _ Hresp (chip s)) as [Hnow Hnext].
  destruct (ticks W (chip s)) as [t d'] eqn:Eticks. cbn [fst snd] in Hnow, Hnext.
  eexists. split; [|split].
  - run. rewrite Eticks. run. by rewrite Hnow.
  - reflexivity.
  - done.
Qed.

Lemma read_total (regaddr nbytes : Z) s :
  0 ≤ nbytes →
  ∃ value s', read regaddr nbytes s = (Ret value, s')
    ∧ config s' = config s ∧ clock (chip s) ≤ clock (chip s').
Proof.
  intros Hnbytes.
  destruct (clock_bytes_up
              (replicate (Z.to_nat (nbytes + 1))
                 (if bool_decide (nbytes > 1)
                  then Z.lor (Z.lor regaddr read_mask) multibyte_mask
                  else Z.lor regaddr read_mask))
              (cs_set W 0 (chip s))) as (bs & d' & Eclock & _ & Hclock).
  eexists _, _. split; [|split].
  - run. unfold spi_read. rewrite transfer_replicate by lia.
    run. rewrite Eclock. run. reflexivity.
  - reflexivity.
  - run_core.
    pose proof (clock_cs _ _ _ Hresp 0 (chip s)).
    pose proof (clock_cs _ _ _ Hresp 1 d'). lia.
Qed.

Lemma clear_isdataready_total s :
  ∃ s', clear_isdataready s = (Ret tt, s')
    ∧ config s' = config s ∧ clock (chip s) ≤ clock (chip s').
Proof.
  destruct (read_total regaddr_acc 6 s) as (value & s' & E & Hconfig & Hclock);
    [lia|].
  exists s'. unfold clear_isdataready, bind, ret. by rewrite E.
Qed.

(** One iteration of the polling loop: either the flag was clear and the
    next sample is closer, or a sample was accepted. *)
Lemma polled_while_step (n n_act : Z) buf T s :
  n_act < n → 0 ≤ n_act → n ≤ Z.of_nat (length T) →
  7 * n ≤ Z.of_nat (length buf) →
  ∃ n_act' buf' T' s2,
    (∀ fuel, polled_while (S fuel) n (n_act, buf, T) s
             = polled_while fuel n (n_act', buf', T') s2)
    ∧ config s2 = config s ∧ clock (chip s) ≤ clock (chip s2)
    ∧ length T' = length T ∧ length buf' = length buf
    ∧ ((n_act' = n_act ∧ (wait (chip s2) < wait (chip s))%nat)
       ∨ n_act' = n_act + 1).
Proof.
  intros Hlt Hn HT Hbuf.
  destruct (bus_up _ _ _ Hresp (Z.lor regaddr_intsource read_mask)
              (cs_set W 0 (chip s))) as [[b0 d1] E1].
  destruct (bus_up _ _ _ Hresp (Z.lor regaddr_intsource read_mask) d1)
    as [[b1 d2] E2].
  pose proof (clock_cs _ _ _ Hresp 0 (chip s)) as Hc0.
  pose proof (clock_xfer _ _ _ Hresp _ _ _ _ E1) as Hc1.
  pose proof (clock_xfer _ _ _ Hresp _ _ _ _ E2) as Hc2.
  pose proof (clock_cs _ _ _ Hresp 1 d2) as Hc3.
  destruct (decide (Z.land (Z.shiftr b1 7) 1 = 0)) as [Hidle|Hready].
  - eexists n_act, buf, T, _. split; [|split; [|split; [|split; [|split]]]].
    + intros fuel. cbn [polled_while]. rewrite bool_decide_true by done.
      run. rewrite E1. run. rewrite E2. run. rewrite getitem_1. run.
      rewrite bool_decide_true by done. reflexivity.
    + reflexivity.
    + run_core. lia.
    + done.
    + done.
    + left. split; [done|]. run_core.
      by apply (ready_soon _ _ _ Hresp _ _ _ _ _ E1 E2).
  - destruct (clock_bytes_up
                (replicate
                   (length (slice buf (n_act * (bytes_per_3axes + 1))
                              (n_act * (bytes_per_3axes + 1) + (bytes_per_3axes + 1))))
                   (Z.lor (Z.lor regaddr_acc read_mask) multibyte_mask))
                (cs_set W 0 (cs_set W 1 d2))) as (bs & d3 & E3 & Hbs & Hc5).
    pose proof (clock_cs _ _ _ Hresp 0 (cs_set W 1 d2)) as Hc4.
    pose proof (clock_cs _ _ _ Hresp 1 d3) as Hc6.
    destruct (clock_ticks _ _ _ Hresp (cs_set W 1 d3)) as [_ Hc7].
    destruct (ticks W (cs_set W 1 d3)) as [t d4] eqn:Eticks. cbn [snd] in Hc7.
    eexists (n_act + 1), _, _, _. split; [|split; [|split; [|split; [|split]]]].
    + intros fuel. cbn [polled_while]. rewrite bool_decide_true by done.
      run. rewrite E1. run. rewrite E2. run. rewrite getitem_1. run.
      rewrite bool_decide_false by done.
      run. rewrite transfer_replicate by (rewrite frame_slice_length by lia; done).
      run. rewrite E3. run. rewrite Eticks. run.
      rewrite setitem_in_range by lia. run. reflexivity.
    + reflexivity.
    + run_core. lia.
    + by rewrite length_insert.
    + rewrite length_replicate in Hbs. by rewrite readinto_length.
    + by right.
Qed.

Lemma polled_while_total (n : Z) (todo : nat) :
  ∀ n_act buf T s,
    Z.to_nat (n - n_act) = todo → 0 ≤ n_act → n ≤ Z.of_nat (length T) →
    7 * n ≤ Z.of_nat (length buf) →
    ∃ fuel st' s', polled_while fuel n (n_act, buf, T) s = (Ret st', s')
      ∧ config s' = config s ∧ clock (chip s) ≤ clock (chip s').
Proof.
  induction todo as [todo IHtodo] using lt_wf_ind. intros n_act buf T s.
  remember (wait (chip s)) as w eqn:Hw. revert buf T s Hw.
  induction w as [w IHw] using lt_wf_ind. intros buf T s Hw Htodo Hn HT Hbuf.
  destruct (decide (n_act < n)) as [Hlt|Hge].
  - destruct (polled_while_step n n_act buf T s Hlt Hn HT Hbuf)
      as (n_act' & buf' & T' & s2 & Hstep & Hconfig & Hclock & HT' & Hbuf' & Hcase).
    destruct Hcase as [[-> Hwait]| ->].
    + destruct (IHw (wait (chip s2)) ltac:(lia) buf' T' s2 eq_refl Htodo Hn
                  ltac:(lia) ltac:(lia))
        as (fuel & st' & s' & Hrun & Hconfig' & Hclock').
      exists (S fuel), st', s'. rewrite Hstep. split; [done|].
      split; [congruence|lia].
    + destruct (IHtodo (Z.to_nat (n - (n_act + 1))) ltac:(lia)
                  (n_act + 1) buf' T' s2 eq_refl ltac:(lia) ltac:(lia) ltac:(lia))
        as (fuel & st' & s' & Hrun & Hconfig' & Hclock').
      exists (S fuel), st', s'. rewrite Hstep. split; [done|].
      split; [congruence|lia].
  - exists 0%nat, (n_act, buf, T), s. cbn [polled_while].
    rewrite bool_decide_false by done. split; [done|]. split; [done|lia].
Qed.

Lemma seconds_nonzero (us : Z) : us ≠ 0 → seconds us ≠ 0%Qc.
Proof.
  intros Hus Hzero. apply Hus. apply Z2Qc_inj. rewrite Z2Qc_inj_0.
  unfold seconds in Hzero.
  rewrite <- (Qcmult_div_r (Qc_of_Z us) (Qc_of_Z 1000000)) by done.
  rewrite Hzero. apply Qcmult_0_r.
Qed.

Lemma read_many_xyz_total (n : Z) (sr : Qc) s :
  0 ≤ n → sampling_rate s = Some sr → sr ≠ 0%Qc →
  ∃ fuel buf T s', read_many_xyz fuel n s = (Ret (buf, T), s').
Proof.
  intros Hn Hsr Hsr0.
  destruct (clear_isdataready_total s) as (s1 & E1 & Hconfig1 & Hclock1).
  destruct (ticks_us_total s1) as (s2 & E2 & Hconfig2 & Hclock2).
  destruct (polled_while_total n _ 0 (replicate (Z.to_nat ((bytes_per_3axes + 1) * n)) 0)
              (replicate (Z.to_nat (int_times_1_5 n)) 0) s2 eq_refl)
    as (fuel & [[n_act buf] T] & s3 & E3 & Hconfig3 & Hclock3); [lia| | |].
  { rewrite length_replicate. pose proof (int_times_1_5_ge n). lia. }
  { rewrite length_replicate. unfold bytes_per_3axes. lia. }
  destruct (ticks_us_total s3) as (s4 & E4 & Hconfig4 & Hclock4).
  assert (Hsr4 : sampling_rate s4 = Some sr).
  { assert (config s4 = config s) as Hc by congruence.
    unfold config in Hc. injection Hc as _ _ Hc _ _. congruence. }
  exists fuel. eexists _, _, _. unfold read_many_xyz, bytearray_zeros.
  rewrite bool_decide_false by (unfold bytes_per_3axes; lia).
  cbv beta iota zeta delta [bind lift]. rewrite E1, E2, E3, E4.
  cbv beta iota zeta delta [getattr]. rewrite Hsr4.
  unfold truediv. rewrite bool_decide_false by done.
  rewrite bool_decide_false by (apply seconds_nonzero; lia).
  cbv beta iota zeta delta [print_ emit setattr ret]. reflexivity.
Qed.

Lemma one_is_not_more_than_one : bool_decide (1 > 1) = false.
Proof. reflexivity. Qed.

Lemma get_nvalues_in_fifo_total s :
  ∃ k s1, get_nvalues_in_fifo s = (Ret k, s1)
    ∧ 0 ≤ k ∧ clock (chip s) ≤ clock (chip s1)
    ∧ (k = 0 → (wait (chip s1) < wait (chip s))%nat).
Proof.
  destruct (bus_up _ _ _ Hresp (Z.lor regaddr_fifostatus read_mask)
              (cs_set W 0 (chip s))) as [[b0 d1] E1].
  destruct (bus_up _ _ _ Hresp (Z.lor regaddr_fifostatus read_mask) d1)
    as [[b1 d2] E2].
  pose proof (clock_cs _ _ _ Hresp 0 (chip s)) as Hc0.
  pose proof (clock_xfer _ _ _ Hresp _ _ _ _ E1) as Hc1.
  pose proof (clock_xfer _ _ _ Hresp _ _ _ _ E2) as Hc2.
  pose proof (clock_cs _ _ _ Hresp 1 d2) as Hc3.
  eexists (Z.land b1 0x3f), _. split; [|split; [|split]].
  - run_core. rewrite one_is_not_more_than_one, spi_read_1_1. run_core.
    rewrite E1. run_core. rewrite E2. run_core.
    cbn [drop]. rewrite getitem_0. reflexivity.
  - apply land_0x3f_bounds.
  - run_core. lia.
  - intros Hzero. run_core.
    by apply (fifo_soon _ _ _ Hresp _ _ _ _ _ E1 E2).
Qed.

(** On a port that accepts a transfer of no bytes, every transfer goes
    through. *)
Lemma transfer_total (out : list Z) s :
  empty_transfer_ok W = true →
  ∃ bs s', transfer out s = (Ret bs, s')
    ∧ clock (chip s) ≤ clock (chip s').
Proof.
  intros Hempty. destruct out as [|w out].
  - exists [], s. cbn [transfer]. by rewrite Hempty.
  - destruct (clock_bytes_up (w :: out) (chip s)) as (bs & d1 & E1 & _ & Hc1).
    eexists _, _. rewrite transfer_cons. unfold on_chip. rewrite E1.
    split; [reflexivity|done].
Qed.

Lemma fromfifo_for_total (k : nat) :
  empty_transfer_ok W = true →
  ∀ n_act buf s,
    ∃ buf' s', fromfifo_for k (n_act, buf) s = (Ret (n_act + Z.of_nat k, buf'), s')
      ∧ clock (chip s) ≤ clock (chip s').
Proof.
  intros Hempty. induction k as [|k IH]; intros n_act buf s.
  - exists buf, s. cbn [fromfifo_for]. rewrite Z.add_0_r. done.
  - pose proof (clock_cs _ _ _ Hresp 0 (chip s)) as Hc0.
    cbn [fromfifo_for]. run_core.
    match goal with
    | |- context [transfer ?out ?s1] =>
        destruct (transfer_total out s1 Hempty) as (bs & s2 & E1 & Hc1)
    end.
    rewrite E1. run_core. run_core in Hc1.
    pose proof (clock_cs _ _ _ Hresp 1 (chip s2)) as Hc2.
    match goal with
    | |- context [fromfifo_for k (?n1, ?buf1) ?s1] =>
        destruct (IH n1 buf1 s1) as (buf' & s' & E & Hc)
    end.
    exists buf', s'. rewrite E. run_core in Hc.
    split; [f_equal; f_equal; f_equal; lia|lia].
Qed.

Lemma fromfifo_poll_total (n_act : Z) buf s :
  empty_transfer_ok W = true →
  ∃ k buf' s', fromfifo_poll (n_act, buf) s = (Ret (n_act + k, buf'), s')
    ∧ 0 ≤ k ∧ clock (chip s) ≤ clock (chip s')
    ∧ (k = 0 → (wait (chip s') < wait (chip s))%nat).
Proof.
  intros Hempty.
  destruct (get_nvalues_in_fifo_total s) as (k & s1 & E1 & Hk & Hc1 & Hwait).
  unfold fromfifo_poll, bind. rewrite E1.
  destruct (decide (k = 0)) as [->|Hpos].
  - exists 0, buf, s1. cbn [Z.to_nat fromfifo_for]. rewrite Z.add_0_r.
    split; [done|]. split; [done|]. split; [done|]. intros _. by apply Hwait.
  - destruct (fromfifo_for_total (Z.to_nat k) Hempty n_act buf s1)
      as (buf' & s' & E2 & Hc2).
    exists k, buf', s'. rewrite E2. rewrite Z2Nat.id by done.
    split; [done|]. split; [done|]. split; [lia|done].
Qed.

Lemma fromfifo_while_total (n : Z) (todo : nat) :
  empty_transfer_ok W = true →
  ∀ n_act buf s,
    Z.to_nat (n - n_act) = todo →
    ∃ fuel st' s', fromfifo_while fuel n (n_act, buf) s = (Ret st', s')
      ∧ clock (chip s) ≤ clock (chip s').
Proof.
  intros Hempty. revert todo.
  induction todo as [todo IHtodo] using lt_wf_ind. intros n_act buf s.
  remember (wait (chip s)) as w eqn:Hw. revert buf s Hw.
  induction w as [w IHw] using lt_wf_ind. intros buf s Hw Htodo.
  destruct (decide (n_act < n)) as [Hlt|Hge].
  - destruct (fromfifo_poll_total n_act buf s Hempty)
      as (k & buf' & s1 & Epoll & Hk & Hclock & Hwait).
    destruct (decide (k = 0)) as [->|Hpos].
    + rewrite Z.add_0_r in Epoll.
      destruct (IHw (wait (chip s1)) ltac:(lia) buf' s1 eq_refl Htodo)
        as (fuel & st' & s' & Hrun & Hclock').
      exists (S fuel), st', s'. cbn [fromfifo_while fst].
      rewrite bool_decide_true by done. unfold bind. rewrite Epoll.
      split; [done|lia].
    + destruct (IHtodo (Z.to_nat (n - (n_act + k))) ltac:(lia)
                  (n_act + k) buf' s1 eq_refl)
        as (fuel & st' & s' & Hrun & Hclock').
      exists (S fuel), st', s'. cbn [fromfifo_while fst].
      rewrite bool_decide_true by done. unfold bind. rewrite Epoll.
      split; [done|lia].
  - exists 0%nat, (n_act, buf), s. cbn [fromfifo_while fst].
    rewrite bool_decide_false by done. split; [done|lia].
Qed.

Lemma write_total (regaddr the_byte : Z) s :
  0 ≤ regaddr < 256 → 0 ≤ the_byte < 256 →
  ∃ s', write regaddr the_byte s = (Ret tt, s')
    ∧ config s' = config s ∧ clock (chip s) ≤ clock (chip s').
Proof.
  intros Ha Hb.
  destruct (clock_bytes_up [regaddr; the_byte] (cs_set W 0 (chip s)))
    as (bs & d1 & E1 & _ & Hc1).
  pose proof (clock_cs _ _ _ Hresp 0 (chip s)) as Hc0.
  pose proof (clock_cs _ _ _ Hresp 1 d1) as Hc2.
  eexists. split; [|split].
  - unfold write. rewrite bytearray_of_bytes by done.
    cbv beta iota zeta delta [bind lift cs_value emit setattr spi_write ret].
    rewrite transfer_cons.
    cbv beta iota zeta delta [on_chip].
    cbn [chip with_chip with_event]. rewrite E1. reflexivity.
  - reflexivity.
  - run_core. lia.
Qed.

Lemma set_power_mode_total (mode : string) (v : Z) s :
  power_modes !! mode = Some v → 0 ≤ v < 256 →
  ∃ s', set_power_mode mode s = (Ret tt, s')
    ∧ clock (chip s) ≤ clock (chip s').
Proof.
  intros Hmode Hv.
  destruct (write_total regaddr_pwr v (with_event Print s)) as (s1 & E & _ & Hc);
    [by compute|done|].
  eexists. split.
  - unfold set_power_mode, getitem_dict. rewrite Hmode.
    cbv beta iota zeta delta [bind lift print_ emit setattr]. rewrite E. reflexivity.
  - done.
Qed.

Lemma set_fifo_mode_total (mode : string) s :
  ∃ s', set_fifo_mode mode 16 s = (Ret tt, s')
    ∧ clock (chip s) ≤ clock (chip s').
Proof.
  unfold set_fifo_mode. case_bool_decide as Hmode.
  - destruct (write_total regaddr_fifoctl 0x00
                (with_event Print (with_watermark_level 16 (with_fifo_mode mode s))))
      as (s1 & E & _ & Hc); [by compute..|].
    exists s1. split; [|done].
    cbv beta iota zeta delta [bind lift print_ emit setattr ret]. by rewrite E.
  - destruct (write_total regaddr_fifoctl 0x90
                (with_event Print (with_watermark_level 16 (with_fifo_mode mode s))))
      as (s1 & E & _ & Hc); [by compute..|].
    exists s1. split; [|done]. rewrite stream_control_byte_16.
    cbv beta iota zeta delta [bind lift print_ emit setattr ret]. by rewrite E.
Qed.

Lemma clear_fifo_total s :
  ∃ s', clear_fifo s = (Ret tt, s') ∧ clock (chip s) ≤ clock (chip s').
Proof.
  destruct (set_fifo_mode_total "bypass" s) as (s1 & E1 & Hc1).
  destruct (set_fifo_mode_total "stream" s1) as (s2 & E2 & Hc2).
  exists s2. unfold clear_fifo, bind. rewrite E1, E2. split; [done|lia].
Qed.

Lemma read_continuos_xyz_fromfifo_total (t sr : Qc) (grange n : Z) s :
  empty_transfer_ok W = true →
  sampling_rate s = Some sr → g_range s = Some grange →
  int_of_product W t sr = Some n → 0 ≤ n → sr ≠ 0%Qc →
  ∃ fuel buf grid s',
    read_continuos_xyz_fromfifo fuel t s = (Ret (buf, grid), s').
Proof.
  intros Hempty Hsr Hgr Hprod Hn Hsr0.
  destruct (set_fifo_mode_total "stream" (with_event Print s)) as (s1 & E1 & Hc1).
  destruct (set_power_mode_total "measure" 0x08 (with_event GcCollect s1))
    as (s2 & E2 & Hc2); [done|lia|].
  destruct (clear_fifo_total s2) as (s3 & E3 & Hc3).
  destruct (ticks_us_total s3) as (s4 & E4 & _ & Hc4).
  destruct (fromfifo_while_total n _ Hempty 0
              (replicate (Z.to_nat (int_times_1_5 ((bytes_per_3axes + 1) * n))) 0)
              s4 eq_refl)
    as (fuel & [n_act buf] & s5 & E5 & Hc5).
  destruct (ticks_us_total s5) as (s6 & E6 & _ & Hc6).
  destruct (set_power_mode_total "standby" 0x00 s6) as (s7 & E7 & Hc7); [done|lia|].
  destruct (comprehension_total (λ i, int_truediv (W:=W) i sr) (range n))
    as (grid & Egrid & _).
  { apply Forall_forall. intros i Hi%range_bounds.
    unfold int_truediv. rewrite bool_decide_false; [by eexists|done]. }
  exists fuel. eexists _, grid, _.
  unfold read_continuos_xyz_fromfifo, int_mul.
  cbv beta iota zeta delta [bind lift getattr print_ gc_collect emit setattr].
  rewrite Hsr. cbv beta iota zeta. rewrite Hgr. cbv beta iota zeta.
  rewrite Hprod. cbv beta iota zeta.
  unfold bytearray_zeros. rewrite bool_decide_false.
  2:{ unfold int_times_1_5, bytes_per_3axes.
      Z.to_euclidean_division_equations. lia. }
  rewrite E1. cbv beta iota zeta. rewrite E2. cbv beta iota zeta.
  rewrite E3. cbv beta iota zeta. rewrite E4. cbv beta iota zeta.
  rewrite E5. cbv beta iota zeta. rewrite E6. cbv beta iota zeta.
  rewrite E7. cbv beta iota zeta. rewrite Egrid. cbv beta iota zeta.
  unfold truediv. rewrite bool_decide_false by (apply seconds_nonzero; lia).
  reflexivity.
Qed.

End Responsive.
End Acquisition.

(** The chip that always has data answers, as long as the level that its
    FIFO shows is not zero. *)
Lemma steady_responsive (level : Z) :
  Z.land level 0x3f ≠ 0 →
  responsive (steady_chip level) (λ _, 0%nat) steady_clock.
Proof.
  intros Hlevel. split.
  - intros w d. by eexists.
  - intros d b0 d1 b1 d2 E1 E2 Hclear. cbn in E1, E2. by simplify_eq.
  - intros d b0 d1 b1 d2 E1 E2 Hzero. cbn in E1, E2.
    simplify_eq; exfalso; apply Hlevel; exact Hzero.
  - intros d. cbn. split; [done|lia].
  - intros w d b d' E. cbn in E. simplify_eq. cbn. lia.
  - intros v d. cbn. lia.
Qed.

(** C5.  Single-burst polled mode: for every n >= 0, whenever
    [read_many_xyz(n)] returns, the stripped sample buffer has exactly 6n
    bytes and the timestamp list exactly n entries, whatever the 1.5 times
    over-allocation of the timestamps; and it does return on a world that
    answers, once the sampling rate has been set. *)
Theorem read_many_xyz_lengths (W : World) (n : Z) :
  0 ≤ n →
  (∀ (fuel : nat) (s : ADXL345 W) buf T s',
     read_many_xyz fuel n s = (Ret (buf, T), s') →
     length buf = Z.to_nat (6 * n) ∧ length T = Z.to_nat n)
  ∧ (∀ wait clock (sr : Qc) (s : ADXL345 W),
       responsive W wait clock → sampling_rate s = Some sr → sr ≠ 0%Qc →
       ∃ fuel buf T s', read_many_xyz fuel n s = (Ret (buf, T), s')).
Proof.
  intros Hn. split.
  - intros fuel s buf T s' H. by eapply read_many_xyz_returns.
  - intros wait clock sr s Hresp Hsr Hsr0.
    by eapply read_many_xyz_total.
Qed.

Lemma read_many_xyz_lengths_witness :
  (∃ buf T s',
     read_many_xyz 3 3 (configured (W:=steady_chip 32) (Qc_of_Z 100) 2 steady_start)
     = (Ret (buf, T), s')
     ∧ length buf = 18%nat ∧ length T = 3%nat)
  ∧ (∃ fuel buf T s',
       read_many_xyz fuel 3
         (configured (W:=steady_chip 32) (Qc_of_Z 100) 2 steady_start)
       = (Ret (buf, T), s')).
Proof.
  assert (H3 : 0 ≤ 3) by lia. split.
  - eexists _, _, _. split; [vm_compute; reflexivity|].
    eapply (proj1 (read_many_xyz_lengths (steady_chip 32) 3 H3) 3%nat
              (configured (W:=steady_chip 32) (Qc_of_Z 100) 2 steady_start)).
    vm_compute. reflexivity.
  - apply (proj2 (read_many_xyz_lengths (steady_chip 32) 3 H3)
             (λ _, 0%nat) steady_clock (Qc_of_Z 100)).
    + apply steady_responsive. by vm_compute.
    + reflexivity.
    + by vm_compute.
Defined.

(** ** Fixed-duration FIFO-drain mode *)

(** The chip that always has data shows the level it was made with. *)
Lemma steady_fifo_level (level : Z) (s : ADXL345 (steady_chip level)) k s' :
  0 ≤ level ≤ 63 →
  get_nvalues_in_fifo s = (Ret k, s') → k = level.
Proof.
  intros Hlevel H. run in H. cbn in H. rewrite getitem_0 in H. simplify_eq.
  match goal with |- Z.land ?x _ = _ => change x with level end.
  pose proof (Z.land_ones level 6) as Hmask. change (Z.ones 6) with 63 in Hmask.
  rewrite Hmask by lia. apply Z.mod_small. change (2 ^ 6) with 64. lia.
Qed.

Lemma mask_is_a_cap {W : World} (s : ADXL345 W) k s' :
  get_nvalues_in_fifo s = (Ret k, s') → k ≤ 63.
Proof. intros Hk. apply get_nvalues_in_fifo_inv in Hk. cbn in Hk. lia. Qed.



(** The target is not the floor of duration times rate.  With doubles, a
    duration of 0.29 s at 100 Hz gives a target of 28: the call returns
    after 28 fetches, one short of the floor of the product, 29.  And for
    the duration that is the double nearest to 0.03 s, the floor of the
    product is 2 while the target is 3: the loop polls again with two
    samples accepted. *)
Lemma fromfifo_target_is_not_the_floor :
  (∃ res s',
     read_continuos_xyz_fromfifo 28 (Q2Qc (29 # 100))
       (configured (W:=steady_chip 1) (Qc_of_Z 100) 2 steady_start) = (Ret res, s')
     ∧ fetch_count (trace s') = 28
     ∧ Qfloor (Q2Qc (29 # 100) * Qc_of_Z 100)%Qc = 29)
  ∧ (∃ res s',
       read_continuos_xyz_fromfifo 3 (float_of 53 (Q2Qc (3 # 100)))
         (configured (W:=steady_chip 1) (Qc_of_Z 100) 2 steady_start) = (Ret res, s')
       ∧ counts_at_polls (trace s') = [0; 1; 2]
       ∧ Qfloor (float_of 53 (Q2Qc (3 # 100)) * Qc_of_Z 100)%Qc = 2).
Proof.
  split; eexists _, _; (split; [vm_compute; reflexivity|]);
    split; vm_compute; reflexivity.
Qed.



(** The overshoot is not bounded by 31 as far as the driver goes, and the
    sizes are not those of the floor of duration times rate.  A poll that
    reads a level of 63 is followed by 63 fetches: with a target of one the
    count ends 62 above it.  And with doubles, 0.29 s at 100 Hz returns 168
    bytes and 28 grid entries, where the floor of the product, 29, would
    give 174 and 29. *)
Lemma fromfifo_overshoot_and_sizes :
  (∃ res s',
     read_continuos_xyz_fromfifo 1 (Q2Qc (1 # 100))
       (configured (W:=steady_chip 63) (Qc_of_Z 100) 2 steady_start) = (Ret res, s')
     ∧ fetch_count (trace s') = 1 + 62)
  ∧ (∃ buf grid s',
       read_continuos_xyz_fromfifo 1 (Q2Qc (29 # 100))
         (configured (W:=steady_chip 32) (Qc_of_Z 100) 2 steady_start)
       = (Ret (buf, grid), s')
       ∧ length buf = 168%nat ∧ length grid = 28%nat
       ∧ Qfloor (Q2Qc (29 # 100) * Qc_of_Z 100)%Qc = 29).
Proof.
  split.
  - eexists _, _. split; vm_compute; reflexivity.
  - eexists _, _, _. split; [vm_compute; reflexivity|].
    split; [|split]; vm_compute; reflexivity.
Qed.

(** ** The power mode after a fixed-duration acquisition *)

(** C2, as stated, fails: when the bus raises inside the acquisition loop
    (here the first status poll, on a bus that carries the four bytes of
    the two set-up writes and then fails), the exception leaves both
    fixed-duration acquisitions with the power mode at "measure", the last
    write to the power register being [0x08]. *)
Lemma bus_error_leaves_measure_mode :
  (∃ s', read_continuos_xyz 5 (Q2Qc (3 # 100))
           (configured (W:=tape) (Qc_of_Z 100) 2 [0; 0; 0; 0])
         = (Raise OSError, s')
     ∧ power_mode s' = Some "measure"%string
     ∧ last_write_to regaddr_pwr (trace s') = Some 0x08)
  ∧ (∃ s', read_continuos_xyz_fromfifo 5 (Q2Qc (3 # 100))
             (configured (W:=tape) (Qc_of_Z 100) 2 [0; 0; 0; 0; 0; 0; 0; 0])
           = (Raise OSError, s')
       ∧ power_mode s' = Some "measure"%string
       ∧ last_write_to regaddr_pwr (trace s') = Some 0x08).
Proof.
  split; eexists; (split; [vm_compute; reflexivity|]); split; reflexivity.
Qed.

(** C2, amended.  Both fixed-duration acquisitions restore "standby" on
    every exit that comes after the acquisition loop: the normal return,
    and the two errors that the diagnostics of the end can raise
    ([IndexError], [ZeroDivisionError]).  On these exits the tracked power
    mode is "standby" and the last write to the power register is [0x00].
    There is no cleanup on the other exits. *)
Theorem standby_restored_after_the_loop (W : World) (fuel : nat) (t : Qc)
    (s : ADXL345 W) :
  (∀ r s',
     read_continuos_xyz fuel t s = (r, s') → after_loop r →
     power_mode s' = Some "standby"%string
     ∧ last_write_to regaddr_pwr (trace s') = Some 0x00)
  ∧ (∀ r s',
       read_continuos_xyz_fromfifo fuel t s = (r, s') → after_loop r →
       power_mode s' = Some "standby"%string
       ∧ last_write_to regaddr_pwr (trace s') = Some 0x00).
Proof.
  split; intros r s' H Hafter.
  - by eapply read_continuos_xyz_standby.
  - by eapply read_continuos_xyz_fromfifo_standby.
Qed.

Lemma standby_restored_after_the_loop_witness :
  ∃ r s',
    read_continuos_xyz 5 (Q2Qc (3 # 100))
      (configured (W:=steady_chip 32) (Qc_of_Z 100) 2 steady_start) = (r, s')
    ∧ after_loop r
    ∧ power_mode s' = Some "standby"%string
    ∧ last_write_to regaddr_pwr (trace s') = Some 0x00.
Proof.
  eexists _, _. split; [vm_compute; reflexivity|]. split; [exact I|].
  eapply (proj1 (standby_restored_after_the_loop (steady_chip 32) 5
                   (Q2Qc (3 # 100))
                   (configured (W:=steady_chip 32) (Qc_of_Z 100) 2 steady_start))).
  - vm_compute. reflexivity.
  - exact I.
Defined.

(** * Further properties *)

(** ** More on the decoder *)

Lemma range_succ_Z (n : Z) : 0 ≤ n → range (n + 1) = range n ++ [n].
Proof.
  intros Hn. replace (n + 1) with (Z.of_nat (S (Z.to_nat n))) by lia.
  rewrite range_succ. by rewrite Z2Nat.id by done.
Qed.

(** The indices that the comprehension of [xyzbytes2g] keeps are the
    multiples of six below the number of samples. *)
Lemma selected_indices (k : nat) :
  filter (λ i, i `mod` bytes_per_3axes = 0) (range (Z.of_nat k))
  = (λ j, 6 * j) <$> range ((Z.of_nat k + 5) `div` 6).
Proof.
  unfold bytes_per_3axes. induction k as [|k IH]; [reflexivity|].
  rewrite range_succ, filter_app, IH, filter_cons, filter_nil.
  rewrite Nat2Z.inj_succ.
  destruct (decide (Z.of_nat k `mod` 6 = 0)) as [Hk|Hk].
  - replace ((Z.succ (Z.of_nat k) + 5) `div` 6) with ((Z.of_nat k + 5) `div` 6 + 1)
      by (Z.div_mod_to_equations; lia).
    rewrite range_succ_Z by (Z.div_mod_to_equations; lia).
    rewrite fmap_app. f_equal. cbn. f_equal.
    Z.div_mod_to_equations. lia.
  - replace ((Z.succ (Z.of_nat k) + 5) `div` 6) with ((Z.of_nat k + 5) `div` 6)
      by (Z.div_mod_to_equations; lia).
    by rewrite app_nil_r.
Qed.

Lemma comprehension_lookup {A B} (f : A → outcome B) (l : list A) (ys : list B)
    (j : nat) (x : A) :
  comprehension f l = Ret ys → l !! j = Some x →
  ∃ y, ys !! j = Some y ∧ f x = Ret y.
Proof.
  revert ys j. induction l as [|a l IH]; intros ys j H Hj; [done|].
  cbn in H. destruct (f a) as [y|e|] eqn:Ea; cbn in H; [|done..].
  destruct (comprehension f l) as [ys'|e|] eqn:El; cbn in H; [|done..].
  simplify_eq. destruct j as [|j]; cbn in *.
  - simplify_eq. eauto.
  - by apply IH.
Qed.

Lemma slice_lookup {A} (l : list A) (i j : Z) (t : nat) :
  (t < Z.to_nat (j - i))%nat → slice l i j !! t = l !! (Z.to_nat i + t)%nat.
Proof. intros Ht. unfold slice. by rewrite lookup_take_lt, lookup_drop. Qed.

Lemma unpack_HHH_inv (b : list Z) (x y z : Z) :
  unpack_HHH b = Ret (x, y, z) →
  ∃ x0 x1 y0 y1 z0 z1,
    b = [x0; x1; y0; y1; z0; z1]
    ∧ x = x0 + 256 * x1 ∧ y = y0 + 256 * y1 ∧ z = z0 + 256 * z1.
Proof.
  intros H. do 7 (destruct b as [|? b]; try discriminate H).
  cbn in H. simplify_eq. by eexists _, _, _, _, _, _.
Qed.

(** The rows that [xyzbytes2g] unpacks, and what it makes of them. *)
Lemma xyzbytes2g_rows (buf xs ys zs : list Z) :
  xyzbytes2g buf = Ret (xs, ys, zs) →
  ∃ rows,
    comprehension (λ i, unpack_HHH (slice buf i (i + bytes_per_3axes)))
      ((λ j, 6 * j) <$> range ((Z.of_nat (length buf) `div` 6 + 5) `div` 6))
    = Ret rows
    ∧ xs = negative_values_rule <$> ((λ r, r.1.1) <$> rows)
    ∧ ys = negative_values_rule <$> ((λ r, r.1.2) <$> rows)
    ∧ zs = negative_values_rule <$> ((λ r, r.2) <$> rows).
Proof.
  unfold xyzbytes2g. intros H.
  assert (Hk : 0 ≤ Z.of_nat (length buf) `div` bytes_per_3axes)
    by (unfold bytes_per_3axes; Z.div_mod_to_equations; lia).
  rewrite <- (Z2Nat.id _ Hk), selected_indices, (Z2Nat.id _ Hk) in H.
  unfold bytes_per_3axes in H at 1.
  destruct (comprehension _ _) as [rows|e|] eqn:Erows; cbn in H; [|done..].
  exists rows. split; [done|].
  destruct rows as [|r rows]; cbn in H; [done|]. by simplify_eq.
Qed.

Lemma xyzbytes2g_sample (buf xs ys zs : list Z) (j : nat) :
  xyzbytes2g buf = Ret (xs, ys, zs) →
  (j < length xs)%nat →
  ∃ x0 x1 y0 y1 z0 z1,
    buf !! (6 * j)%nat = Some x0 ∧ buf !! (6 * j + 1)%nat = Some x1
    ∧ buf !! (6 * j + 2)%nat = Some y0 ∧ buf !! (6 * j + 3)%nat = Some y1
    ∧ buf !! (6 * j + 4)%nat = Some z0 ∧ buf !! (6 * j + 5)%nat = Some z1
    ∧ xs !! j = Some (negative_values_rule (x0 + 256 * x1))
    ∧ ys !! j = Some (negative_values_rule (y0 + 256 * y1))
    ∧ zs !! j = Some (negative_values_rule (z0 + 256 * z1)).
Proof.
  intros H Hj. destruct (xyzbytes2g_rows _ _ _ _ H) as (rows & Hrows & -> & -> & ->).
  rewrite !length_fmap in Hj.
  pose proof (comprehension_length _ _ _ Hrows) as Hlen.
  rewrite length_fmap, range_length in Hlen.
  assert (Hidx : ((λ j, 6 * j) <$> range ((Z.of_nat (length buf) `div` 6 + 5) `div` 6))
                 !! j = Some (6 * Z.of_nat j)).
  { rewrite list_lookup_fmap. unfold range. rewrite list_lookup_fmap.
    rewrite lookup_seq_lt by lia. reflexivity. }
  destruct (comprehension_lookup _ _ _ _ _ Hrows Hidx) as ([[x y] z] & Hrow & Hunpack).
  apply unpack_HHH_inv in Hunpack
    as (x0 & x1 & y0 & y1 & z0 & z1 & Hslice & -> & -> & ->).
  assert (Hbyte : ∀ t : nat, (t < 6)%nat →
            buf !! (6 * j + t)%nat = [x0; x1; y0; y1; z0; z1] !! t).
  { intros t Ht. rewrite <- Hslice, slice_lookup by (unfold bytes_per_3axes; lia).
    f_equal. lia. }
  exists x0, x1, y0, y1, z0, z1.
  rewrite <- (Nat.add_0_r (6 * j)) at 1.
  rewrite !Hbyte by lia. rewrite !list_lookup_fmap, Hrow. done.
Qed.

(** X1.  What [xyzbytes2g] returns is the decoding of the leading samples
    of the buffer: the three lists have the same length, one entry for
    every sixth index below [len(buf) / 6], and their j-th entries are the
    three little-endian words of the bytes 6j .. 6j+5, sign-corrected. *)
Theorem xyzbytes2g_decodes_leading_samples (buf xs ys zs : list Z) :
  xyzbytes2g buf = Ret (xs, ys, zs) →
  length xs = Z.to_nat ((Z.of_nat (length buf) `div` 6 + 5) `div` 6)
  ∧ length ys = length xs ∧ length zs = length xs
  ∧ ∀ j : nat, (j < length xs)%nat →
      ∃ x0 x1 y0 y1 z0 z1,
        buf !! (6 * j)%nat = Some x0 ∧ buf !! (6 * j + 1)%nat = Some x1
        ∧ buf !! (6 * j + 2)%nat = Some y0 ∧ buf !! (6 * j + 3)%nat = Some y1
        ∧ buf !! (6 * j + 4)%nat = Some z0 ∧ buf !! (6 * j + 5)%nat = Some z1
        ∧ xs !! j = Some (negative_values_rule (x0 + 256 * x1))
        ∧ ys !! j = Some (negative_values_rule (y0 + 256 * y1))
        ∧ zs !! j = Some (negative_values_rule (z0 + 256 * z1)).
Proof.
  intros H. split; [|split; [|split]].
  - destruct (xyzbytes2g_rows _ _ _ _ H) as (rows & Hrows & -> & _).
    apply comprehension_length in Hrows.
    by rewrite !length_fmap, Hrows, length_fmap, range_length.
  - destruct (xyzbytes2g_rows _ _ _ _ H) as (rows & _ & -> & -> & _).
    by rewrite !length_fmap.
  - destruct (xyzbytes2g_rows _ _ _ _ H) as (rows & _ & -> & _ & ->).
    by rewrite !length_fmap.
  - intros j Hj. by eapply xyzbytes2g_sample.
Qed.

Lemma xyzbytes2g_decodes_leading_samples_witness :
  let buf := [1; 0; 2; 0; 3; 0; 4; 0; 5; 0; 6; 0; 7; 0; 8; 0; 9; 0; 10; 0; 11; 0; 12; 0;
              13; 0; 14; 0; 15; 0; 16; 0; 17; 0; 18; 0; 255; 255; 20; 0; 21; 0] in
  ∃ xs ys zs,
    xyzbytes2g buf = Ret (xs, ys, zs)
    ∧ length xs = 2%nat ∧ length ys = length xs ∧ length zs = length xs.
Proof.
  intros buf. eexists _, _, _. split; [vm_compute; reflexivity|].
  destruct (xyzbytes2g_decodes_leading_samples buf [1; 4] [2; 5] [3; 6])
    as (Hx & Hy & Hz & _); [vm_compute; reflexivity|].
  split; [exact Hx|]. split; [exact Hy|exact Hz].
Defined.

Lemma negative_values_rule_range (lo hi : Z) :
  0 ≤ lo < 256 → 0 ≤ hi < 256 →
  -32768 ≤ negative_values_rule (lo + 256 * hi) ≤ 32767.
Proof. intros Hlo Hhi. unfold negative_values_rule. case_bool_decide; lia. Qed.

(** X2.  On a buffer of bytes, every value that [xyzbytes2g] returns is in
    the signed 16-bit range. *)
Theorem xyzbytes2g_signed_16_bit (buf xs ys zs : list Z) :
  Forall (λ b, 0 ≤ b < 256) buf →
  xyzbytes2g buf = Ret (xs, ys, zs) →
  Forall (λ v, -32768 ≤ v ≤ 32767) xs
  ∧ Forall (λ v, -32768 ≤ v ≤ 32767) ys
  ∧ Forall (λ v, -32768 ≤ v ≤ 32767) zs.
Proof.
  intros Hbytes H.
  destruct (xyzbytes2g_rows _ _ _ _ H) as (rows & _ & Hxs & Hys & Hzs).
  assert (Hlen : length ys = length xs ∧ length zs = length xs)
    by (subst; by rewrite !length_fmap).
  destruct Hlen as [Hly Hlz].
  assert (Hsample : ∀ j : nat, (j < length xs)%nat →
            ∃ x y z, xs !! j = Some x ∧ ys !! j = Some y ∧ zs !! j = Some z
              ∧ -32768 ≤ x ≤ 32767 ∧ -32768 ≤ y ≤ 32767 ∧ -32768 ≤ z ≤ 32767).
  { intros j Hj.
    destruct (xyzbytes2g_sample _ _ _ _ j H Hj)
      as (x0 & x1 & y0 & y1 & z0 & z1 & B0 & B1 & B2 & B3 & B4 & B5 & Hx & Hy & Hz).
    rewrite Forall_lookup in Hbytes.
    eexists _, _, _. repeat split; try done;
      apply negative_values_rule_range; eauto. }
  repeat split; apply Forall_lookup; intros j v Hv;
    pose proof (lookup_lt_Some _ _ _ Hv) as Hj;
    destruct (Hsample j ltac:(lia)) as (x & y & z & Hx & Hy & Hz & ? & ? & ?);
    by simplify_eq.
Qed.

Lemma xyzbytes2g_signed_16_bit_witness :
  Forall (λ v, -32768 ≤ v ≤ 32767) [-1]
  ∧ Forall (λ v, -32768 ≤ v ≤ 32767) [-32768]
  ∧ Forall (λ v, -32768 ≤ v ≤ 32767) [32767].
Proof.
  apply (xyzbytes2g_signed_16_bit [255; 255; 0; 128; 255; 127; 9]).
  - repeat (apply Forall_cons_2; [lia|]). apply Forall_nil_2.
  - vm_compute. reflexivity.
Defined.

(** ** More on frame stripping *)

Lemma strip_from_shift (o o' : Z) (l : list Z) :
  o `mod` 7 = o' `mod` 7 →
  (filter (λ ib : Z * Z, ib.1 `mod` (bytes_per_3axes + 1) ≠ 0) (enumerate_from o l)).*2
  = (filter (λ ib : Z * Z, ib.1 `mod` (bytes_per_3axes + 1) ≠ 0) (enumerate_from o' l)).*2.
Proof.
  unfold bytes_per_3axes. change (6 + 1) with 7. revert o o'.
  induction l as [|x l IH]; intros o o' Ho; [reflexivity|].
  cbn [enumerate_from].
  assert (Hnext : (o + 1) `mod` 7 = (o' + 1) `mod` 7)
    by (revert Ho; Z.div_mod_to_equations; lia).
  destruct (decide (o `mod` 7 = 0)) as [H|H].
  - rewrite !filter_cons_False by (cbn [fst]; lia). by apply IH.
  - rewrite !filter_cons_True by (cbn [fst]; lia).
    rewrite !fmap_cons. cbn [snd]. f_equal. by apply IH.
Qed.

Lemma enumerate_from_app {A} (o : Z) (a b : list A) :
  enumerate_from o (a ++ b)
  = enumerate_from o a ++ enumerate_from (o + Z.of_nat (length a)) b.
Proof.
  revert o. induction a as [|x a IH]; intros o; cbn.
  - by rewrite Z.add_0_r.
  - rewrite IH. do 3 f_equal. lia.
Qed.

Lemma strip_after_whole_frames (a b : list Z) :
  (length a `mod` 7 = 0)%nat →
  remove_first_bytes_from_bytearray_of_many_transactions (a ++ b)
  = remove_first_bytes_from_bytearray_of_many_transactions a
    ++ remove_first_bytes_from_bytearray_of_many_transactions b.
Proof.
  intros Ha. unfold remove_first_bytes_from_bytearray_of_many_transactions, enumerate.
  rewrite enumerate_from_app, filter_app, fmap_app. f_equal.
  apply strip_from_shift. rewrite Z.add_0_l.
  replace (Z.of_nat (length a)) with (7 * Z.of_nat (length a `div` 7)).
  - by rewrite Z.mul_comm, Z.mod_mul.
  - pose proof (Nat.div_mod (length a) 7). lia.
Qed.

(** X3.  Stripping two buffers put end to end, the first a whole number of
    frames long, is stripping each of them. *)
Theorem strip_app (a b : list Z) :
  (length a `mod` 7 = 0)%nat →
  remove_first_bytes_from_bytearray_of_many_transactions (a ++ b)
  = remove_first_bytes_from_bytearray_of_many_transactions a
    ++ remove_first_bytes_from_bytearray_of_many_transactions b.
Proof. apply strip_after_whole_frames. Qed.

Lemma strip_app_witness :
  remove_first_bytes_from_bytearray_of_many_transactions
    ([9; 1; 2; 3; 4; 5; 6] ++ [8; 11; 12])
  = remove_first_bytes_from_bytearray_of_many_transactions [9; 1; 2; 3; 4; 5; 6]
    ++ remove_first_bytes_from_bytearray_of_many_transactions [8; 11; 12].
Proof. apply (strip_app [9; 1; 2; 3; 4; 5; 6] [8; 11; 12]). reflexivity. Defined.

Lemma strip_partial_frame (tail : list Z) :
  (length tail ≤ 7)%nat →
  remove_first_bytes_from_bytearray_of_many_transactions tail = drop 1 tail.
Proof.
  intros Hlen. do 8 (destruct tail as [|? tail]; [reflexivity|]).
  cbn in Hlen. lia.
Qed.

(** X4.  On any buffer, whole frames or not: the stripped buffer is the
    payload of every whole frame followed by all but the first byte of
    what remains, so its length is the length of the buffer less one byte
    for every frame begun. *)
Theorem strip_any_buffer (frames : list (list Z)) (tail : list Z) :
  Forall (λ f, length f = 7%nat) frames → (length tail < 7)%nat →
  remove_first_bytes_from_bytearray_of_many_transactions (concat frames ++ tail)
  = concat (drop 1 <$> frames) ++ drop 1 tail
  ∧ length (remove_first_bytes_from_bytearray_of_many_transactions
              (concat frames ++ tail))
    = (length (concat frames ++ tail)
       - (length (concat frames ++ tail) + 6) `div` 7)%nat.
Proof.
  intros Hframes Htail.
  assert (Hlen : length (concat frames) = (7 * length frames)%nat).
  { induction Hframes as [|f frames Hf _ IH]; [reflexivity|].
    cbn [concat]. rewrite length_app, Hf, IH, length_cons. lia. }
  assert (Heq : remove_first_bytes_from_bytearray_of_many_transactions
                  (concat frames ++ tail)
                = concat (drop 1 <$> frames) ++ drop 1 tail).
  { rewrite strip_after_whole_frames.
    - rewrite (strip_partial_frame tail) by lia. f_equal.
      unfold remove_first_bytes_from_bytearray_of_many_transactions, enumerate.
      by apply strip_from_frames.
    - rewrite Hlen, Nat.mul_comm. apply Nat.Div0.mod_mul. }
  split; [exact Heq|]. rewrite Heq.
  rewrite !length_app, payload_length, length_drop, Hlen by done.
  destruct (decide (length tail = 0%nat)) as [Hz|Hnz].
  - rewrite Hz.
    replace ((7 * length frames + 0 + 6) `div` 7)%nat with (length frames); [lia|].
    apply Nat.div_unique with 6%nat; lia.
  - replace ((7 * length frames + length tail + 6) `div` 7)%nat
      with (length frames + 1)%nat; [lia|].
    apply Nat.div_unique with (length tail - 1)%nat; lia.
Qed.

Lemma strip_any_buffer_witness :
  remove_first_bytes_from_bytearray_of_many_transactions
    (concat [[9; 1; 2; 3; 4; 5; 6]] ++ [8; 11; 12])
  = concat (drop 1 <$> [[9; 1; 2; 3; 4; 5; 6]]) ++ drop 1 [8; 11; 12].
Proof.
  apply (strip_any_buffer [[9; 1; 2; 3; 4; 5; 6]] [8; 11; 12]).
  - repeat constructor.
  - cbn. lia.
Defined.

(** ** The FIFO control byte for any watermark level *)

Lemma append_cons (c : ascii) (a s : string) : String c a +:+ s = String c (a +:+ s).
Proof. reflexivity. Qed.
Lemma append_empty (s : string) : "" +:+ s = s.
Proof. reflexivity. Qed.

Lemma split_nonempty (sep : ascii) (s : string) : split sep s ≠ [].
Proof.
  induction s as [|c s IH]; cbn; [done|].
  destruct (Ascii.eqb c sep); [done|]. by destruct (split sep s).
Qed.

Lemma split_bin_digits (p : positive) (acc : string) :
  split "b" (bin_digits p acc)
  = match split "b" acc with
    | [] => []
    | hd :: tl => bin_digits p hd :: tl
    end.
Proof.
  revert acc. induction p as [p IH|p IH|]; intros acc; cbn [bin_digits].
  - rewrite IH. cbn [split]. change (Ascii.eqb "1" "b") with false. cbn iota.
    pose proof (split_nonempty "b" acc). by destruct (split "b" acc).
  - rewrite IH. cbn [split]. change (Ascii.eqb "0" "b") with false. cbn iota.
    pose proof (split_nonempty "b" acc). by destruct (split "b" acc).
  - cbn [split]. change (Ascii.eqb "1" "b") with false. cbn iota.
    pose proof (split_nonempty "b" acc). by destruct (split "b" acc).
Qed.

Lemma length_bin_digits (p : positive) (acc : string) :
  String.length (bin_digits p acc) = (Pos.size_nat p + String.length acc)%nat.
Proof.
  revert acc. induction p as [p IH|p IH|]; intros acc; cbn [bin_digits Pos.size_nat].
  - rewrite IH. cbn. lia.
  - rewrite IH. cbn. lia.
  - reflexivity.
Qed.

Lemma replace_blank_bin_digits (p : positive) (acc : string) :
  replace_blank_by_0 (bin_digits p acc) = bin_digits p (replace_blank_by_0 acc).
Proof.
  revert acc. induction p as [p IH|p IH|]; intros acc; cbn [bin_digits];
    rewrite ?IH; reflexivity.
Qed.

Lemma replace_blank_padding (n : nat) (s : string) :
  replace_blank_by_0 (string_of_list_ascii (replicate n " "%char) +:+ s)
  = string_of_list_ascii (replicate n "0"%char) +:+ replace_blank_by_0 s.
Proof.
  induction n as [|n IH]; [reflexivity|].
  cbn [replicate string_of_list_ascii]. rewrite !append_cons.
  cbn [replace_blank_by_0]. by rewrite IH.
Qed.

Lemma binary_value_bin_digits (p : positive) (acc : string) (a : Z) :
  binary_value (bin_digits p acc) a
  = binary_value acc (a * 2 ^ Z.of_nat (Pos.size_nat p) + Z.pos p).
Proof.
  revert acc a. induction p as [p IH|p IH|]; intros acc a;
    cbn [bin_digits Pos.size_nat]; rewrite ?IH; cbn [binary_value];
    rewrite ?Nat2Z.inj_succ, ?Z.pow_succ_r by lia; f_equal; lia.
Qed.

Lemma binary_value_zeros (n : nat) (s : string) (a : Z) :
  binary_value (string_of_list_ascii (replicate n "0"%char) +:+ s) a
  = binary_value s (a * 2 ^ Z.of_nat n).
Proof.
  revert a. induction n as [|n IH]; intros a.
  - cbn [replicate string_of_list_ascii]. rewrite append_empty. f_equal.
    change (2 ^ Z.of_nat 0) with 1. lia.
  - cbn [replicate string_of_list_ascii]. rewrite append_cons.
    cbn [binary_value]. rewrite IH. f_equal. rewrite Nat2Z.inj_succ, Z.pow_succ_r by lia. lia.
Qed.

Lemma size_nat_size (p : positive) : Z.of_nat (Pos.size_nat p) = Z.pos (Pos.size p).
Proof. induction p as [p IH|p IH|]; cbn [Pos.size_nat Pos.size]; lia. Qed.

Lemma size_nat_log2 (p : positive) :
  Z.of_nat (Pos.size_nat p) = Z.log2 (Z.pos p) + 1.
Proof.
  destruct p as [p|p|]; cbn [Pos.size_nat Z.log2]; rewrite ?Nat2Z.inj_succ;
    rewrite ?size_nat_size; lia.
Qed.

(** [bin(w).split('b')[1]]: the binary digits of the absolute value *)
Lemma bin_split (w : Z) :
  getitem (split "b" (bin w)) 1
  = Ret (match w with
         | Z0 => "0"%string
         | Zpos p | Zneg p => bin_digits p ""
         end).
Proof.
  destruct w as [|p|p]; [reflexivity| |].
  - unfold bin. rewrite !append_cons, append_empty. cbn [split].
    change (Ascii.eqb "0" "b") with false. change (Ascii.eqb "b" "b") with true.
    cbn iota. by rewrite split_bin_digits.
  - unfold bin. rewrite !append_cons, append_empty. cbn [split].
    change (Ascii.eqb "-" "b") with false.
    change (Ascii.eqb "0" "b") with false. change (Ascii.eqb "b" "b") with true.
    cbn iota. by rewrite split_bin_digits.
Qed.

Lemma stream_control_byte_pos (p : positive) :
  (wm_bstr <- Ret (bin_digits p "") ;;
   int_base2 ("0b" +:+ "100" +:+ replace_blank_by_0 (format_right5 wm_bstr)))%out
  = Ret (4 * 2 ^ Z.max 5 (Z.log2 (Z.pos p) + 1) + Z.pos p).
Proof.
  cbn [obind]. unfold format_right5.
  rewrite replace_blank_padding, replace_blank_bin_digits, length_bin_digits.
  cbn [replace_blank_by_0 String.length]. rewrite Nat.add_0_r.
  rewrite !append_cons, !append_empty. cbn [int_base2 binary_value].
  rewrite binary_value_zeros, binary_value_bin_digits.
  cbn [binary_value]. f_equal. rewrite <- size_nat_log2.
  replace (Z.max 5 (Z.of_nat (Pos.size_nat p)))
    with (Z.of_nat (5 - Pos.size_nat p) + Z.of_nat (Pos.size_nat p)) by lia.
  rewrite Z.pow_add_r by lia. lia.
Qed.

Lemma stream_control_byte_formula (w : Z) :
  stream_control_byte w
  = Ret (4 * 2 ^ Z.max 5 (Z.log2 (Z.abs w) + 1) + Z.abs w).
Proof.
  unfold stream_control_byte. rewrite bin_split.
  destruct w as [|p|p]; [reflexivity| |]; apply stream_control_byte_pos.
Qed.

Lemma control_byte_fits (w : Z) :
  4 * 2 ^ Z.max 5 (Z.log2 (Z.abs w) + 1) + Z.abs w < 256 ↔ Z.abs w < 32.
Proof.
  split.
  - intros Hfits. destruct (decide (Z.abs w < 32)) as [|Hbig]; [done|].
    pose proof (Z.log2_le_mono 32 (Z.abs w) ltac:(lia)) as Hlog.
    change (Z.log2 32) with 5 in Hlog.
    pose proof (Z.pow_le_mono_r 2 6 (Z.max 5 (Z.log2 (Z.abs w) + 1))
                  ltac:(lia) ltac:(lia)) as Hpow.
    change (2 ^ 6) with 64 in Hpow. lia.
  - intros Hsmall.
    assert (Hlog : Z.log2 (Z.abs w) + 1 ≤ 5).
    { destruct (decide (Z.abs w = 0)) as [->|]; [by compute|].
      assert (Z.log2 (Z.abs w) < 5) by (apply Z.log2_lt_pow2; lia). lia. }
    rewrite Z.max_l by lia. change (2 ^ 5) with 32. lia.
Qed.

(** X5.  The control byte that [set_fifo_mode] and [set_watermark_level]
    build in stream mode, for every integer level: the bits [100] followed
    by the binary digits of the absolute value of the level, padded to
    five digits but not cut to five.  Building it never fails; a negative
    level counts as its absolute value; and the value fits a byte exactly
    when the absolute value of the level is below 32. *)
Theorem stream_control_byte_value (w : Z) :
  ∃ b, stream_control_byte w = Ret b
    ∧ b = 4 * 2 ^ Z.max 5 (Z.log2 (Z.abs w) + 1) + Z.abs w
    ∧ (b < 256 ↔ Z.abs w < 32).
Proof.
  eexists. split; [apply stream_control_byte_formula|]. split; [done|].
  apply control_byte_fits.
Qed.

(** ** The general-purpose calls *)

(** What [write] does to the object: it reads nothing, it releases the
    chip-select line only when it returns, and when it is given two bytes
    it writes them on the bus and fails only with the bus. *)
Lemma write_inv {W : World} (regaddr the_byte : Z) (s : ADXL345 W) r s' :
  write regaddr the_byte s = (r, s') →
  config s' = config s ∧ bus_reads (trace s') = bus_reads (trace s)
  ∧ cs_level (trace s') = Some (match r with Ret _ => 1 | _ => 0 end)
  ∧ (0 ≤ regaddr < 256 → 0 ≤ the_byte < 256 →
     bus_writes (trace s') = [regaddr; the_byte] :: bus_writes (trace s)
     ∧ match r with
       | Ret _ => True
       | Raise e => e = OSError
       | Spin => False
       end).
Proof.
  intros H. unfold write, lift, bytearray_of in H.
  case_bool_decide as Hbytes.
  - run in H. case_xfer; [|by simplify_eq]. case_xfer; by simplify_eq.
  - assert (Hbad : ¬ (0 ≤ regaddr < 256 ∧ 0 ≤ the_byte < 256)).
    { intros [Ha Hb]. apply Hbytes. by repeat apply Forall_cons_2. }
    destruct (bytearray_overflow W [regaddr; the_byte]) as [bytes|e]; run in H.
    + case_transfer; run in H; injection H as <- <-;
        cbn [trace with_event with_chip]; unfold config in *;
        cbn [power_mode g_range sampling_rate fifo_mode watermark_level
             with_event with_chip] in *;
        rewrite ?Htrace; try done;
        do 3 (split; [done|]); intros Ha Hb; by destruct Hbad.
    + injection H as <- <-. do 3 (split; [done|]). intros Ha Hb. by destruct Hbad.
Qed.

(** What [read] does to the object, for each of its outcomes. *)
Lemma read_inv {W : World} (regaddr nbytes : Z) (s : ADXL345 W) r s' :
  read regaddr nbytes s = (r, s') →
  config s' = config s ∧ bus_writes (trace s') = bus_writes (trace s)
  ∧ bus_reads (trace s')
    = SpiRead (nbytes + 1)
        (if bool_decide (nbytes > 1)
         then Z.lor (Z.lor regaddr read_mask) multibyte_mask
         else Z.lor regaddr read_mask) :: bus_reads (trace s)
  ∧ match r with
    | Ret value =>
        length value = (Z.to_nat (nbytes + 1) - 1)%nat
        ∧ cs_level (trace s') = Some 1
    | Raise e =>
        (e = OSError ∨ e = ValueError ∧ nbytes < 0 ∧ empty_transfer_ok W = false)
        ∧ cs_level (trace s') = Some 0
    | Spin => False
    end.
Proof.
  intros H. run_core in H. unfold spi_read in H. run_core in H.
  case_transfer; run_core in H; injection H as <- <-;
    cbn [trace with_event with_chip]; unfold config in *;
    cbn [power_mode g_range sampling_rate fifo_mode watermark_level
         with_event with_chip] in *;
    rewrite ?Htrace; try done.
  - rewrite length_replicate in Etransfer. by rewrite length_drop, Etransfer.
  - do 3 (split; [done|]). split; [|done].
    destruct Etransfer as [->|(-> & Hout & Hempty)]; [by left|right].
    split; [done|]. split; [|done]. apply (f_equal length) in Hout.
    rewrite length_replicate in Hout. cbn in Hout. lia.
Qed.

(** A read of one register: the byte that answers the command is dropped,
    the next one is the value. *)
Lemma read_1_inv {W : World} (regaddr : Z) (s : ADXL345 W) r s' :
  read regaddr 1 s = (r, s') →
  config s' = config s ∧ bus_writes (trace s') = bus_writes (trace s)
  ∧ bus_reads (trace s')
    = SpiRead 2 (Z.lor regaddr read_mask) :: bus_reads (trace s)
  ∧ match r with
    | Ret value =>
        ∃ b0 d1 b d2,
          xfer W (Z.lor regaddr read_mask) (cs_set W 0 (chip s)) = Some (b0, d1)
          ∧ xfer W (Z.lor regaddr read_mask) d1 = Some (b, d2)
          ∧ value = [b] ∧ chip s' = cs_set W 1 d2
    | Raise e => e = OSError
    | Spin => False
    end.
Proof.
  intros H. run_core in H.
  rewrite one_is_not_more_than_one, spi_read_1_1 in H. run_core in H.
  case_xfer; [|by simplify_eq]. run_core in H.
  case_xfer; [|by simplify_eq]. run_core in H.
  simplify_eq. do 3 (split; [done|]). by eexists _, _, _, _.
Qed.

Lemma slice_all {A} (l : list A) : slice l 0 (Z.of_nat (length l)) = l.
Proof.
  unfold slice. rewrite Z.sub_0_r, Nat2Z.id. change (Z.to_nat 0) with 0%nat.
  rewrite drop_0. by rewrite firstn_all.
Qed.

(** [read_into] clocks one byte per byte of the buffer and keeps them all. *)
Lemma read_into_run {W : World} (buf : list Z) (regaddr : Z) (s : ADXL345 W) :
  buf ≠ [] →
  read_into buf regaddr s
  = match clock_bytes
            (replicate (length buf) (Z.lor (Z.lor regaddr read_mask) multibyte_mask))
            (cs_set W 0 (chip s)) with
    | (Ret bs, d) =>
        (Ret bs,
         with_chip (cs_set W 1 d)
           (with_event (CsValue 1)
              (with_chip d
                 (with_event
                    (SpiReadinto (length buf)
                       (Z.lor (Z.lor regaddr read_mask) multibyte_mask))
                    (with_chip (cs_set W 0 (chip s)) (with_event (CsValue 0) s))))))
    | (Raise e, d) =>
        (Raise e,
         with_chip d
           (with_event
              (SpiReadinto (length buf)
                 (Z.lor (Z.lor regaddr read_mask) multibyte_mask))
              (with_chip (cs_set W 0 (chip s)) (with_event (CsValue 0) s))))
    | (Spin, d) =>
        (Spin,
         with_chip d
           (with_event
              (SpiReadinto (length buf)
                 (Z.lor (Z.lor regaddr read_mask) multibyte_mask))
              (with_chip (cs_set W 0 (chip s)) (with_event (CsValue 0) s))))
    end.
Proof.
  intros Hbuf. unfold read_into. run_core. rewrite slice_all.
  rewrite transfer_replicate by (by destruct buf). run_core.
  destruct (clock_bytes _ _) as [[bs|e|] d] eqn:E; run_core; [|done..].
  change (Z.to_nat 0) with 0%nat. rewrite take_0, Nat.add_0_l.
  by rewrite drop_all, app_nil_r.
Qed.

(** X6.  The chip-select line across [write], [read] and [read_into]: each
    call pulls it low first, and releases it only when it returns.  A call
    that raises (the bus failed, or [write] was given a value that is not
    a byte) leaves the line low. *)
Theorem chip_select_released_only_on_return {W : World} (s : ADXL345 W) :
  (∀ regaddr the_byte,
     cs_level (trace (write regaddr the_byte s).2)
     = Some (match (write regaddr the_byte s).1 with Ret _ => 1 | _ => 0 end))
  ∧ (∀ regaddr nbytes,
       cs_level (trace (read regaddr nbytes s).2)
       = Some (match (read regaddr nbytes s).1 with Ret _ => 1 | _ => 0 end))
  ∧ (∀ buf regaddr,
       cs_level (trace (read_into buf regaddr s).2)
       = Some (match (read_into buf regaddr s).1 with Ret _ => 1 | _ => 0 end)).
Proof.
  split; [|split].
  - intros regaddr the_byte.
    destruct (write regaddr the_byte s) as [r s'] eqn:E.
    by apply write_inv in E as (_ & _ & Hcs & _).
  - intros regaddr nbytes.
    destruct (read regaddr nbytes s) as [r s'] eqn:E.
    apply read_inv in E as (_ & _ & _ & Hr). cbn [fst snd].
    destruct r as [value|e|]; [by destruct Hr..|done].
  - intros buf regaddr. unfold read_into. run_core.
    destruct (transfer _ _) as [[bs|e|] s1] eqn:E;
      apply transfer_inv in E as (Htrace & _ & E); run_core; by rewrite ?Htrace.
Qed.

(** X7.  [read_into] against [read], for a buffer of [nbytes + 1] bytes
    with more than one register to read: the chip sees the same bytes in
    both, and what [read] returns is what [read_into] leaves in the buffer
    after its first byte, the one that came in while the command went
    out. *)
Theorem read_into_is_read {W : World} (buf : list Z) (regaddr nbytes : Z)
    (s : ADXL345 W) :
  1 < nbytes → length buf = Z.to_nat (nbytes + 1) →
  match read_into buf regaddr s, read regaddr nbytes s with
  | (Ret filled, s1), (Ret value, s2) =>
      length filled = length buf ∧ drop 1 filled = value
      ∧ chip s1 = chip s2 ∧ config s1 = config s2
  | (Raise e1, s1), (Raise e2, s2) => e1 = e2 ∧ chip s1 = chip s2
  | _, _ => False
  end.
Proof.
  intros Hn Hlen. rewrite read_into_run by (destruct buf; [cbn in Hlen; lia|done]).
  unfold read. rewrite bool_decide_true by lia.
  run_core. unfold spi_read. rewrite transfer_replicate by lia. run_core.
  rewrite Hlen.
  destruct (clock_bytes _ _) as [[bs|e|] d] eqn:E; run_core;
    apply clock_bytes_inv in E; cbn beta iota in E; [|done..].
  by rewrite length_replicate in E.
Qed.

Lemma read_into_is_read_witness :
  ∃ filled s1 value s2,
    read_into [0; 0; 0; 0] regaddr_acc
      (configured (W:=steady_chip 0) (Qc_of_Z 100) 2 steady_start) = (Ret filled, s1)
    ∧ read regaddr_acc 3
        (configured (W:=steady_chip 0) (Qc_of_Z 100) 2 steady_start) = (Ret value, s2)
    ∧ length filled = 4%nat ∧ drop 1 filled = value
    ∧ chip s1 = chip s2 ∧ config s1 = config s2.
Proof.
  pose proof (read_into_is_read [0; 0; 0; 0] regaddr_acc 3
                (configured (W:=steady_chip 0) (Qc_of_Z 100) 2 steady_start)
                ltac:(lia) eq_refl) as H.
  eexists _, _, _, _. split; [vm_compute; reflexivity|].
  split; [vm_compute; reflexivity|]. vm_compute in H. exact H.
Defined.

(** ** The status calls *)

Lemma bit_of_byte (b : Z) (i : Z) : 0 ≤ Z.land (Z.shiftr b i) 1 ≤ 1.
Proof.
  change 1 with (Z.ones 1) at 1 2. rewrite Z.land_ones by lia.
  change (2 ^ 1) with 2. pose proof (Z.mod_pos_bound (Z.shiftr b i) 2). lia.
Qed.

(** A status call: one register read, then a field of its byte. *)
Lemma status_call_inv {W : World} (reg : Z) (field : Z → Z) (s : ADXL345 W) r s' :
  bind (read reg 1) (λ value, bind (lift (getitem value 0)) (λ b, ret (field b))) s
  = (r, s') →
  bus_writes (trace s') = bus_writes (trace s) ∧ config s' = config s
  ∧ bus_reads (trace s') = SpiRead 2 (Z.lor reg read_mask) :: bus_reads (trace s)
  ∧ match r with
    | Ret v =>
        ∃ b0 d1 b d2,
          xfer W (Z.lor reg read_mask) (cs_set W 0 (chip s)) = Some (b0, d1)
          ∧ xfer W (Z.lor reg read_mask) d1 = Some (b, d2)
          ∧ v = field b
    | Raise e => e = OSError
    | Spin => False
    end.
Proof.
  intros H. unfold bind at 1 in H.
  destruct (read reg 1 s) as [[value|e|] s1] eqn:E;
    apply read_1_inv in E as (Hconfig & Hwrites & Hreads & Hr).
  - destruct Hr as (b0 & d1 & b & d2 & E1 & E2 & -> & _).
    rewrite getitem_0 in H. run_core in H. injection H as <- <-.
    do 3 (split; [done|]). by eexists _, _, _, _.
  - by injection H as <- <-.
  - done.
Qed.

(** X8.  The three status calls [is_data_ready], [is_watermark_reached]
    and [get_nvalues_in_fifo] only read: none writes to the bus or changes
    the tracked configuration, each makes one two-byte read of its
    register, the only error is the one of the bus, and the value returned
    is 0 or 1 for the two flags and between 0 and 63 for the FIFO level. *)
Theorem status_calls_only_read {W : World} (s : ADXL345 W) :
  let only_reads (reg lo hi : Z) (run : outcome Z * ADXL345 W) :=
    bus_writes (trace run.2) = bus_writes (trace s)
    ∧ config run.2 = config s
    ∧ bus_reads (trace run.2) = SpiRead 2 (Z.lor reg read_mask) :: bus_reads (trace s)
    ∧ match run.1 with
      | Ret v => lo ≤ v ≤ hi
      | Raise e => e = OSError
      | Spin => False
      end in
  only_reads regaddr_intsource 0 1 (is_data_ready s)
  ∧ only_reads regaddr_intsource 0 1 (is_watermark_reached s)
  ∧ only_reads regaddr_fifostatus 0 63 (get_nvalues_in_fifo s).
Proof.
  cbv zeta. split; [|split].
  - destruct (is_data_ready s) as [r s'] eqn:E.
    apply (status_call_inv regaddr_intsource (λ b, Z.land (Z.shiftr b 7) 1)) in E
      as (Hw & Hc & Hr & Hv).
    do 3 (split; [done|]). cbn [fst]. destruct r as [v|e|]; [|done..].
    destruct Hv as (b0 & d1 & b & d2 & _ & _ & ->). apply bit_of_byte.
  - destruct (is_watermark_reached s) as [r s'] eqn:E.
    apply (status_call_inv regaddr_intsource (λ b, Z.land (Z.shiftr b 1) 1)) in E
      as (Hw & Hc & Hr & Hv).
    do 3 (split; [done|]). cbn [fst]. destruct r as [v|e|]; [|done..].
    destruct Hv as (b0 & d1 & b & d2 & _ & _ & ->). apply bit_of_byte.
  - destruct (get_nvalues_in_fifo s) as [r s'] eqn:E.
    apply (status_call_inv regaddr_fifostatus (λ b, Z.land b 0x3f)) in E
      as (Hw & Hc & Hr & Hv).
    do 3 (split; [done|]). cbn [fst]. destruct r as [v|e|]; [|done..].
    destruct Hv as (b0 & d1 & b & d2 & _ & _ & ->). apply land_0x3f_bounds.
Qed.

(** X9.  [is_spi_communcation_working] never writes to the bus and leaves
    the tracked configuration alone.  It returns [True] after one read of
    the identity register, exactly when the chip answered [0xE5]; it
    returns [False] after a second read of the same register (the one made
    for the message), when the first answer was something else; and when
    the bus fails, in the first read or in the second, it raises instead
    of returning [False]. *)
Theorem is_spi_communcation_working_outcomes {W : World} (s : ADXL345 W) r s' :
  is_spi_communcation_working s = (r, s') →
  bus_writes (trace s') = bus_writes (trace s) ∧ config s' = config s
  ∧ match r with
    | Ret answer =>
        ∃ b0 d1 b d2,
          xfer W (Z.lor regaddr_devid read_mask) (cs_set W 0 (chip s)) = Some (b0, d1)
          ∧ xfer W (Z.lor regaddr_devid read_mask) d1 = Some (b, d2)
          ∧ (answer = true ↔ b = device_id)
          ∧ bus_reads (trace s')
            = (if answer then [SpiRead 2 (Z.lor regaddr_devid read_mask)]
               else [SpiRead 2 (Z.lor regaddr_devid read_mask);
                     SpiRead 2 (Z.lor regaddr_devid read_mask)])
              ++ bus_reads (trace s)
    | Raise e => e = OSError
    | Spin => False
    end.
Proof.
  intros H. unfold is_spi_communcation_working in H. unfold bind at 1 in H.
  destruct (read regaddr_devid 1 s) as [[value|e|] s1] eqn:E;
    apply read_1_inv in E as (Hconfig & Hwrites & Hreads & Hr).
  - destruct Hr as (b0 & d1 & b & d2 & E1 & E2 & -> & _).
    unfold bind at 1 in H. rewrite getitem_0 in H. unfold lift in H.
    case_bool_decide as Hid.
    + run_core in H. injection H as <- <-. do 2 (split; [done|]).
      eexists _, _, _, _. by rewrite Hreads.
    + unfold bind at 1 in H.
      destruct (read regaddr_devid 1 s1) as [[value2|e|] s2] eqn:E';
        apply read_1_inv in E' as (Hconfig2 & Hwrites2 & Hreads2 & Hr2).
      * run_core in H. injection H as <- <-.
        split; [by rewrite <- Hwrites, <- Hwrites2|].
        split; [by rewrite <- Hconfig, <- Hconfig2|].
        eexists _, _, _, _. split; [done|]. split; [done|]. split; [done|].
        change (bus_reads (trace (with_event Print s2))) with (bus_reads (trace s2)).
        by rewrite Hreads2, Hreads.
      * injection H as <- <-. split; [congruence|]. split; [congruence|done].
      * done.
  - by injection H as <- <-.
  - done.
Qed.

Lemma is_spi_communcation_working_outcomes_witness :
  ∃ s', is_spi_communcation_working (configured (W:=tape) (Qc_of_Z 100) 2 [0; 1; 2; 3])
        = (Ret false, s')
    ∧ bus_writes (trace s') = []
    ∧ bus_reads (trace s') = [SpiRead 2 0x80; SpiRead 2 0x80].
Proof.
  eexists. split; [vm_compute; reflexivity|].
  destruct (is_spi_communcation_working_outcomes
              (configured (W:=tape) (Qc_of_Z 100) 2 [0; 1; 2; 3]) (Ret false) _
              ltac:(vm_compute; reflexivity))
    as (Hwrites & _ & b0 & d1 & b & d2 & _ & _ & _ & Hreads).
  split; [exact Hwrites|exact Hreads].
Defined.

(** ** The setters *)

(** The shape shared by [set_power_mode], [set_g_range] and
    [set_sampling_rate]: a message, the code of the value looked up in a
    dictionary, one write, and the attribute last. *)
Lemma setter_inv {W : World} `{Countable K} (codes : gmap K Z) (reg : Z)
    (update : ADXL345 W → ADXL345 W) (k : K) (s : ADXL345 W) r s' :
  bind print_
    (λ _, bind (lift (getitem_dict codes k))
            (λ v, bind (write reg v) (λ _, setattr update))) s = (r, s') →
  0 ≤ reg < 256 → map_Forall (λ _ v, 0 ≤ v < 256) codes →
  match codes !! k with
  | None => r = Raise KeyError ∧ s' = with_event Print s
  | Some v =>
      ∃ s1, config s1 = config s
        ∧ bus_writes (trace s1) = [reg; v] :: bus_writes (trace s)
        ∧ (r = Ret tt ∧ s' = update s1 ∨ r = Raise OSError ∧ s' = s1)
  end.
Proof.
  intros Hrun Hreg Hcodes.
  cbv beta iota zeta delta [bind print_ emit setattr lift getitem_dict] in Hrun.
  destruct (codes !! k) as [v|] eqn:Hk; [|by injection Hrun as <- <-].
  specialize (Hcodes k v Hk). cbn beta in Hcodes.
  destruct (write reg v (with_event Print s)) as [[[]|e|] s1] eqn:E;
    apply write_inv in E as (Hconfig & _ & _ & Hr);
    destruct (Hr Hreg Hcodes) as [Hwrites Hout]; injection Hrun as <- <-.
  - exists s1. split; [done|]. split; [done|]. by left.
  - exists s1. subst e. split; [done|]. split; [done|]. by right.
  - done.
Qed.

Lemma power_modes_bytes : map_Forall (λ _ v, 0 ≤ v < 256) power_modes.
Proof.
  unfold power_modes. cbn [list_to_map foldr fst snd].
  repeat (apply map_Forall_insert_2; [lia|]). apply map_Forall_empty.
Qed.

Lemma g_ranges_bytes : map_Forall (λ _ v, 0 ≤ v < 256) g_ranges.
Proof.
  unfold g_ranges. cbn [list_to_map foldr fst snd].
  repeat (apply map_Forall_insert_2; [lia|]). apply map_Forall_empty.
Qed.

Lemma device_sampling_rates_bytes :
  map_Forall (λ _ v, 0 ≤ v < 256) device_sampling_rates.
Proof.
  unfold device_sampling_rates. cbn [list_to_map foldr fst snd].
  repeat (apply map_Forall_insert_2; [lia|]). apply map_Forall_empty.
Qed.

(** X10.  [set_power_mode(mode)].  A mode that is not a key of
    [power_modes] raises [KeyError] before anything is sent, and the object
    keeps its configuration.  For a key, exactly one write goes out, of
    the code of the mode to the power register; the attribute [power_mode]
    is assigned only after the write has returned, so when the bus fails
    the object still shows the old mode. *)
Theorem set_power_mode_outcomes {W : World} (mode : string) (s : ADXL345 W) r s' :
  set_power_mode mode s = (r, s') →
  match power_modes !! mode with
  | None =>
      r = Raise KeyError ∧ bus_writes (trace s') = bus_writes (trace s)
      ∧ chip s' = chip s ∧ config s' = config s
  | Some v =>
      bus_writes (trace s') = [regaddr_pwr; v] :: bus_writes (trace s)
      ∧ match r with
        | Ret _ =>
            config s' = (Some mode, g_range s, sampling_rate s, fifo_mode s,
                         watermark_level s)
        | Raise e => e = OSError ∧ config s' = config s
        | Spin => False
        end
  end.
Proof.
  intros H.
  apply (setter_inv power_modes regaddr_pwr (with_power_mode mode)) in H;
    [|by compute|apply power_modes_bytes].
  destruct (power_modes !! mode) as [v|].
  - destruct H as (s1 & Hconfig & Hwrites & [[-> ->]|[-> ->]]).
    + split; [done|].
      unfold config in *. cbn [with_power_mode power_mode g_range sampling_rate
                                  fifo_mode watermark_level]. congruence.
    + by split.
  - by destruct H as [-> ->].
Qed.

Lemma set_power_mode_outcomes_witness :
  ∃ s', set_power_mode "measure" (configured (W:=tape) (Qc_of_Z 100) 2 [7])
        = (Raise OSError, s')
    ∧ bus_writes (trace s') = [[regaddr_pwr; 0x08]]
    ∧ OSError = OSError
    ∧ config s' = (None, Some 2, Some (Qc_of_Z 100), None, None).
Proof.
  eexists. split; [vm_compute; reflexivity|].
  apply (set_power_mode_outcomes "measure"
           (configured (W:=tape) (Qc_of_Z 100) 2 [7]) (Raise OSError)).
  vm_compute; reflexivity.
Defined.

(** X11.  [set_g_range(grange)], in the same way: a range that is not a
    key of [g_ranges] raises [KeyError] with nothing sent; for a key, one
    write of its code to the data-format register, and the attribute
    [g_range] assigned only when the write has returned. *)
Theorem set_g_range_outcomes {W : World} (grange : Z) (s : ADXL345 W) r s' :
  set_g_range grange s = (r, s') →
  match g_ranges !! grange with
  | None =>
      r = Raise KeyError ∧ bus_writes (trace s') = bus_writes (trace s)
      ∧ chip s' = chip s ∧ config s' = config s
  | Some v =>
      bus_writes (trace s') = [regaddr_grange; v] :: bus_writes (trace s)
      ∧ match r with
        | Ret _ =>
            config s' = (power_mode s, Some grange, sampling_rate s, fifo_mode s,
                         watermark_level s)
        | Raise e => e = OSError ∧ config s' = config s
        | Spin => False
        end
  end.
Proof.
  intros H.
  apply (setter_inv g_ranges regaddr_grange (with_g_range grange)) in H;
    [|by compute|apply g_ranges_bytes].
  destruct (g_ranges !! grange) as [v|].
  - destruct H as (s1 & Hconfig & Hwrites & [[-> ->]|[-> ->]]).
    + split; [done|].
      unfold config in *. cbn [with_g_range power_mode g_range sampling_rate
                                  fifo_mode watermark_level]. congruence.
    + by split.
  - by destruct H as [-> ->].
Qed.

Lemma set_g_range_outcomes_witness :
  ∃ s', set_g_range 8 (configured (W:=steady_chip 0) (Qc_of_Z 100) 2 steady_start)
        = (Ret tt, s')
    ∧ bus_writes (trace s') = [[regaddr_grange; 0x10]]
    ∧ config s' = (None, Some 8, Some (Qc_of_Z 100), None, None).
Proof.
  eexists. split; [vm_compute; reflexivity|].
  apply (set_g_range_outcomes 8
           (configured (W:=steady_chip 0) (Qc_of_Z 100) 2 steady_start) (Ret tt)).
  vm_compute; reflexivity.
Defined.

(** X12.  [set_sampling_rate(sr)] for a rate that is a key of
    [device_sampling_rates]: one write of its code to the rate register,
    and the attribute [sampling_rate] assigned only when the write has
    returned; the only error left is the one of the bus. *)
Theorem set_sampling_rate_accepts {W : World} (sr : Qc) (v : Z) (s : ADXL345 W) r s' :
  device_sampling_rates !! sr = Some v →
  set_sampling_rate sr s = (r, s') →
  bus_writes (trace s') = [regaddr_freq; v] :: bus_writes (trace s)
  ∧ match r with
    | Ret _ =>
        config s' = (power_mode s, g_range s, Some sr, fifo_mode s, watermark_level s)
    | Raise e => e = OSError ∧ config s' = config s
    | Spin => False
    end.
Proof.
  intros Hsr H.
  apply (setter_inv device_sampling_rates regaddr_freq (with_sampling_rate sr)) in H;
    [|by compute|apply device_sampling_rates_bytes].
  rewrite Hsr in H.
  destruct H as (s1 & Hconfig & Hwrites & [[-> ->]|[-> ->]]).
  - split; [done|].
    unfold config in *. cbn [with_sampling_rate power_mode g_range sampling_rate
                                fifo_mode watermark_level]. congruence.
  - by split.
Qed.

Lemma set_sampling_rate_accepts_witness :
  ∃ s', set_sampling_rate (Qc_of_Z 800)
          (configured (W:=steady_chip 0) (Qc_of_Z 100) 2 steady_start) = (Ret tt, s')
    ∧ bus_writes (trace s') = [[regaddr_freq; 0x0d]]
    ∧ config s' = (None, Some 2, Some (Qc_of_Z 800), None, None).
Proof.
  eexists. split; [vm_compute; reflexivity|].
  apply (set_sampling_rate_accepts (Qc_of_Z 800) 0x0d
           (configured (W:=steady_chip 0) (Qc_of_Z 100) 2 steady_start) (Ret tt));
    vm_compute; reflexivity.
Defined.

(** ** The FIFO settings *)

(** [set_fifo_mode] comes down to one [write], of a value that depends on
    the mode and on the level. *)
Lemma set_fifo_mode_run {W : World} (mode : string) (w : Z) (s : ADXL345 W) :
  set_fifo_mode mode w s
  = write regaddr_fifoctl
      (if bool_decide (mode = "bypass"%string) then 0x00
       else 4 * 2 ^ Z.max 5 (Z.log2 (Z.abs w) + 1) + Z.abs w)
      (with_event Print (with_watermark_level w (with_fifo_mode mode s))).
Proof.
  unfold set_fifo_mode. case_bool_decide; [reflexivity|].
  rewrite stream_control_byte_formula. reflexivity.
Qed.

(** [write] looks at the chip and at nothing else of the object. *)
Lemma write_frame {W : World} (regaddr the_byte : Z) (s1 s2 : ADXL345 W) :
  chip s1 = chip s2 → trace s1 = trace s2 →
  (write regaddr the_byte s1).1 = (write regaddr the_byte s2).1
  ∧ chip (write regaddr the_byte s1).2 = chip (write regaddr the_byte s2).2
  ∧ trace (write regaddr the_byte s1).2 = trace (write regaddr the_byte s2).2.
Proof.
  intros Hchip Htrace. unfold write, lift, bytearray_of.
  case_bool_decide; [|destruct (bytearray_overflow W _) as [[|b bytes]|e]];
    run_core; rewrite ?transfer_cons; rewrite Hchip.
  - run_core. case_xfer; [case_xfer|]; run_core; by rewrite Htrace.
  - cbn [transfer]. destruct (empty_transfer_ok W); run_core; by rewrite Htrace.
  - unfold on_chip. cbn [chip with_chip with_event].
    destruct (clock_bytes _ _) as [[bs|e|] d]; run_core; by rewrite Htrace.
  - by rewrite Htrace.
Qed.



(** X14.  [set_fifo_mode] does not check its mode: the [else] branch takes
    every string other than ['bypass'].  Such a call does on the bus what
    [set_fifo_mode('stream', w)] does, with the same outcome, and records
    the string it was given as [fifo_mode]. *)
Theorem set_fifo_mode_any_other_mode {W : World} (mode : string) (w : Z)
    (s : ADXL345 W) :
  mode ≠ "bypass"%string →
  (set_fifo_mode mode w s).1 = (set_fifo_mode "stream" w s).1
  ∧ trace (set_fifo_mode mode w s).2 = trace (set_fifo_mode "stream" w s).2
  ∧ chip (set_fifo_mode mode w s).2 = chip (set_fifo_mode "stream" w s).2
  ∧ fifo_mode (set_fifo_mode mode w s).2 = Some mode.
Proof.
  intros Hmode. rewrite !set_fifo_mode_run.
  rewrite (bool_decide_false (mode = _)) by done.
  rewrite (bool_decide_false ("stream"%string = _)) by discriminate.
  match goal with
  | |- context [write ?a ?b (with_event Print (with_watermark_level w (with_fifo_mode mode s)))] =>
      destruct (write_frame a b
                  (with_event Print (with_watermark_level w (with_fifo_mode mode s)))
                  (with_event Print (with_watermark_level w (with_fifo_mode "stream" s)))
                  eq_refl eq_refl) as (Hr & Hchip & Htrace);
      destruct (write a b (with_event Print (with_watermark_level w (with_fifo_mode mode s))))
        as [r s'] eqn:E
  end.
  apply write_inv in E as (Hconfig & _). cbn [fst snd] in *.
  do 3 (split; [done|]). unfold config in Hconfig. by injection Hconfig.
Qed.

Lemma set_fifo_mode_any_other_mode_witness :
  (set_fifo_mode "fifo" 8 (configured (W:=steady_chip 0) (Qc_of_Z 100) 2 steady_start)).1
  = (set_fifo_mode "stream" 8
       (configured (W:=steady_chip 0) (Qc_of_Z 100) 2 steady_start)).1
  ∧ trace (set_fifo_mode "fifo" 8
             (configured (W:=steady_chip 0) (Qc_of_Z 100) 2 steady_start)).2
    = trace (set_fifo_mode "stream" 8
               (configured (W:=steady_chip 0) (Qc_of_Z 100) 2 steady_start)).2
  ∧ chip (set_fifo_mode "fifo" 8
            (configured (W:=steady_chip 0) (Qc_of_Z 100) 2 steady_start)).2
    = chip (set_fifo_mode "stream" 8
              (configured (W:=steady_chip 0) (Qc_of_Z 100) 2 steady_start)).2
  ∧ fifo_mode (set_fifo_mode "fifo" 8
                 (configured (W:=steady_chip 0) (Qc_of_Z 100) 2 steady_start)).2
    = Some "fifo"%string.
Proof.
  apply (set_fifo_mode_any_other_mode "fifo" 8
           (configured (W:=steady_chip 0) (Qc_of_Z 100) 2 steady_start)).
  discriminate.
Defined.

(** X15.  [set_watermark_level(nrows)] is [set_fifo_mode('stream', nrows)]:
    the same outcome and the same object after the call, the trace of the
    calls made included, for every level. *)
Theorem set_watermark_level_is_stream_mode {W : World} (nrows : Z) (s : ADXL345 W) :
  set_watermark_level nrows s = set_fifo_mode "stream" nrows s.
Proof.
  rewrite set_fifo_mode_run. unfold set_watermark_level.
  rewrite stream_control_byte_formula. reflexivity.
Qed.

(** X16.  [clear_fifo()] switches the FIFO to bypass and back to stream
    with the default level: when it returns, the two control bytes [0x00]
    and [0x90] have been written in this order, and the object shows stream
    mode with a watermark level of 16, whatever level had been set before.
    It can fail only with the bus, and then the level shown is already
    16. *)
Theorem clear_fifo_outcomes {W : World} (s : ADXL345 W) r s' :
  clear_fifo s = (r, s') →
  match r with
  | Ret _ =>
      bus_writes (trace s')
      = [regaddr_fifoctl; 0x90] :: [regaddr_fifoctl; 0x00] :: bus_writes (trace s)
      ∧ config s' = (power_mode s, g_range s, sampling_rate s,
                     Some "stream"%string, Some 16)
  | Raise e => e = OSError ∧ watermark_level s' = Some 16
  | Spin => False
  end.
Proof.
  intros H. unfold clear_fifo, bind in H.
  rewrite set_fifo_mode_bypass in H.
  destruct (write _ _ _) as [[[]|e|] s1] eqn:E1 in H;
    apply write_inv in E1 as (Hconfig1 & _ & _ & Hr1);
    destruct (Hr1 ltac:(by compute) ltac:(by compute)) as [Hwrites1 Hout1];
    [| |done].
  - rewrite (set_fifo_mode_stream W 16 0x90) in H by reflexivity.
    destruct (write _ _ _) as [[[]|e|] s2] eqn:E2 in H;
      apply write_inv in E2 as (Hconfig2 & _ & _ & Hr2);
      destruct (Hr2 ltac:(by compute) ltac:(by compute)) as [Hwrites2 Hout2];
      [| |done]; injection H as <- <-.
    + split.
      * rewrite Hwrites2.
        change (bus_writes (trace (with_event Print (with_watermark_level 16
                                     (with_fifo_mode "stream" s1)))))
          with (bus_writes (trace s1)).
        by rewrite Hwrites1.
      * rewrite Hconfig2. unfold config in *.
        cbn [with_event with_watermark_level with_fifo_mode power_mode g_range
             sampling_rate fifo_mode watermark_level] in *. congruence.
    + split; [done|]. unfold config in Hconfig2. by injection Hconfig2.
  - injection H as <- <-.
    split; [done|]. unfold config in Hconfig1. by injection Hconfig1.
Qed.

Lemma clear_fifo_outcomes_witness :
  ∃ s', clear_fifo
          (with_watermark_level 31
             (configured (W:=steady_chip 0) (Qc_of_Z 100) 2 steady_start))
        = (Ret tt, s')
    ∧ bus_writes (trace s') = [[regaddr_fifoctl; 0x90]; [regaddr_fifoctl; 0x00]]
    ∧ config s' = (None, Some 2, Some (Qc_of_Z 100), Some "stream"%string, Some 16).
Proof.
  eexists. split; [vm_compute; reflexivity|].
  apply (clear_fifo_outcomes
           (with_watermark_level 31
              (configured (W:=steady_chip 0) (Qc_of_Z 100) 2 steady_start)) (Ret tt)).
  vm_compute; reflexivity.
Defined.

(** ** Reading a burst from the FIFO *)

Lemma bus_writes_cons (e : event) (tr : list event) :
  bus_writes (e :: tr)
  = match e with SpiWrite bs => bs :: bus_writes tr | _ => bus_writes tr end.
Proof. by destruct e. Qed.

Lemma bus_reads_cons (e : event) (tr : list event) :
  bus_reads (e :: tr)
  = match e with
    | SpiRead _ _ | SpiReadinto _ _ => e :: bus_reads tr
    | _ => bus_reads tr
    end.
Proof. by destruct e. Qed.

(** Normalise what a hypothesis says of the trace of an object. *)
Tactic Notation "traces" "in" hyp(H) :=
  unfold config in H;
  cbn [trace chip power_mode g_range sampling_rate fifo_mode watermark_level
       with_power_mode with_sampling_rate with_fifo_mode with_watermark_level
       with_g_range with_chip with_event] in H;
  rewrite ?bus_writes_cons, ?bus_reads_cons in H; cbn beta iota in H.
Ltac traces :=
  unfold config;
  cbn [trace chip power_mode g_range sampling_rate fifo_mode watermark_level
       with_power_mode with_sampling_rate with_fifo_mode with_watermark_level
       with_g_range with_chip with_event];
  rewrite ?bus_writes_cons, ?bus_reads_cons; cbn beta iota.

(** The loop of [read_many_xyz_fromfifo]: one fetch of seven bytes for
    each sample still to read, and nothing else on the bus. *)
Lemma read_many_xyz_fromfifo_while_inv {W : World} (fuel : nat) (n n_act : Z)
    (buf : list Z) (s : ADXL345 W) r s' :
  read_many_xyz_fromfifo_while fuel n (n_act, buf) s = (r, s') →
  0 ≤ n_act → 7 * n ≤ Z.of_nat (length buf) →
  bus_writes (trace s') = bus_writes (trace s) ∧ config s' = config s
  ∧ match r with
    | Ret (n_act', buf') =>
        n_act' = Z.max n_act n ∧ length buf' = length buf
        ∧ bus_reads (trace s')
          = replicate (Z.to_nat (n - n_act))
              (SpiReadinto 7 (Z.lor (Z.lor regaddr_acc read_mask) multibyte_mask))
            ++ bus_reads (trace s)
    | Raise e => e = OSError
    | Spin => (fuel < Z.to_nat (n - n_act))%nat
    end.
Proof.
  revert n_act buf s r s'.
  induction fuel as [|fuel IH]; intros n_act buf s r s' H Hn Hlen;
    cbn [read_many_xyz_fromfifo_while] in H; case_bool_decide as Hlt.
  - run in H. injection H as <- <-. do 2 (split; [done|]). lia.
  - run in H. injection H as <- <-. do 2 (split; [done|]).
    split; [lia|]. split; [done|].
    by replace (Z.to_nat (n - n_act)) with 0%nat by lia.
  - run in H. whole_frame in H. run in H.
    rewrite frame_slice_length in H by lia.
    case_clock; run in H; apply clock_bytes_inv in Eclock;
      cbn beta iota in Eclock; [|by injection H as <- <-|done].
    rewrite length_replicate in Eclock.
    apply IH in H as (Hw & Hc & Hr); [|lia|].
    2:{ rewrite !length_app, length_take, length_drop. lia. }
    traces in Hw. traces in Hc. do 2 (split; [done|]).
    destruct r as [[n_act' buf']|e|]; [|done|lia].
    destruct Hr as (-> & -> & Hreads). traces in Hreads.
    split; [lia|]. split.
    { rewrite !length_app, length_take, length_drop. unfold bytes_per_3axes. lia. }
    rewrite Hreads.
    replace (Z.to_nat (n - n_act)) with (S (Z.to_nat (n - (n_act + 1)))) by lia.
    by rewrite replicate_S_end, <- app_assoc.
  - run in H. injection H as <- <-. do 2 (split; [done|]).
    split; [lia|]. split; [done|].
    by replace (Z.to_nat (n - n_act)) with 0%nat by lia.
Qed.

Lemma read_many_xyz_fromfifo_while_total {W : World} (wait : dev W → nat)
    (clock : dev W → Z) (Hresp : responsive W wait clock) (n : Z) (k : nat) :
  ∀ n_act buf (s : ADXL345 W),
    Z.to_nat (n - n_act) = k → 0 ≤ n_act → 7 * n ≤ Z.of_nat (length buf) →
    ∃ st' s', read_many_xyz_fromfifo_while k n (n_act, buf) s = (Ret st', s')
      ∧ config s' = config s ∧ clock (chip s) ≤ clock (chip s').
Proof.
  induction k as [|k IH]; intros n_act buf s Hk Hn Hbuf.
  - exists (n_act, buf), s. cbn [read_many_xyz_fromfifo_while].
    rewrite bool_decide_false by lia. split; [done|]. split; [done|lia].
  - destruct (clock_bytes_up wait clock Hresp
                (replicate
                   (length (slice buf (n_act * (bytes_per_3axes + 1))
                              (n_act * (bytes_per_3axes + 1) + (bytes_per_3axes + 1))))
                   (Z.lor (Z.lor regaddr_acc read_mask) multibyte_mask))
                (cs_set W 0 (chip s))) as (bs & d1 & E1 & Hbs & Hc1).
    pose proof (clock_cs _ _ _ Hresp 0 (chip s)) as Hc0.
    pose proof (clock_cs _ _ _ Hresp 1 d1) as Hc2.
    rewrite length_replicate in Hbs.
    cbn [read_many_xyz_fromfifo_while]. rewrite bool_decide_true by lia.
    run_core. rewrite transfer_replicate by (rewrite frame_slice_length by lia; done).
    run_core. rewrite E1. run_core.
    match goal with
    | |- context [read_many_xyz_fromfifo_while k n (?n1, ?buf1) ?s1] =>
        destruct (IH n1 buf1 s1 ltac:(lia) ltac:(lia)
                    ltac:(by rewrite readinto_length))
          as (st' & s' & E & Hconfig & Hc)
    end.
    exists st', s'. rewrite E. run_core in Hc. split; [done|]. split; [done|lia].
Qed.

(** X17.  [read_many_xyz_fromfifo(n)] for n >= 0.  When it returns, the
    buffer has exactly 6n bytes; on the bus it has made n fetches of seven
    bytes from the data registers and nothing else: no poll of the data
    ready flag or of the FIFO level, and no write; the tracked
    configuration is as before.  On a world that answers, with the
    sampling rate set, it does return, its loop taking n iterations. *)
Theorem read_many_xyz_fromfifo_lengths {W : World} (n : Z) :
  0 ≤ n →
  (∀ (fuel : nat) (s : ADXL345 W) buf s',
     read_many_xyz_fromfifo fuel n s = (Ret buf, s') →
     length buf = Z.to_nat (6 * n)
     ∧ bus_reads (trace s')
       = replicate (Z.to_nat n) (SpiReadinto 7 0xF2) ++ bus_reads (trace s)
     ∧ bus_writes (trace s') = bus_writes (trace s)
     ∧ config s' = config s)
  ∧ (∀ wait clock (sr : Qc) (s : ADXL345 W),
       responsive W wait clock → sampling_rate s = Some sr → sr ≠ 0%Qc →
       ∃ buf s', read_many_xyz_fromfifo (Z.to_nat n) n s = (Ret buf, s')).
Proof.
  intros Hn. split.
  - intros fuel s buf s' H. unfold read_many_xyz_fromfifo, bytearray_zeros in H.
    rewrite bool_decide_false in H by (unfold bytes_per_3axes; lia).
    run in H.
    repeat (case_step H; run in H; try (by simplify_eq)).
    match goal with
    | E : read_many_xyz_fromfifo_while _ _ _ _ = _ |- _ =>
        apply read_many_xyz_fromfifo_while_inv in E as (Hw & Hc & _ & Hbuf & Hr);
          [|lia|rewrite length_replicate; unfold bytes_per_3axes; lia]
    end.
    rewrite length_replicate in Hbuf. traces in Hw. traces in Hc. traces in Hr.
    injection H as <- <-. split; [|split; [|split]].
    + match goal with
      | |- length (remove_first_bytes_from_bytearray_of_many_transactions ?b) = _ =>
          destruct (strip_length (Z.to_nat n) b) as [_ Hexact];
            [unfold bytes_per_3axes in Hbuf; lia|]
      end.
      rewrite Hexact; [lia|]. unfold bytes_per_3axes in Hbuf. lia.
    + traces. rewrite Hr, Z.sub_0_r. reflexivity.
    + traces. done.
    + traces. done.
  - intros wait clock sr s Hresp Hsr Hsr0.
    destruct (ticks_us_total wait clock Hresp s) as (s1 & E1 & Hconfig1 & Hclock1).
    destruct (read_many_xyz_fromfifo_while_total wait clock Hresp n (Z.to_nat n) 0
                (replicate (Z.to_nat ((bytes_per_3axes + 1) * n)) 0) s1
                ltac:(f_equal; lia) ltac:(lia)
                ltac:(rewrite length_replicate; unfold bytes_per_3axes; lia))
      as ([n_act buf] & s2 & E2 & Hconfig2 & Hclock2).
    destruct (ticks_us_total wait clock Hresp s2) as (s3 & E3 & Hconfig3 & Hclock3).
    assert (Hsr3 : sampling_rate s3 = Some sr).
    { assert (config s3 = config s) as Hc by congruence.
      unfold config in Hc. injection Hc as _ _ Hc _ _. congruence. }
    eexists _, _. unfold read_many_xyz_fromfifo, bytearray_zeros.
    rewrite bool_decide_false by (unfold bytes_per_3axes; lia).
    cbv beta iota zeta delta [bind lift]. rewrite E1, E2, E3.
    cbv beta iota zeta delta [getattr]. rewrite Hsr3.
    unfold truediv. rewrite bool_decide_false by done.
    rewrite bool_decide_false by (apply seconds_nonzero; lia).
    cbv beta iota zeta delta [print_ emit setattr ret]. reflexivity.
Qed.

Lemma read_many_xyz_fromfifo_lengths_witness :
  (∃ buf s',
     read_many_xyz_fromfifo 3 3 (configured (W:=steady_chip 8) (Qc_of_Z 100) 2 steady_start)
     = (Ret buf, s')
     ∧ length buf = 18%nat
     ∧ bus_reads (trace s') = replicate 3 (SpiReadinto 7 0xF2)
     ∧ bus_writes (trace s') = [])
  ∧ (∃ buf s',
       read_many_xyz_fromfifo 3 3
         (configured (W:=steady_chip 8) (Qc_of_Z 100) 2 steady_start) = (Ret buf, s')).
Proof.
  destruct (read_many_xyz_fromfifo_lengths (W:=steady_chip 8) 3 ltac:(lia))
    as [Hlen Htotal].
  split.
  - eexists _, _. split; [vm_compute; reflexivity|].
    destruct (Hlen 3%nat (configured (W:=steady_chip 8) (Qc_of_Z 100) 2 steady_start)
                _ _ ltac:(vm_compute; reflexivity)) as (H1 & H2 & H3 & _).
    split; [exact H1|]. split; [exact H2|exact H3].
  - apply (Htotal (λ _, 0%nat) steady_clock (Qc_of_Z 100)).
    + apply steady_responsive. by compute.
    + reflexivity.
    + done.
Defined.

(** ** What the acquisitions do to the settings *)

(** The polling loop only reads. *)
Lemma polled_while_quiet {W : World} (fuel : nat) (n : Z) st (s : ADXL345 W) r s' :
  polled_while fuel n st s = (r, s') →
  bus_writes (trace s') = bus_writes (trace s) ∧ config s' = config s.
Proof.
  revert st s r s'.
  induction fuel as [|fuel IH]; intros [[n_act buf] T] s r s' H;
    cbn [polled_while] in H; case_bool_decide as Hlt;
    try (run in H; by injection H as <- <-).
  run in H. case_xfer; [|by injection H as <- <-]. run in H.
  case_xfer; [|by injection H as <- <-]. run in H.
  rewrite getitem_1 in H. run in H.
  case_bool_decide as Hready.
  { apply IH in H as [Hw Hc]. traces in Hw. traces in Hc. done. }
  run in H. case_transfer; traces in Hconfig; run in H;
    [|injection H as <- <-; by rewrite Htrace..].
  case_ticks. run in H.
  destruct (setitem T n_act t) as [T'|e'|]; run in H;
    [|injection H as <- <-; traces; by rewrite Htrace..].
  apply IH in H as [Hw Hc]. traces in Hw. traces in Hc.
  rewrite Htrace in Hw. traces in Hw. split; [done|unfold config; congruence].
Qed.

Lemma fromfifo_for_quiet {W : World} (k : nat) st (s : ADXL345 W) r s' :
  fromfifo_for k st s = (r, s') →
  bus_writes (trace s') = bus_writes (trace s) ∧ config s' = config s.
Proof.
  revert st s r s'. induction k as [|k IH]; intros [n_act buf] s r s' H;
    cbn [fromfifo_for] in H.
  - run in H. by injection H as <- <-.
  - run in H. case_transfer; traces in Hconfig; run in H;
      [|injection H as <- <-; by rewrite Htrace..].
    apply IH in H as [Hw Hc]. traces in Hw. traces in Hc.
    rewrite Htrace in Hw. traces in Hw. split; [done|unfold config; congruence].
Qed.

Lemma fromfifo_while_quiet {W : World} (fuel : nat) (n : Z) st (s : ADXL345 W) r s' :
  fromfifo_while fuel n st s = (r, s') →
  bus_writes (trace s') = bus_writes (trace s) ∧ config s' = config s.
Proof.
  revert st s r s'.
  induction fuel as [|fuel IH]; intros [n_act buf] s r s' H;
    cbn [fromfifo_while fst] in H; case_bool_decide as Hlt;
    try (run in H; by injection H as <- <-).
  unfold bind at 1 in H. unfold fromfifo_poll, bind at 1 in H.
  destruct (get_nvalues_in_fifo s) as [[k|e|] s1] eqn:Epoll;
    apply (status_call_inv regaddr_fifostatus (λ b, Z.land b 0x3f)) in Epoll
      as (Hw1 & Hc1 & _).
  - destruct (fromfifo_for (Z.to_nat k) (n_act, buf) s1) as [[st2|e|] s2] eqn:Efor;
      apply fromfifo_for_quiet in Efor as [Hw2 Hc2].
    + apply IH in H as [Hw Hc]. split; congruence.
    + injection H as <- <-. split; congruence.
    + injection H as <- <-. split; congruence.
  - by injection H as <- <-.
  - by injection H as <- <-.
Qed.

Lemma truediv_raises (a b : Qc) (e : exn) :
  truediv a b = Raise e → e = ZeroDivisionError ∧ b = 0%Qc.
Proof. unfold truediv. case_bool_decide; [|done]. intros. by simplify_eq. Qed.

(** X18.  [read_many_xyz(n)] only reads: whatever its outcome, it has
    written nothing on the bus and the tracked configuration is as before
    (the power mode and the FIFO mode are the caller's business).  Of the
    errors it can raise, [ValueError] means a negative n, met before any
    call on the bus, and [AttributeError] means that no sampling rate has
    ever been set; no index or key error comes out of it. *)
Theorem read_many_xyz_only_reads {W : World} (fuel : nat) (n : Z) (s : ADXL345 W)
    r s' :
  read_many_xyz fuel n s = (r, s') →
  bus_writes (trace s') = bus_writes (trace s) ∧ config s' = config s
  ∧ match r with
    | Raise ValueError => n < 0 ∧ trace s' = trace s
    | Raise AttributeError => sampling_rate s = None
    | Raise IndexError | Raise KeyError => False
    | _ => True
    end.
Proof.
  intros H. unfold read_many_xyz, bytearray_zeros in H. case_bool_decide as Hneg.
  { run in H. injection H as <- <-. do 2 (split; [done|]).
    split; [unfold bytes_per_3axes in Hneg; lia|done]. }
  assert (Hn : 0 ≤ n) by (unfold bytes_per_3axes in Hneg; lia).
  run in H. unfold spi_read in H.
  rewrite transfer_replicate in H by (by vm_compute). run_core in H.
  repeat (case_step H; run in H).
  all: try match goal with
    | E : polled_while _ _ _ _ = _ |- _ =>
        pose proof (polled_while_quiet _ _ _ _ _ _ E) as [Hw Hc];
        apply polled_while_inv in E;
          [|rewrite length_replicate; pose proof (int_times_1_5_ge n); lia|lia
           |rewrite length_replicate; unfold bytes_per_3axes; lia];
        traces in Hw; traces in Hc
    end.
  all: injection H as <- <-; traces.
  all: try (split; [done|]); try (split; [done|]); try done.
  all: try (split; [congruence|]); try (split; [congruence|]); try congruence.
  all: try (by subst).
  all: try match goal with
    | E : truediv _ _ = Raise _ |- _ => by apply truediv_raises in E as [-> _]
    | E : clock_bytes _ _ = (Raise _, _) |- _ =>
        apply clock_bytes_inv in E; cbn beta iota in E; by subst
    end.
Qed.

Lemma read_many_xyz_only_reads_witness :
  ∃ r s',
    read_many_xyz 3 3 (configured (W:=steady_chip 32) (Qc_of_Z 100) 2 steady_start)
    = (r, s')
    ∧ bus_writes (trace s') = []
    ∧ config s' = (None, Some 2, Some (Qc_of_Z 100), None, None).
Proof.
  eexists _, _. split; [vm_compute; reflexivity|].
  destruct (read_many_xyz_only_reads 3 3
              (configured (W:=steady_chip 32) (Qc_of_Z 100) 2 steady_start) _ _
              ltac:(vm_compute; reflexivity)) as (Hw & Hc & _).
  split; [exact Hw|exact Hc].
Defined.

(** The settings that the fixed-duration acquisitions make, run. *)
Tactic Notation "settings" "in" hyp(H) :=
  unfold clear_fifo, set_fifo_mode, set_power_mode in H;
  rewrite ?stream_is_not_bypass, ?bypass_is_bypass, ?stream_control_byte_16,
    ?power_modes_measure, ?power_modes_standby in H;
  run in H;
  rewrite ?(bytearray_of_bytes _ regaddr_fifoctl 0x90),
    ?(bytearray_of_bytes _ regaddr_fifoctl 0x00),
    ?(bytearray_of_bytes _ regaddr_pwr 0x08),
    ?(bytearray_of_bytes _ regaddr_pwr 0x00) in H by (by compute);
  run in H.

(** X19.  What [read_continuos_xyz] leaves behind when it gets past its
    loop (it returns, or one of the diagnostics of the end raises): three
    writes on the bus, in this order: FIFO control [0x00] (bypass), power
    control [0x08] (measure), power control [0x00] (standby); and an
    object that shows standby, bypass mode and a watermark level of 16,
    whatever FIFO mode and level the caller had set.  The range and the
    sampling rate are as before. *)
Theorem read_continuos_xyz_footprint {W : World} (fuel : nat) (t : Qc)
    (s : ADXL345 W) r s' :
  read_continuos_xyz fuel t s = (r, s') → after_loop r →
  bus_writes (trace s')
  = [regaddr_pwr; 0x00] :: [regaddr_pwr; 0x08] :: [regaddr_fifoctl; 0x00]
    :: bus_writes (trace s)
  ∧ config s' = (Some "standby"%string, g_range s, sampling_rate s,
                 Some "bypass"%string, Some 16).
Proof.
  intros H Hafter. unfold read_continuos_xyz, bytearray_zeros, int_mul in H.
  settings in H.
  repeat (case_step H; reduce in H; try (simplify_eq; by cbn in Hafter)).
  all: try match goal with
    | E : polled_while _ _ _ _ = (Raise _, _) |- _ =>
        match goal with
        | Hneg : bool_decide (int_times_1_5 _ < 0) = false |- _ =>
            apply bool_decide_eq_false, int_times_1_5_frames in Hneg as [Hn Hframes]
        end;
        apply polled_while_inv in E;
          [|rewrite length_replicate; pose proof (int_times_1_5_ge _ Hn); lia|lia
           |rewrite length_replicate; lia];
        simplify_eq; by cbn in Hafter
    end.
  all: match goal with
    | E : polled_while _ _ _ _ = _ |- _ =>
        apply polled_while_quiet in E as [Hw Hc]; traces in Hw; traces in Hc
    end.
  all: injection H as <- <-; traces; rewrite Hw; split; [done|congruence].
Qed.

Lemma read_continuos_xyz_footprint_witness :
  ∃ r s',
    read_continuos_xyz 5 (Q2Qc (3 # 100))
      (with_watermark_level 31
         (with_fifo_mode "stream"
            (configured (W:=steady_chip 32) (Qc_of_Z 100) 2 steady_start))) = (r, s')
    ∧ after_loop r
    ∧ bus_writes (trace s')
      = [[regaddr_pwr; 0x00]; [regaddr_pwr; 0x08]; [regaddr_fifoctl; 0x00]]
    ∧ config s' = (Some "standby"%string, Some 2, Some (Qc_of_Z 100),
                   Some "bypass"%string, Some 16).
Proof.
  eexists _, _. split; [vm_compute; reflexivity|]. split; [exact I|].
  eapply (read_continuos_xyz_footprint 5 (Q2Qc (3 # 100))
            (with_watermark_level 31
               (with_fifo_mode "stream"
                  (configured (W:=steady_chip 32) (Qc_of_Z 100) 2 steady_start)))).
  - vm_compute. reflexivity.
  - exact I.
Defined.

(** X20.  What [read_continuos_xyz_fromfifo] leaves behind when it gets
    past its loop: five writes on the bus, in this order: FIFO control
    [0x90] (stream, level 16), power control [0x08] (measure), FIFO
    control [0x00] and [0x90] again (the FIFO cleared), power control
    [0x00] (standby); and an object that shows standby, stream mode and a
    watermark level of 16, whatever level the caller had set. *)
Theorem read_continuos_xyz_fromfifo_footprint {W : World} (fuel : nat) (t : Qc)
    (s : ADXL345 W) (r : outcome (list Z * list Qc)) s' :
  read_continuos_xyz_fromfifo fuel t s = (r, s') → after_loop r →
  bus_writes (trace s')
  = [regaddr_pwr; 0x00] :: [regaddr_fifoctl; 0x90] :: [regaddr_fifoctl; 0x00]
    :: [regaddr_pwr; 0x08] :: [regaddr_fifoctl; 0x90] :: bus_writes (trace s)
  ∧ config s' = (Some "standby"%string, g_range s, sampling_rate s,
                 Some "stream"%string, Some 16).
Proof.
  intros H Hafter. unfold read_continuos_xyz_fromfifo, bytearray_zeros, int_mul in H.
  settings in H.
  repeat (case_step H; reduce in H; try (simplify_eq; by cbn in Hafter)).
  all: try match goal with
    | E : fromfifo_while _ _ _ _ = (Raise _, _) |- _ =>
        apply (fromfifo_while_inv 63) in E;
          [destruct E as [->|[-> _]]; simplify_eq; by cbn in Hafter|];
        intros s0 k s1 Hk; apply get_nvalues_in_fifo_inv in Hk; cbn in Hk; lia
    end.
  all: match goal with
    | E : fromfifo_while _ _ _ _ = _ |- _ =>
        apply fromfifo_while_quiet in E as [Hw Hc]; traces in Hw; traces in Hc
    end.
  all: injection H as <- <-; traces; rewrite Hw; split; [done|congruence].
Qed.

Lemma read_continuos_xyz_fromfifo_footprint_witness :
  ∃ r s',
    read_continuos_xyz_fromfifo 5 (Q2Qc (3 # 100))
      (with_watermark_level 31
         (configured (W:=steady_chip 32) (Qc_of_Z 100) 2 steady_start)) = (r, s')
    ∧ after_loop r
    ∧ bus_writes (trace s')
      = [[regaddr_pwr; 0x00]; [regaddr_fifoctl; 0x90]; [regaddr_fifoctl; 0x00];
         [regaddr_pwr; 0x08]; [regaddr_fifoctl; 0x90]]
    ∧ config s' = (Some "standby"%string, Some 2, Some (Qc_of_Z 100),
                   Some "stream"%string, Some 16).
Proof.
  eexists _, _. split; [vm_compute; reflexivity|]. split; [exact I|].
  eapply (read_continuos_xyz_fromfifo_footprint 5 (Q2Qc (3 # 100))
            (with_watermark_level 31
               (configured (W:=steady_chip 32) (Qc_of_Z 100) 2 steady_start))).
  - vm_compute. reflexivity.
  - exact I.
Defined.

(** ** Polled mode for a fixed duration *)

Lemma seconds_0 : seconds 0 = 0%Qc.
Proof. unfold seconds. apply Qcmult_0_l. Qed.

Lemma getitem_first {A} (l : list A) (x : A) : getitem l 0 = Ret x → l !! 0%nat = Some x.
Proof.
  unfold getitem. rewrite (bool_decide_false (0 < 0)) by lia.
  rewrite bool_decide_true by lia. change (Z.to_nat 0) with 0%nat. destruct (l !! 0%nat); by intros; simplify_eq.
Qed.

Lemma getitem_last {A} (l : list A) (x : A) : getitem l (-1) = Ret x → last l = Some x.
Proof.
  unfold getitem. rewrite (bool_decide_true (-1 < 0)) by lia.
  case_bool_decide as Hlen; [|done].
  replace (Z.to_nat (Z.of_nat (length l) + -1)) with (pred (length l)) by lia.
  rewrite <- last_lookup. destruct (last l); by intros; simplify_eq.
Qed.

(** X21.  [read_continuos_xyz] returns only when at least two samples were
    asked for: with n the target, [int(acquisition_time * sampling_rate)]
    as the interpreter computes it, a return means that n >= 2, that the
    buffer has 6n bytes and the timestamp list n entries, and that the
    first and the last timestamp differ.  (With n = 0 the last timestamp
    does not exist, with n = 1 the measured duration is zero and the
    division by it raises.) *)
Theorem read_continuos_xyz_returns {W : World} (fuel : nat) (t : Qc)
    (s : ADXL345 W) buf T s' :
  read_continuos_xyz fuel t s = (Ret (buf, T), s') →
  ∃ sr n, sampling_rate s = Some sr ∧ int_of_product W t sr = Some n
    ∧ 2 ≤ n
    ∧ length buf = Z.to_nat (6 * n)
    ∧ length T = Z.to_nat n
    ∧ T !! 0%nat ≠ last T.
Proof.
  intros H. unfold read_continuos_xyz, bytearray_zeros, int_mul in H.
  settings in H.
  repeat (case_step H; reduce in H; try (by simplify_eq)).
  match goal with
  | Hneg : bool_decide (int_times_1_5 _ < 0) = false |- _ =>
      apply bool_decide_eq_false, int_times_1_5_frames in Hneg as [Hn Hframes]
  end.
  match goal with
  | E : polled_while _ _ _ _ = _ |- _ =>
      apply polled_while_inv in E as (Hact & Hbuf & HT);
        [|rewrite length_replicate; pose proof (int_times_1_5_ge _ Hn); lia|lia
         |rewrite length_replicate; lia]
  end.
  rewrite length_replicate in Hbuf, HT.
  match goal with
  | E : getitem _ (-1) = Ret _ |- _ => apply getitem_last in E as Hlast
  end.
  match goal with
  | E : getitem _ 0 = Ret _ |- _ => apply getitem_first in E as Hfirst
  end.
  match goal with
  | E : truediv _ (seconds (?a - ?b)) = Ret _ |- _ =>
      assert (Hdiff : a ≠ b);
        [intros ->; rewrite Z.sub_diag, seconds_0 in E; unfold truediv in E;
         by rewrite bool_decide_true in E|]
  end.
  injection H as <- <- <-. eexists _, _. split; [reflexivity|]. split; [eassumption|].
  match goal with
  | Hmax : ?k = 0 `max` ?n |- _ => assert (k = n) as -> by lia; clear Hmax
  end.
  match goal with
  | |- context [slice ?stamps 0 ?n !! _] =>
      assert (Hlen : length (slice stamps 0 n) = Z.to_nat n);
        [rewrite slice_length, HT; pose proof (int_times_1_5_ge n Hn); lia|];
      destruct (slice stamps 0 n) as [|x [|y T]] eqn:Estamps
  end.
  - done.
  - cbn in Hlast, Hfirst. congruence.
  - split; [cbn in Hlen; lia|]. split; [apply stripped_slice_length; [done|lia]|].
    split; [done|]. rewrite Hfirst, Hlast. congruence.
Qed.

Lemma read_continuos_xyz_returns_witness :
  ∃ buf T s',
    read_continuos_xyz 5 (Q2Qc (3 # 100))
      (configured (W:=steady_chip 32) (Qc_of_Z 100) 2 steady_start)
    = (Ret (buf, T), s')
    ∧ ∃ sr n, Some (Qc_of_Z 100) = Some sr
        ∧ int_of_product (steady_chip 32) (Q2Qc (3 # 100)) sr = Some n
        ∧ 2 ≤ n
        ∧ length buf = Z.to_nat (6 * n)
        ∧ length T = Z.to_nat n
        ∧ T !! 0%nat ≠ last T.
Proof.
  eexists _, _, _. split; [vm_compute; reflexivity|].
  eapply (read_continuos_xyz_returns 5 (Q2Qc (3 # 100))
            (configured (W:=steady_chip 32) (Qc_of_Z 100) 2 steady_start)).
  vm_compute. reflexivity.
Defined.

(** ** The timestamps of the polled modes *)

Section Stamps.
Context {W : World} (wait : dev W → nat) (clock : dev W → Z).
Context (Hresp : responsive W wait clock).
Implicit Types (s : ADXL345 W) (d : dev W) (buf T : list Z).

Lemma clock_bytes_clock (out : list Z) d r d' :
  clock_bytes out d = (r, d') → clock d ≤ clock d'.
Proof.
  intros H. destruct (clock_bytes_up wait clock Hresp out d) as (bs & d1 & E & _ & Hc).
  rewrite E in H. by injection H as <- <-.
Qed.

Lemma transfer_clock (out : list Z) s r s' :
  transfer out s = (r, s') → clock (chip s) ≤ clock (chip s').
Proof.
  destruct out as [|w out].
  - cbn [transfer]. destruct (empty_transfer_ok W); intros [= <- <-]; lia.
  - rewrite transfer_cons. unfold on_chip.
    destruct (clock_bytes (w :: out) (chip s)) as [r1 d1] eqn:E.
    intros [= <- <-]. cbn [chip with_chip]. by eapply clock_bytes_clock.
Qed.

(** The loop stamps each sample it accepts with a clock value later than
    every stamp before. *)
Lemma polled_while_stamps (fuel : nat) (n n_act lo : Z) buf T s n_act' buf' T' s' :
  polled_while fuel n (n_act, buf, T) s = (Ret (n_act', buf', T'), s') →
  0 ≤ n_act ≤ n → n ≤ Z.of_nat (length T) → lo ≤ clock (chip s) →
  (∀ i j x y, (i < j < Z.to_nat n_act)%nat →
     T !! i = Some x → T !! j = Some y → x < y) →
  (∀ i x, (i < Z.to_nat n_act)%nat → T !! i = Some x → lo ≤ x < clock (chip s)) →
  (∀ i j x y, (i < j < Z.to_nat n)%nat →
     T' !! i = Some x → T' !! j = Some y → x < y)
  ∧ (∀ i x, (i < Z.to_nat n)%nat → T' !! i = Some x → lo ≤ x < clock (chip s'))
  ∧ clock (chip s) ≤ clock (chip s').
Proof.
  revert n_act buf T s.
  induction fuel as [|fuel IH]; intros n_act buf T s H Hact HT Hlo Hsorted Hbounds;
    cbn [polled_while] in H; case_bool_decide as Hlt.
  - run in H. done.
  - run in H. injection H as <- <- <- <-.
    assert (n_act = n) as -> by lia. done.
  - run in H. case_xfer; [|done]. run in H. case_xfer; [|done]. run in H.
    rewrite getitem_1 in H. run in H.
    pose proof (clock_cs _ _ _ Hresp 0 (chip s)) as Hc0.
    pose proof (clock_xfer _ _ _ Hresp _ _ _ _ Exfer) as Hc1.
    pose proof (clock_xfer _ _ _ Hresp _ _ _ _ Exfer0) as Hc2.
    pose proof (clock_cs _ _ _ Hresp 1 d0) as Hc3.
    case_bool_decide as Hready.
    { apply IH in H as (Hs & Hb & Hc); [|done|done|run_core; lia|done|].
      - run_core in Hc. split; [done|]. split; [done|lia].
      - intros i x Hi Hx. run_core. specialize (Hbounds i x Hi Hx). lia. }
    run in H.
    destruct (transfer _ _) as [[bs|e|] s1] eqn:Etransfer in H; [|done..].
    apply transfer_clock in Etransfer as Hc5. run_core in Hc5. run in H.
    pose proof (clock_cs _ _ _ Hresp 0 (cs_set W 1 d0)) as Hc4.
    pose proof (clock_cs _ _ _ Hresp 1 (chip s1)) as Hc6.
    destruct (clock_ticks _ _ _ Hresp (cs_set W 1 (chip s1))) as [Hnow Hnext].
    case_ticks. cbn [fst snd] in Hnow, Hnext. run in H.
    rewrite setitem_in_range in H by lia. run in H.
    assert (Hk : Z.to_nat (n_act + 1) = S (Z.to_nat n_act)) by lia.
    assert (Hin : (Z.to_nat n_act < length T)%nat) by lia.
    apply IH in H as (Hs & Hb & Hc); [|lia|rewrite length_insert; lia|run_core; lia| |].
    + run_core in Hc. split; [done|]. split; [done|lia].
    + intros i j x y Hij Hx Hy. rewrite Hk in Hij.
      rewrite list_lookup_insert_ne in Hx by lia.
      destruct (decide (j = Z.to_nat n_act)) as [->|Hj].
      * rewrite list_lookup_insert_eq in Hy by done. injection Hy as <-.
        specialize (Hbounds i x ltac:(lia) Hx). lia.
      * rewrite list_lookup_insert_ne in Hy by done.
        apply (Hsorted i j); [lia|done..].
    + intros i x Hi Hx. rewrite Hk in Hi. run_core.
      destruct (decide (i = Z.to_nat n_act)) as [->|Hne].
      * rewrite list_lookup_insert_eq in Hx by done. injection Hx as <-. lia.
      * rewrite list_lookup_insert_ne in Hx by done.
        specialize (Hbounds i x ltac:(lia) Hx). lia.
  - run in H. injection H as <- <- <- <-.
    assert (n_act = n) as -> by lia. done.
Qed.

Lemma slice_0_lookup {A} (l : list A) (n : Z) (i : nat) (x : A) :
  slice l 0 n !! i = Some x → (i < Z.to_nat n)%nat ∧ l !! i = Some x.
Proof.
  unfold slice. rewrite Z.sub_0_r. change (Z.to_nat 0) with 0%nat.
  rewrite drop_0, lookup_take_Some. tauto.
Qed.

Lemma read_many_xyz_stamps (fuel : nat) (n : Z) s buf T s' :
  read_many_xyz fuel n s = (Ret (buf, T), s') →
  (∀ i j x y, (i < j)%nat → T !! i = Some x → T !! j = Some y → x < y)
  ∧ (∀ i x, T !! i = Some x → clock (chip s) ≤ x < clock (chip s')).
Proof.
  intros H. unfold read_many_xyz, bytearray_zeros in H.
  case_bool_decide as Hneg; [by run in H|].
  assert (Hn : 0 ≤ n) by (unfold bytes_per_3axes in Hneg; lia).
  cbv beta iota zeta delta [bind lift] in H.
  destruct (clear_isdataready_total wait clock Hresp s) as (s1 & E1 & _ & Hc1).
  rewrite E1 in H.
  destruct (ticks_us_total wait clock Hresp s1) as (s2 & E2 & _ & Hc2).
  rewrite E2 in H. cbv beta iota in H.
  destruct (polled_while fuel n _ s2) as [[[[n_act buf'] T']|e|] s3] eqn:E3;
    [|done..].
  apply (polled_while_stamps _ _ _ (clock (chip s))) in E3 as (Hs & Hb & Hc3);
    [|lia|rewrite length_replicate; pose proof (int_times_1_5_ge n); lia|lia
     |intros; lia|intros; lia].
  destruct (ticks_us_total wait clock Hresp s3) as (s4 & E4 & _ & Hc4).
  rewrite E4 in H. run in H.
  repeat (case_step H; run in H; try done). injection H as <- <- <-.
  split.
  - intros i j x y Hij [Hi Hx]%slice_0_lookup [Hj Hy]%slice_0_lookup.
    apply (Hs i j); [lia|done..].
  - intros i x [Hi Hx]%slice_0_lookup. run_core.
    specialize (Hb i x Hi Hx). lia.
Qed.

Lemma read_continuos_xyz_stamps (fuel : nat) (t : Qc) s buf T s' :
  read_continuos_xyz fuel t s = (Ret (buf, T), s') →
  (∀ i j x y, (i < j)%nat → T !! i = Some x → T !! j = Some y → x < y)
  ∧ (∀ i x, T !! i = Some x → clock (chip s) ≤ x < clock (chip s')).
Proof.
  intros H. unfold read_continuos_xyz, bytearray_zeros, int_mul in H.
  cbv beta iota zeta delta [bind lift getattr print_ gc_collect emit setattr] in H.
  destruct (sampling_rate s) as [sr|] eqn:Hsr; [|done].
  destruct (g_range s) as [grange|] eqn:Hgr; [|done].
  cbv beta iota zeta in H.
  destruct (int_of_product W t sr) as [n|] eqn:Hprod; [|done].
  case_bool_decide as Hneg; [done|].
  apply int_times_1_5_frames in Hneg as [Hn Hframes].
  destruct (set_fifo_mode_total wait clock Hresp "bypass" (with_event Print s))
    as (s1 & E1 & Hc1).
  rewrite E1 in H. cbv beta iota zeta in H.
  destruct (set_power_mode_total wait clock Hresp "measure" 0x08
              (with_event GcCollect s1)) as (s2 & E2 & Hc2); [done|lia|].
  rewrite E2 in H. cbv beta iota zeta in H.
  destruct (polled_while fuel _ _ s2) as [[[[n_act buf'] T']|e|] s3] eqn:E3;
    [|done..].
  pose proof (polled_while_inv _ _ _ _ _ _ _ _ E3) as (Hact & _);
    [rewrite length_replicate; pose proof (int_times_1_5_ge _ Hn); lia|lia
    |rewrite length_replicate; lia|].
  apply (polled_while_stamps _ _ _ (clock (chip s))) in E3 as (Hs & Hb & Hc3);
    [|lia|rewrite length_replicate; pose proof (int_times_1_5_ge _ Hn); lia
     |run_core in Hc1; run_core in Hc2; lia|intros; lia|intros; lia].
  destruct (set_power_mode_total wait clock Hresp "standby" 0x00 s3)
    as (s4 & E4 & Hc4); [done|lia|].
  rewrite E4 in H. run in H.
  repeat (case_step H; run in H; try done). injection H as <- <- <-.
  split.
  - intros i j x y Hij [Hi Hx]%slice_0_lookup [Hj Hy]%slice_0_lookup.
    apply (Hs i j); [lia|done..].
  - intros i x [Hi Hx]%slice_0_lookup. run_core.
    specialize (Hb i x ltac:(lia) Hx). lia.
Qed.

Lemma getitem_last_ret {A} (l : list A) (z : A) :
  last l = Some z → getitem l (-1) = Ret z.
Proof.
  intros Hlast. unfold getitem. rewrite (bool_decide_true (-1 < 0)) by lia.
  assert (length l ≠ 0%nat) by (by destruct l).
  rewrite bool_decide_true by lia.
  replace (Z.to_nat (Z.of_nat (length l) + -1)) with (pred (length l)) by lia.
  by rewrite <- last_lookup, Hlast.
Qed.

(** What [read_continuos_xyz] comes to on a world that answers, by the
    number of samples asked for. *)
Lemma read_continuos_xyz_by_target (t sr : Qc) (grange n : Z) s :
  sampling_rate s = Some sr → g_range s = Some grange →
  int_of_product W t sr = Some n → 0 ≤ n →
  ∃ fuel r s', read_continuos_xyz fuel t s = (r, s')
    ∧ if decide (n = 0) then r = Raise IndexError
      else if decide (n = 1) then r = Raise ZeroDivisionError
      else ∃ buf T, r = Ret (buf, T).
Proof.
  intros Hsr Hgr Hprod Hn.
  destruct (set_fifo_mode_total wait clock Hresp "bypass" (with_event Print s))
    as (s1 & E1 & Hc1).
  destruct (set_power_mode_total wait clock Hresp "measure" 0x08
              (with_event GcCollect s1)) as (s2 & E2 & Hc2); [done|lia|].
  destruct (polled_while_total wait clock Hresp n _ 0
              (replicate (Z.to_nat (int_times_1_5 ((bytes_per_3axes + 1) * n))) 0)
              (replicate (Z.to_nat (int_times_1_5 n)) 0) s2 eq_refl)
    as (fuel & [[n_act buf'] T'] & s3 & E3 & _ & Hc3); [lia| | |].
  { rewrite length_replicate. pose proof (int_times_1_5_ge n). lia. }
  { rewrite length_replicate. unfold int_times_1_5, bytes_per_3axes.
    Z.to_euclidean_division_equations. lia. }
  pose proof (polled_while_inv _ _ _ _ _ _ _ _ E3) as (Hact & _ & HT);
    [rewrite length_replicate; pose proof (int_times_1_5_ge _ Hn); lia|lia| |].
  { rewrite length_replicate. unfold int_times_1_5, bytes_per_3axes.
    Z.to_euclidean_division_equations. lia. }
  rewrite length_replicate in HT.
  pose proof (polled_while_stamps _ _ _ (clock (chip s2)) _ _ _ _ _ _ _ E3)
    as (Hs & _); [lia| |lia|intros; lia|intros; lia|].
  { rewrite length_replicate. pose proof (int_times_1_5_ge n). lia. }
  destruct (set_power_mode_total wait clock Hresp "standby" 0x00 s3)
    as (s4 & E4 & Hc4); [done|lia|].
  assert (n_act = n) as -> by lia.
  assert (Hlen : length (slice T' 0 n) = Z.to_nat n).
  { rewrite slice_length, HT. pose proof (int_times_1_5_ge n Hn). lia. }
  exists fuel. destruct (read_continuos_xyz fuel t s) as [r s'] eqn:Erun.
  exists r, s'. split; [done|].
  unfold read_continuos_xyz, int_mul in Erun.
  cbv beta iota zeta delta [bind lift getattr print_ gc_collect emit setattr] in Erun.
  rewrite Hsr in Erun. cbv beta iota zeta in Erun.
  rewrite Hgr in Erun. cbv beta iota zeta in Erun.
  rewrite Hprod in Erun. cbv beta iota zeta in Erun.
  unfold bytearray_zeros in Erun. rewrite bool_decide_false in Erun.
  2:{ unfold int_times_1_5, bytes_per_3axes.
      Z.to_euclidean_division_equations. lia. }
  rewrite E1 in Erun. cbv beta iota zeta in Erun.
  rewrite E2 in Erun. cbv beta iota zeta in Erun.
  rewrite E3 in Erun. cbv beta iota zeta in Erun.
  rewrite E4 in Erun. cbv beta iota zeta in Erun.
  destruct (slice T' 0 n) as [|x [|y rest]] eqn:Estamps; cbn [length] in Hlen.
  - rewrite decide_True by lia.
    change (getitem (@nil Z) (-1)) with (@Raise Z IndexError) in Erun.
    by injection Erun as <- <-.
  - rewrite decide_False, decide_True by lia.
    change (getitem [x] (-1)) with (Ret x) in Erun.
    change (getitem [x] 0) with (Ret x) in Erun.
    cbv beta iota zeta in Erun. rewrite Z.sub_diag, seconds_0 in Erun.
    unfold truediv in Erun. rewrite bool_decide_true in Erun by reflexivity.
    by injection Erun as <- <-.
  - rewrite !decide_False by lia.
    destruct (last (x :: y :: rest)) as [z|] eqn:Hlast;
      [|by apply last_None in Hlast].
    rewrite (getitem_last_ret _ z Hlast), getitem_0 in Erun.
    cbv beta iota zeta in Erun.
    assert (Hxz : x < z).
    { rewrite last_lookup in Hlast. cbn [length pred] in Hlast.
      rewrite <- Estamps in Hlast.
      apply slice_0_lookup in Hlast as [Hi Hz].
      assert (Hx : slice T' 0 n !! 0%nat = Some x) by (by rewrite Estamps).
      apply slice_0_lookup in Hx as [_ Hx].
      apply (Hs 0%nat (S (length rest))); [lia|done..]. }
    unfold truediv in Erun.
    rewrite bool_decide_false in Erun by (apply seconds_nonzero; lia).
    cbv beta iota zeta delta [ret] in Erun. injection Erun as <- <-.
    by eexists _, _.
Qed.

End Stamps.

(** X22.  The timestamps of the two polled modes, on a world that answers
    and whose clock moves forward: in what [read_many_xyz] and
    [read_continuos_xyz] return, the timestamps are strictly increasing,
    and each of them lies between the clock at the call and the clock at
    the return. *)
Theorem polled_timestamps_increase {W : World} (wait : dev W → nat)
    (clock : dev W → Z) (s : ADXL345 W) (fuel : nat) :
  responsive W wait clock →
  (∀ n buf T s',
     read_many_xyz fuel n s = (Ret (buf, T), s') →
     (∀ i j x y, (i < j)%nat → T !! i = Some x → T !! j = Some y → x < y)
     ∧ (∀ i x, T !! i = Some x → clock (chip s) ≤ x < clock (chip s')))
  ∧ (∀ t buf T s',
       read_continuos_xyz fuel t s = (Ret (buf, T), s') →
       (∀ i j x y, (i < j)%nat → T !! i = Some x → T !! j = Some y → x < y)
       ∧ (∀ i x, T !! i = Some x → clock (chip s) ≤ x < clock (chip s'))).
Proof.
  intros Hresp. split.
  - intros n buf T s' H. by eapply read_many_xyz_stamps.
  - intros t buf T s' H. by eapply read_continuos_xyz_stamps.
Qed.

Lemma polled_timestamps_increase_witness :
  ∃ buf T s',
    read_many_xyz 3 3 (configured (W:=steady_chip 32) (Qc_of_Z 100) 2 steady_start)
    = (Ret (buf, T), s')
    ∧ (∀ i j x y, (i < j)%nat → T !! i = Some x → T !! j = Some y → x < y)
    ∧ (∀ i x, T !! i = Some x → 0 ≤ x < steady_clock (chip s')).
Proof.
  eexists _, _, _. split; [vm_compute; reflexivity|].
  eapply (proj1 (polled_timestamps_increase (W:=steady_chip 32) (λ _, 0%nat) steady_clock
                  (configured (W:=steady_chip 32) (Qc_of_Z 100) 2 steady_start) 3
                  (steady_responsive 32 ltac:(by compute))) 3).
  vm_compute. reflexivity.
Defined.

(** X23.  [read_continuos_xyz] on a world that answers, with the sampling
    rate and the range set, by the target n, the number of samples that the
    duration asks for ([int(acquisition_time * sampling_rate)] as the
    interpreter computes it, n >= 0): with n = 0 it raises [IndexError]
    (there is no last timestamp), with n = 1 it raises
    [ZeroDivisionError] (the first timestamp is the last, the measured
    duration is zero), and from n = 2 on it returns. *)
Theorem read_continuos_xyz_needs_two_samples {W : World} (wait : dev W → nat)
    (clock : dev W → Z) (t sr : Qc) (grange n : Z) (s : ADXL345 W) :
  responsive W wait clock →
  sampling_rate s = Some sr → g_range s = Some grange →
  int_of_product W t sr = Some n → 0 ≤ n →
  ∃ fuel r s', read_continuos_xyz fuel t s = (r, s')
    ∧ if decide (n = 0) then r = Raise IndexError
      else if decide (n = 1) then r = Raise ZeroDivisionError
      else ∃ buf T, r = Ret (buf, T).
Proof. intros Hresp. by apply (read_continuos_xyz_by_target wait clock Hresp). Qed.

Lemma read_continuos_xyz_needs_two_samples_witness :
  (∃ fuel r s',
     read_continuos_xyz fuel (Q2Qc (1 # 100))
       (configured (W:=steady_chip 32) (Qc_of_Z 100) 2 steady_start) = (r, s')
     ∧ r = Raise ZeroDivisionError)
  ∧ (∃ fuel r s',
       read_continuos_xyz fuel (Q2Qc (1282051282051282 # 1000000000000000))
         (configured (W:=steady_chip 32) (Q2Qc (156 # 100)) 2 steady_start) = (r, s')
       ∧ ∃ buf T, r = Ret (buf, T)).
Proof.
  split.
  - apply (read_continuos_xyz_needs_two_samples (W:=steady_chip 32) (λ _, 0%nat)
             steady_clock (Q2Qc (1 # 100)) (Qc_of_Z 100) 2 1
             (configured (W:=steady_chip 32) (Qc_of_Z 100) 2 steady_start)).
    + apply steady_responsive. by compute.
    + reflexivity.
    + reflexivity.
    + vm_compute. reflexivity.
    + lia.
  - apply (read_continuos_xyz_needs_two_samples (W:=steady_chip 32) (λ _, 0%nat)
             steady_clock (Q2Qc (1282051282051282 # 1000000000000000))
             (Q2Qc (156 # 100)) 2 2
             (configured (W:=steady_chip 32) (Q2Qc (156 # 100)) 2 steady_start)).
    + apply steady_responsive. by compute.
    + reflexivity.
    + reflexivity.
    + vm_compute. reflexivity.
    + lia.
Defined.

(** ** The burst reads without a sampling rate *)

Lemma burst_reads_without_rate {W : World} (wait : dev W → nat) (clock : dev W → Z)
    (Hresp : responsive W wait clock) (n : Z) (s : ADXL345 W) :
  sampling_rate s = None → 0 ≤ n →
  (∃ fuel s', read_many_xyz fuel n s = (Raise AttributeError, s'))
  ∧ (∃ s', read_many_xyz_fromfifo (Z.to_nat n) n s = (Raise AttributeError, s')
       ∧ bus_reads (trace s')
         = replicate (Z.to_nat n) (SpiReadinto 7 0xF2) ++ bus_reads (trace s)).
Proof.
  intros Hsr Hn. split.
  - destruct (clear_isdataready_total wait clock Hresp s) as (s1 & E1 & Hconfig1 & _).
    destruct (ticks_us_total wait clock Hresp s1) as (s2 & E2 & Hconfig2 & _).
    destruct (polled_while_total wait clock Hresp n _ 0
                (replicate (Z.to_nat ((bytes_per_3axes + 1) * n)) 0)
                (replicate (Z.to_nat (int_times_1_5 n)) 0) s2 eq_refl)
      as (fuel & [[n_act buf] T] & s3 & E3 & Hconfig3 & _); [lia| | |].
    { rewrite length_replicate. pose proof (int_times_1_5_ge n). lia. }
    { rewrite length_replicate. unfold bytes_per_3axes. lia. }
    destruct (ticks_us_total wait clock Hresp s3) as (s4 & E4 & Hconfig4 & _).
    assert (Hsr4 : sampling_rate s4 = None).
    { assert (config s4 = config s) as Hc by congruence.
      unfold config in Hc. injection Hc as _ _ Hc _ _. congruence. }
    exists fuel. eexists. unfold read_many_xyz, bytearray_zeros.
    rewrite bool_decide_false by (unfold bytes_per_3axes; lia).
    cbv beta iota zeta delta [bind lift]. rewrite E1, E2, E3, E4.
    cbv beta iota zeta delta [getattr]. rewrite Hsr4. reflexivity.
  - destruct (ticks_us_total wait clock Hresp s) as (s1 & E1 & Hconfig1 & _).
    destruct (read_many_xyz_fromfifo_while_total wait clock Hresp n (Z.to_nat n) 0
                (replicate (Z.to_nat ((bytes_per_3axes + 1) * n)) 0) s1
                ltac:(f_equal; lia) ltac:(lia)
                ltac:(rewrite length_replicate; unfold bytes_per_3axes; lia))
      as ([n_act buf] & s2 & E2 & Hconfig2 & _).
    destruct (ticks_us_total wait clock Hresp s2) as (s3 & E3 & Hconfig3 & _).
    assert (Hsr3 : sampling_rate s3 = None).
    { assert (config s3 = config s) as Hc by congruence.
      unfold config in Hc. injection Hc as _ _ Hc _ _. congruence. }
    eexists. split.
    + unfold read_many_xyz_fromfifo, bytearray_zeros.
      rewrite bool_decide_false by (unfold bytes_per_3axes; lia).
      cbv beta iota zeta delta [bind lift]. rewrite E1, E2, E3.
      cbv beta iota zeta delta [getattr]. rewrite Hsr3. reflexivity.
    + apply read_many_xyz_fromfifo_while_inv in E2 as (_ & _ & _ & _ & Hreads);
        [|lia|rewrite length_replicate; unfold bytes_per_3axes; lia].
      revert E1 E3. run_core. intros E1 E3.
      destruct (ticks W (chip s)) as [t0 d0]. injection E1 as _ <-.
      destruct (ticks W (chip s2)) as [t1 d1]. injection E3 as _ <-.
      traces in Hreads. traces. by rewrite Hreads, Z.sub_0_r.
Qed.

(** X24.  The two burst reads need a sampling rate only for their closing
    message, and look for it last.  On an object whose sampling rate was
    never set, and on a world that answers, [read_many_xyz(n)] and
    [read_many_xyz_fromfifo(n)] (n >= 0) both end in [AttributeError]; for
    the second, the n fetches of the acquisition have been made on the bus
    by then, and their result is lost. *)
Theorem burst_reads_need_sampling_rate {W : World} (wait : dev W → nat)
    (clock : dev W → Z) (n : Z) (s : ADXL345 W) :
  responsive W wait clock → sampling_rate s = None → 0 ≤ n →
  (∃ fuel s', read_many_xyz fuel n s = (Raise AttributeError, s'))
  ∧ (∃ s', read_many_xyz_fromfifo (Z.to_nat n) n s = (Raise AttributeError, s')
       ∧ bus_reads (trace s')
         = replicate (Z.to_nat n) (SpiReadinto 7 0xF2) ++ bus_reads (trace s)).
Proof. intros Hresp. by apply (burst_reads_without_rate wait clock Hresp). Qed.

Lemma burst_reads_need_sampling_rate_witness :
  ∃ s', read_many_xyz_fromfifo 2 2
          {| power_mode := None; g_range := None; sampling_rate := None;
             fifo_mode := None; watermark_level := None;
             chip := steady_start : dev (steady_chip 8); trace := [] |}
        = (Raise AttributeError, s')
    ∧ bus_reads (trace s') = [SpiReadinto 7 0xF2; SpiReadinto 7 0xF2].
Proof.
  apply (proj2 (burst_reads_need_sampling_rate (W:=steady_chip 8) (λ _, 0%nat)
                  steady_clock 2
                  {| power_mode := None; g_range := None; sampling_rate := None;
                     fifo_mode := None; watermark_level := None;
                     chip := steady_start : dev (steady_chip 8); trace := [] |}
                  (steady_responsive 8 ltac:(by compute)) eq_refl ltac:(lia))).
Defined.

(** ** The bytes that a burst from the FIFO returns *)

Lemma read_many_xyz_fromfifo_while_frames {W : World} (fuel : nat) (n n_act : Z)
    (buf : list Z) (s : ADXL345 W) n' buf' s' :
  read_many_xyz_fromfifo_while fuel n (n_act, buf) s = (Ret (n', buf'), s') →
  0 ≤ n_act ≤ n → Z.of_nat (length buf) = 7 * n →
  ∃ frames, fetches (Z.to_nat (n - n_act)) (chip s) = Some (frames, chip s')
    ∧ Forall (λ f, length f = 7%nat) frames
    ∧ buf' = take (Z.to_nat (7 * n_act)) buf ++ concat frames.
Proof.
  revert n_act buf s.
  induction fuel as [|fuel IH]; intros n_act buf s H Hact Hlen;
    cbn [read_many_xyz_fromfifo_while] in H; case_bool_decide as Hlt.
  - by run in H.
  - run in H. injection H as <- <- <-. assert (n_act = n) as -> by lia.
    exists []. rewrite Z.sub_diag. split; [done|]. split; [done|].
    by rewrite take_ge, app_nil_r by lia.
  - run in H. whole_frame in H. run in H.
    rewrite frame_slice_length in H by lia.
    case_clock; run in H; [|done..].
    pose proof (clock_bytes_inv _ _ _ _ Eclock) as Hbs. cbn beta iota in Hbs.
    rewrite length_replicate in Hbs.
    apply IH in H as (frames & Hfetch & Hframes & ->); [|lia|].
    2:{ rewrite !length_app, length_take, length_drop. unfold bytes_per_3axes. lia. }
    run_core in Hfetch. exists (bs :: frames).
    replace (Z.to_nat (n - n_act)) with (S (Z.to_nat (n - (n_act + 1)))) by lia.
    cbn [fetches]. rewrite Eclock, Hfetch. split; [done|].
    split; [by constructor|].
    cbn [concat]. rewrite (app_assoc _ bs (concat frames)). f_equal.
    replace (Z.to_nat (n_act * (bytes_per_3axes + 1))) with (Z.to_nat (7 * n_act))
      by (unfold bytes_per_3axes; lia).
    rewrite (app_assoc _ bs). apply take_app_length'.
    rewrite length_app, length_take. lia.
  - run in H. injection H as <- <- <-. assert (n_act = n) as -> by lia.
    exists []. rewrite Z.sub_diag. split; [done|]. split; [done|].
    by rewrite take_ge, app_nil_r by lia.
Qed.

(** X26.  What is in the buffer that [read_many_xyz_fromfifo(n)] returns:
    the bytes that the chip sent in the n fetches, in order, less the
    first byte of each fetch (the one that comes in while the command goes
    out).  The fetches start from the state in which the first reading of
    the clock has left the chip. *)
Theorem read_many_xyz_fromfifo_payload {W : World} (fuel : nat) (n : Z)
    (s : ADXL345 W) buf s' :
  read_many_xyz_fromfifo fuel n s = (Ret buf, s') →
  ∃ frames d,
    fetches (Z.to_nat n) (ticks W (chip s)).2 = Some (frames, d)
    ∧ length frames = Z.to_nat n
    ∧ Forall (λ f, length f = 7%nat) frames
    ∧ buf = concat (drop 1 <$> frames).
Proof.
  intros H. unfold read_many_xyz_fromfifo, bytearray_zeros in H.
  case_bool_decide as Hneg; [by run in H|].
  assert (Hn : 0 ≤ n) by (unfold bytes_per_3axes in Hneg; lia).
  run in H. case_ticks. run in H.
  destruct (read_many_xyz_fromfifo_while _ _ _ _) as [[[n_act buf']|e|] s1] eqn:E in H;
    [|done..].
  apply read_many_xyz_fromfifo_while_frames in E as (frames & Hfetch & Hframes & ->);
    [|lia|rewrite length_replicate; unfold bytes_per_3axes; lia].
  repeat (case_step H; run in H; try done). injection H as <- <-.
  run_core in Hfetch. rewrite Z.sub_0_r in Hfetch.
  exists frames, (chip s1). split; [done|]. split; [|split; [done|]].
  - clear -Hfetch. revert Hfetch. generalize (Z.to_nat n) as k. intros k.
    generalize d as d0. revert frames.
    induction k as [|k IH]; intros frames d0 Hfetch; cbn [fetches] in Hfetch.
    + by simplify_eq.
    + destruct (clock_bytes _ _) as [[frame|e|] d1]; [|done..].
      destruct (fetches k (cs_set W 1 d1)) as [[frames' d2]|] eqn:Hk; [|done].
      simplify_eq. cbn. f_equal. by eapply IH.
  - unfold remove_first_bytes_from_bytearray_of_many_transactions, enumerate.
    by apply strip_from_frames.
Qed.

Lemma read_many_xyz_fromfifo_payload_witness :
  ∃ buf s',
    read_many_xyz_fromfifo 2 2
      (configured (W:=steady_chip 8) (Qc_of_Z 100) 2 steady_start) = (Ret buf, s')
    ∧ ∃ frames d,
        fetches (W:=steady_chip 8) 2 (ticks (steady_chip 8) steady_start).2
        = Some (frames, d)
        ∧ length frames = 2%nat
        ∧ Forall (λ f, length f = 7%nat) frames
        ∧ buf = concat (drop 1 <$> frames).
Proof.
  eexists _, _. split; [vm_compute; reflexivity|].
  eapply (read_many_xyz_fromfifo_payload (W:=steady_chip 8) 2 2
            (configured (W:=steady_chip 8) (Qc_of_Z 100) 2 steady_start)).
  vm_compute. reflexivity.
Defined.

(** ** The bytes that the polled modes return *)

(** The buffer after the polling loop: the frames of the fetches made, one
    after the other from where the loop started, and the rest of the
    buffer as it was. *)
Lemma polled_while_frames {W : World} (fuel : nat) (n n_act : Z) (buf T : list Z)
    (s : ADXL345 W) n' buf' T' s' :
  polled_while fuel n (n_act, buf, T) s = (Ret (n', buf', T'), s') →
  0 ≤ n_act ≤ n → 7 * n ≤ Z.of_nat (length buf) → n ≤ Z.of_nat (length T) →
  ∃ frames,
    polled_fetches fuel (Z.to_nat (n - n_act)) (chip s) = Some (frames, chip s')
    ∧ length frames = Z.to_nat (n - n_act)
    ∧ Forall (λ f, length f = 7%nat) frames
    ∧ buf' = take (Z.to_nat (7 * n_act)) buf ++ concat frames
             ++ drop (Z.to_nat (7 * n)) buf.
Proof.
  revert n_act buf T s.
  induction fuel as [|fuel IH]; intros n_act buf T s H Hact Hlen HT;
    cbn [polled_while] in H; case_bool_decide as Hlt.
  - by run in H.
  - run in H. injection H as <- <- <- <-. assert (n_act = n) as -> by lia.
    exists []. rewrite Z.sub_diag. split; [done|]. split; [done|]. split; [done|].
    cbn [concat app]. by rewrite take_drop.
  - run in H. case_xfer; [|done]. run in H. case_xfer; [|done]. run in H.
    rewrite getitem_1 in H. run in H.
    assert (Epoll : clock_bytes (replicate 2 (Z.lor regaddr_intsource read_mask))
                      (cs_set W 0 (chip s)) = (Ret [b; b0], d0)).
    { cbn [replicate clock_bytes]. by rewrite Exfer, Exfer0. }
    replace (Z.to_nat (n - n_act)) with (S (Z.to_nat (n - (n_act + 1)))) by lia.
    cbn [polled_fetches]. rewrite Epoll.
    case_bool_decide as Hready.
    { apply IH in H as (frames & Hfetch & Hrest); [|done..].
      exists frames. run_core in Hfetch.
      replace (S (Z.to_nat (n - (n_act + 1)))) with (Z.to_nat (n - n_act)) by lia.
      by split. }
    run in H. whole_frame in H. run in H. rewrite frame_slice_length in H by lia.
    case_clock; run in H; [|done..].
    pose proof (clock_bytes_inv _ _ _ _ Eclock) as Hbs. cbn beta iota in Hbs.
    rewrite length_replicate in Hbs.
    case_ticks. run in H. rewrite setitem_in_range in H by lia. run in H.
    apply IH in H as (frames & Hfetch & Hcount & Hframes & ->);
      [|lia| |rewrite length_insert; lia].
    2:{ rewrite !length_app, length_take, length_drop. unfold bytes_per_3axes. lia. }
    run_core in Hfetch.
    exists (bs :: frames). split.
    { cbn [fetches]. rewrite Eclock, Eticks. cbn [snd]. by rewrite Hfetch. }
    split; [cbn [length]; lia|]. split; [by constructor|].
    replace (Z.to_nat (n_act * (bytes_per_3axes + 1))) with (Z.to_nat (7 * n_act))
      by (unfold bytes_per_3axes; lia).
    assert (Hk : length (take (Z.to_nat (7 * n_act)) buf ++ bs)
                 = Z.to_nat (7 * (n_act + 1)))
      by (rewrite length_app, length_take; lia).
    assert (Htake : take (Z.to_nat (7 * (n_act + 1)))
                      (take (Z.to_nat (7 * n_act)) buf ++ bs
                       ++ drop (Z.to_nat (7 * n_act) + 7) buf)
                    = take (Z.to_nat (7 * n_act)) buf ++ bs).
    { rewrite app_assoc. by apply take_app_length'. }
    assert (Hdrop : drop (Z.to_nat (7 * n))
                      (take (Z.to_nat (7 * n_act)) buf ++ bs
                       ++ drop (Z.to_nat (7 * n_act) + 7) buf)
                    = drop (Z.to_nat (7 * n)) buf).
    { rewrite app_assoc, drop_app_ge by lia. rewrite Hk, drop_drop. f_equal. lia. }
    rewrite Htake, Hdrop. cbn [concat]. by rewrite <- !app_assoc.
  - run in H. injection H as <- <- <- <-. assert (n_act = n) as -> by lia.
    exists []. rewrite Z.sub_diag. split; [done|]. split; [done|]. split; [done|].
    cbn [concat app]. by rewrite take_drop.
Qed.

Lemma concat_frames_length (frames : list (list Z)) :
  Forall (λ f, length f = 7%nat) frames →
  length (concat frames) = (7 * length frames)%nat.
Proof.
  induction 1 as [|f frames Hf _ IH]; [reflexivity|].
  cbn [concat]. rewrite length_app, Hf, IH, length_cons. lia.
Qed.

(** [clear_isdataready] is one fetch, whose bytes are dropped. *)
Lemma clear_isdataready_fetch {W : World} (s : ADXL345 W) s' :
  clear_isdataready s = (Ret tt, s') →
  ∃ first, fetches 1 (chip s) = Some (first, chip s').
Proof.
  intros H.
  unfold clear_isdataready, read, spi_read in H.
  rewrite transfer_replicate in H by (by vm_compute).
  cbv beta iota zeta delta [bind cs_value emit setattr ret on_chip] in H.
  cbn [chip with_chip with_event] in H.
  destruct (clock_bytes _ _) as [[bs|e|] d] eqn:E in H; [|done..].
  injection H as <-. exists [bs]. cbn [fetches chip with_chip with_event].
  change (Z.to_nat (6 + 1)) with 7%nat in E.
  rewrite bool_decide_true in E by lia. by rewrite E.
Qed.

(** [write], when it returns, has left the chip as one write transaction
    does. *)
Lemma write_written {W : World} (regaddr the_byte : Z) (s : ADXL345 W) s' :
  0 ≤ regaddr < 256 → 0 ≤ the_byte < 256 →
  write regaddr the_byte s = (Ret tt, s') →
  written regaddr the_byte (chip s) = Some (chip s').
Proof.
  intros Ha Hb H. unfold write in H. rewrite bytearray_of_bytes in H by done.
  unfold written.
  cbv beta iota zeta delta [bind lift cs_value emit setattr ret spi_write on_chip] in H.
  rewrite transfer_cons in H. cbv beta iota zeta delta [on_chip] in H.
  cbn [chip with_chip with_event] in H.
  destruct (clock_bytes _ _) as [[bs|e|] d] eqn:E in H; [|done..].
  injection H as <-. by rewrite E.
Qed.

(** X27.  What is in the buffer that the two polled modes return.  The
    chip is asked what [polled_fetches] says: polls of the data-ready flag,
    and a fetch of seven bytes from the data registers after each poll that
    finds it set; in [read_many_xyz] this starts after the fetch of
    [clear_isdataready] and the first reading of the clock, in
    [read_continuos_xyz] after the two writes that set bypass mode and
    measure mode.  When the call returns [(buf, T)], there are as many
    frames as timestamps, and [buf] is the frames that the chip answered
    with, in order, less the first byte of each: no byte of the zero-filled
    buffer that the call started from is left in it. *)
Theorem polled_payload {W : World} (fuel : nat) (s : ADXL345 W) :
  (∀ n buf T s',
     read_many_xyz fuel n s = (Ret (buf, T), s') →
     ∃ first d0 frames d1,
       fetches 1 (chip s) = Some (first, d0)
       ∧ polled_fetches fuel (Z.to_nat n) (ticks W d0).2 = Some (frames, d1)
       ∧ length frames = length T
       ∧ buf = concat (drop 1 <$> frames))
  ∧ (∀ t buf T s',
       read_continuos_xyz fuel t s = (Ret (buf, T), s') →
       ∃ d0 d1 sr n frames d2,
         written regaddr_fifoctl 0x00 (chip s) = Some d0
         ∧ written regaddr_pwr 0x08 d0 = Some d1
         ∧ sampling_rate s = Some sr ∧ int_of_product W t sr = Some n
         ∧ polled_fetches fuel (Z.to_nat n) d1 = Some (frames, d2)
         ∧ length frames = length T
         ∧ buf = concat (drop 1 <$> frames)).
Proof.
  split.
  - intros n buf T s' H. unfold read_many_xyz, bytearray_zeros in H.
    case_bool_decide as Hneg; [by run in H|].
    assert (Hn : 0 ≤ n) by (unfold bytes_per_3axes in Hneg; lia).
    cbv beta iota zeta delta [bind lift] in H.
    destruct (clear_isdataready s) as [[[]|e|] s1] eqn:E1; [|done..].
    apply clear_isdataready_fetch in E1 as (first & Hfirst).
    destruct (ticks_us s1) as [[t0|e|] s2] eqn:E2; [|done..].
    assert (Hs2 : chip s2 = (ticks W (chip s1)).2).
    { run in E2. destruct (ticks W (chip s1)). by injection E2 as _ <-. }
    destruct (polled_while fuel n _ s2) as [[[[n_act buf'] T']|e|] s3] eqn:E3;
      [|done..].
    pose proof (polled_while_inv _ _ _ _ _ _ _ _ E3) as (_ & _ & HT);
      [rewrite length_replicate; pose proof (int_times_1_5_ge n); lia|lia
      |rewrite length_replicate; unfold bytes_per_3axes; lia|].
    apply polled_while_frames in E3 as (frames & Hfetch & Hcount & Hframes & Hbuf);
      [|lia|rewrite length_replicate; unfold bytes_per_3axes; lia
       |rewrite length_replicate; pose proof (int_times_1_5_ge n); lia].
    rewrite length_replicate in HT. rewrite Z.sub_0_r, Hs2 in Hfetch.
    run in H. repeat (case_step H; run in H; try done).
    injection H as <- <-. exists first, (chip s1), frames, (chip s3).
    split; [done|]. split; [done|]. split.
    + rewrite slice_length, HT, Hcount. pose proof (int_times_1_5_ge n Hn). lia.
    + rewrite Hbuf. change (Z.to_nat (7 * 0)) with 0%nat.
      rewrite take_0, app_nil_l, drop_ge, app_nil_r
        by (rewrite length_replicate; unfold bytes_per_3axes; lia).
      unfold remove_first_bytes_from_bytearray_of_many_transactions, enumerate.
      by apply strip_from_frames.
  - intros t buf T s' H. unfold read_continuos_xyz, bytearray_zeros, int_mul in H.
    cbv beta iota zeta delta [bind lift getattr print_ gc_collect emit setattr] in H.
    destruct (sampling_rate s) as [sr|] eqn:Hsr; [|done].
    destruct (g_range s) as [grange|] eqn:Hgr; [|done].
    cbv beta iota zeta in H.
    destruct (int_of_product W t sr) as [n|] eqn:Hprod; [|done].
    case_bool_decide as Hneg; [done|].
    apply int_times_1_5_frames in Hneg as [Hn Hlen].
    rewrite set_fifo_mode_bypass in H.
    destruct (write regaddr_fifoctl 0 _) as [[[]|e|] s1] eqn:E1 in H; [|done..].
    apply write_written in E1; [|by compute..].
    unfold set_power_mode in H at 1. rewrite power_modes_measure in H.
    cbv beta iota zeta delta [bind lift getattr print_ gc_collect emit setattr] in H.
    destruct (write regaddr_pwr 8 _) as [[[]|e|] s2] eqn:E2 in H; [|done..].
    apply write_written in E2; [|by compute..].
    cbn [chip with_event with_watermark_level with_fifo_mode] in E1, E2.
    destruct (polled_while fuel n _ _) as [[[[n_act buf'] T']|e|] s3] eqn:E3 in H;
      [|done..].
    pose proof (polled_while_inv _ _ _ _ _ _ _ _ E3) as (Hact & _ & HT);
      [rewrite length_replicate; pose proof (int_times_1_5_ge n Hn); lia|lia
      |rewrite length_replicate; lia|].
    apply polled_while_frames in E3 as (frames & Hfetch & Hcount & Hframes & Hbuf);
      [|lia|rewrite length_replicate; lia
       |rewrite length_replicate; pose proof (int_times_1_5_ge n Hn); lia].
    rewrite length_replicate in HT. rewrite Z.sub_0_r in Hfetch, Hcount.
    cbn [chip with_power_mode] in Hfetch.
    run in H. repeat (case_step H; run in H; try done).
    injection H as <- <-.
    eexists _, _, sr, n, frames, _.
    do 2 (split; [eassumption|]). do 2 (split; [done|]). split; [exact Hfetch|].
    split.
    + rewrite slice_length, HT, Hcount. pose proof (int_times_1_5_ge n Hn). lia.
    + rewrite Hbuf. change (Z.to_nat (7 * 0)) with 0%nat. rewrite take_0, app_nil_l.
      rewrite strip_after_whole_frames.
      2:{ rewrite concat_frames_length, Nat.mul_comm by done. apply Nat.Div0.mod_mul. }
      unfold slice. change (Z.to_nat 0) with 0%nat. rewrite drop_0, Z.sub_0_r.
      assert (Hpayload : remove_first_bytes_from_bytearray_of_many_transactions
                           (concat frames) = concat (drop 1 <$> frames)).
      { unfold remove_first_bytes_from_bytearray_of_many_transactions, enumerate.
        by apply strip_from_frames. }
      rewrite Hpayload. apply take_app_length'.
      rewrite payload_length, Hcount by done. unfold bytes_per_3axes. lia.
Qed.

Lemma polled_payload_witness :
  ∃ buf T s',
    read_many_xyz 3 3 (configured (W:=steady_chip 32) (Qc_of_Z 100) 2 steady_start)
    = (Ret (buf, T), s')
    ∧ ∃ first d0 frames d1,
        fetches 1 (chip (configured (W:=steady_chip 32) (Qc_of_Z 100) 2 steady_start))
        = Some (first, d0)
        ∧ polled_fetches 3 (Z.to_nat 3) (ticks (steady_chip 32) d0).2
          = Some (frames, d1)
        ∧ length frames = length T
        ∧ buf = concat (drop 1 <$> frames).
Proof.
  eexists _, _, _. split; [vm_compute; reflexivity|].
  eapply (proj1 (polled_payload (W:=steady_chip 32) 3
                   (configured (W:=steady_chip 32) (Qc_of_Z 100) 2 steady_start)) 3).
  vm_compute. reflexivity.
Defined.

(** ** A fetch past the end of the buffer *)

Lemma comprehension_raises {A B} (f : A → outcome B) (l : list A) (e : exn) :
  comprehension f l = Raise e → ∃ x, x ∈ l ∧ f x = Raise e.
Proof.
  induction l as [|x l IH]; cbn; [done|].
  destruct (f x) as [y|e'|] eqn:Ex; cbn.
  - destruct (comprehension f l) as [ys|e'|]; cbn; [done| |done].
    intros [= ->]. destruct IH as (x' & Hin & Hx'); [done|].
    exists x'. split; [by right|done].
  - intros [= ->]. exists x. split; [by left|done].
  - done.
Qed.

(** X28.  [read_continuos_xyz_fromfifo] and [ValueError], for a target
    n >= 0.  The call raises it only on a port whose bus refuses a transfer
    of no bytes, and then from inside its loop, at a fetch that falls past
    the end of the buffer (the drain goes on after the target, and the
    buffer has room for one and a half times the target).  The writes made
    by then are the four of the set-up, the standby write is not among
    them, and the object shows measure mode. *)
Theorem fromfifo_overshoot_can_raise {W : World} (fuel : nat) (t sr : Qc) (n : Z)
    (s : ADXL345 W) s' :
  read_continuos_xyz_fromfifo fuel t s = (Raise ValueError, s') →
  sampling_rate s = Some sr → int_of_product W t sr = Some n → 0 ≤ n →
  empty_transfer_ok W = false
  ∧ bus_writes (trace s')
    = [regaddr_fifoctl; 0x90] :: [regaddr_fifoctl; 0x00] :: [regaddr_pwr; 0x08]
      :: [regaddr_fifoctl; 0x90] :: bus_writes (trace s)
  ∧ config s' = (Some "measure"%string, g_range s, sampling_rate s,
                 Some "stream"%string, Some 16).
Proof.
  intros H Hsr Hprod Hn.
  unfold read_continuos_xyz_fromfifo, bytearray_zeros, int_mul in H.
  settings in H. rewrite Hsr in H. reduce in H.
  repeat (case_step H; reduce in H; try (by simplify_eq)).
  all: injection Hprod as ->.
  all: try match goal with
    | Hneg : bool_decide (int_times_1_5 _ < 0) = true |- _ =>
        apply bool_decide_eq_true in Hneg;
        pose proof (int_times_1_5_ge ((bytes_per_3axes + 1) * n));
        unfold bytes_per_3axes in *; lia
    | E : truediv _ _ = Raise _ |- _ => apply truediv_raises in E as [-> _]; done
    | E : comprehension _ _ = Raise _ |- _ =>
        apply comprehension_raises in E as (x & _ & E); unfold int_truediv in E;
        case_bool_decide; by simplify_eq
    end.
  match goal with
  | E : fromfifo_while _ _ _ _ = (Raise _, _) |- _ =>
      pose proof (fromfifo_while_quiet _ _ _ _ _ _ E) as [Hw Hc];
      apply (fromfifo_while_inv 63) in E as Hraise;
        [|intros s0 k s1 Hk; apply get_nvalues_in_fifo_inv in Hk; cbn in Hk; lia]
  end.
  injection H as -> <-. destruct Hraise as [|[_ Hempty]]; [done|].
  traces in Hw. traces in Hc. split; [done|]. split; [done|].
  unfold config. congruence.
Qed.

Lemma fromfifo_overshoot_can_raise_witness :
  ∃ s',
    read_continuos_xyz_fromfifo 1 (Q2Qc (1 # 100))
      (configured (W:=strict_chip 32) (Qc_of_Z 100) 2 steady_start)
    = (Raise ValueError, s')
    ∧ fetch_count (trace s') = 3
    ∧ empty_transfer_ok (strict_chip 32) = false
    ∧ bus_writes (trace s')
      = [[regaddr_fifoctl; 0x90]; [regaddr_fifoctl; 0x00]; [regaddr_pwr; 0x08];
         [regaddr_fifoctl; 0x90]]
    ∧ config s' = (Some "measure"%string, Some 2, Some (Qc_of_Z 100),
                   Some "stream"%string, Some 16).
Proof.
  eexists. split; [vm_compute; reflexivity|]. split; [vm_compute; reflexivity|].
  apply (fromfifo_overshoot_can_raise (W:=strict_chip 32) 1 (Q2Qc (1 # 100))
           (Qc_of_Z 100) 1
           (configured (W:=strict_chip 32) (Qc_of_Z 100) 2 steady_start)).
  - vm_compute. reflexivity.
  - reflexivity.
  - vm_compute. reflexivity.
  - lia.
Defined.
